(* ===== verification/_CoqProject ===== *)
-Q . S2P
Prelude.v
Filepath.v
Utf8.v
Json.v
Scanner.v
Fmt.v
Events.v
Os.v
Handler.v
Fs.v
Marshal.v
Runtime.v
System.v
Invoke.v
