(* ===== verification/Prelude.v ===== *)
(** * A verification library for app-lambda-cam

    The repository is one AWS Lambda function written in Go, [src/main.go].
    [main] registers [Handler] with the Lambda runtime ([lambda.Start]);
    on every invocation [Handler] asks the operating system for the
    current working directory ([os.Getwd]), and answers through the API
    Gateway envelope [events.APIGatewayProxyResponse]:
    - on failure, status 500 and the body
      ["Erro ao obter o diretório corrente: " ++ err.Error()];
    - on success, status 200 and the body
      ["O diretório corrente é: " ++ filepath.Base(dir)].
    The handler never returns a non-nil Go error.

    ** Files, in dependency order

    - [Prelude] (this file): Go strings as [list byte]; [GoM], the
      outcome of a Go computation (a value, a run-time panic, or a loop
      model that ran out of fuel) with its bind notation in
      [go_scope]; Go's [len], string indexing [s[i]] and slicing
      [s[lo:hi]] with their bounds checks; [loop], the model of a Go
      [for cond { body }] loop with fuel, and [loop_rule], the
      invariant-and-measure rule that proves a loop terminates within
      its fuel; the hint databases [go] and [go_rw] and the tactic [go_simpl].
    - [Filepath]: [Base], Go's [path/filepath.Base] on Unix, written
      with its two index loops exactly as the Go source has them, and
      [base_ref], the abstract specification (the last non-empty
      segment between separators).  [Base_refines_gen] shows that [Base]
      never panics, never exhausts its fuel, and returns [base_ref].
      The usual laws follow from it.
    - [Utf8]: [valid_utf8], well-formed UTF-8 (Unicode Table 3-7), and
      Go's [unicode/utf8]: [DecodeRune] with its [first] table and
      accept ranges, [EncodeRune], both with the masks and shifts of the
      Go code on [Z] ([Z.land], [Z.lor], [Z.shiftl], [Z.shiftr]).
    - [Json]: [appendString] of Go's [encoding/json] (Go 1.22) as the Go
      loop over the state [(dst, start, i)]; [enc_ref], a reference
      encoder one character at a time, by well-founded recursion with
      Equations; [unescape] and [unquote], JSON strings read back as
      RFC 8259 defines them.
    - [Scanner]: the state machine of Go's [encoding/json/scanner.go]
      (Go 1.22): the [scanner] record (state function, parse stack,
      first error, bytes read), one constructor of [stepfn] and one
      Rocq function per Go [stateXxx] function, the error messages with
      [quoteChar]; [checkValid], the check [json.Unmarshal] runs on the
      whole input, and [readValue], the loop of [json.Decoder] that
      stops at the end of the first value ([io.EOF],
      [io.ErrUnexpectedEOF]).
    - [Fmt]: [Sprintf], Go's [fmt.Sprintf] for format strings whose
      verbs take string arguments, with the
      ["%!v(MISSING)"], ["%!(EXTRA ...)"] and ["%!(NOVERB)"] reports.
    - [Events]: the records [APIGatewayProxyRequest] and
      [APIGatewayProxyResponse] of [aws-lambda-go/events], with their
      Go maps as stdpp [gmap]s.
    - [Os]: the interface the handler needs from the operating system,
      the type class [Os] (Go's [os.Getwd]) together with [GoErr]
      (Go's [error] interface), and [unix_Getwd], a Linux instance that
      follows Go's Unix [os.Getwd] ($PWD shortcut, then the getcwd
      system call) over an explicit process state [Process].
    - [Handler]: [Handler], [getwd_failure_response],
      [current_dir_response], [HandlerResult], the two format strings
      and the response literal [Events.proxy_response] of [src/main.go]
      lines 14-33, proved against the [Os] interface; then the same
      handler on the Linux instance, and concrete runs.
    - [Fs]: the Linux directory tree that [stat], [$PWD] and [getcwd]
      read: [FS] (the entries of every linked directory and the parent
      link of every directory but the root), [mkdir] and [rmdir], the
      path walk [lookup_path] ([.], [..], names) and [kernel_getcwd],
      the walk up the parent links; [to_process] turns a tree, a
      working directory and [$PWD] into the [Os.Linux.Process] that
      [unix_Getwd] reads.  [wf] is the invariant of the tree.
    - [Runtime]: [Start], the invoke loop of [lambda.Start] as a step
      relation on a [State] (process state, pending invocations, posted
      reports, exit flag), interleaved with arbitrary changes of the
      process state; [main] is [Start] applied to [Handler] (lines 35-38).
    - [Marshal]: [marshal_response], [json.Marshal] of the response
      struct as the runtime posts it: field tags, [strconv.AppendInt]
      ([formatInt]), [mapEncoder] with sorted keys ([encode_map]),
      [sliceEncoder], and [appendString] for every string.
    - [System]: the deployed function: [main] on a process over a
      [Fs] tree ([tree_os]), the environment restricted to the [mkdir]
      and [rmdir] of other processes ([fs_op]), which never reuse the
      inode of the working directory.
    - [Invoke]: the payload of an invocation as bytes: [read_event],
      the decoding of [reflectHandler] with [json.Unmarshal] or
      [json.Decoder] ([Reader]), the typed decoding being a parameter;
      [StartRaw], the invoke loop over raw payloads, which reports a
      decoding error as an invocation error, and [main_raw], [main]
      over it.

    ** What the theorems show

    The ids C1-C29 label the main theorems, in order of importance.
    - [Filepath]: [Base_refines_gen]: Go's index-loop [Base] equals the
      segment specification [base_ref] on every input (no panic, fuel
      always enough); the laws of [base_ref] (never empty, ["/"] or free
      of separators, trailing separators ignored, last element,
      idempotent).
    - [Fmt]: [Sprintf] of a separator-free literal followed by [%s]
      prints the literal and its argument ([Sprintf_prefix_s]).
    - [Utf8]: validity is kept by concatenation and split at ASCII
      bytes, hence by path segments and [base_ref]; on a valid sequence
      [DecodeRune] returns a rune of 2 to 4 bytes that [EncodeRune]
      writes back as the same bytes ([DecodeRune_valid]).
    - [Json]: [appendString_enc_ref]: Go's batching loop never panics,
      terminates within its fuel and writes exactly [enc_ref] (an
      equivalence with the reference); [appendString_roundtrip]: the JSON
      string of a valid UTF-8 text reads back as the text.
    - [Os]: the three cases of the Linux [unix_Getwd]; [proc_equiv], the
      equivalence of processes [os.Getwd] cannot tell apart, a setoid
      with [unix_Getwd] as a morphism.
    - [Handler]: refinement of the contract [handler_spec] (C1); the
      200 and 500 answers (C2, C3); status 200 or 500 and a nil Go error
      always (C4, C5); independence from request and context (C6); the
      base name in the body (C10-C12); zero-valued headers (C13);
      distinguishable bodies (C14); the Linux error and success paths
      (C15-C18); the body is valid UTF-8 when the directory and the
      error text are (C19); the length of the 200 body (C20).
    - [Fs]: [mkdir] and [rmdir] keep [wf] ([wf_mkdir], [wf_rmdir]);
      in a well-formed tree the fuel of [kernel_getcwd] is enough for
      every linked directory ([path_up_size]: the directories it passes
      are distinct, since the parent links decrease a depth) and its
      path walks back to the directory ([kernel_getcwd_linked]); hence
      [os.Getwd] succeeds with an absolute path that resolves to the
      working directory (C22), the handler answers 200 with the
      directory's own name when [$PWD] is unset or plain (C23), and 500
      with ["getwd: no such file or directory"] once [rmdir] removed the
      working directory (C24); the [PATH_MAX] bound is exact (C25): a
      path of 4096 bytes or more makes [getcwd] fail with
      [ENAMETOOLONG] and the handler answer 500, one of 4095 bytes or
      fewer gives 200 with its base name.
    - [Marshal]: the JSON object posted for every handler response, with
      the body written by [appendString], which reads back as the body
      when it is valid UTF-8 (C21).
    - [Runtime]: along every run of [main], every report is a 200 or 500
      success and the process never exits (C7); every pending
      invocation can be answered with the handler's response (C8); two
      consecutive invocations with no change of the process state get
      the same response (C9).
    - [System]: along every run the tree stays well formed and the
      working directory and [$PWD] do not change ([system_wf], an
      invariant of the environment); once the working directory is
      removed, every later invocation gets the 500 answer of [getwd]'s
      [ENOENT] (C26).
    - [Scanner]: the scanner reads the inside of every string
      [enc_ref] writes ([run_str], [enc_ref_str_ok]); [n + 1] nested
      arrays pass [checkValid] and [readValue] exactly when
      [n + 1 <= maxNestingDepth] ([checkValid_nested],
      [readValue_nested]).
    - [Invoke]: the nesting limit of 10000 holds for both readers, and
      the array one level deeper is reported as an invocation error
      (C27); trailing bytes after the first value are rejected by
      [json.Unmarshal] and ignored by [json.Decoder] (C28); the JSON
      document posted for every handler response passes Go's scanner
      and is read whole by a [json.Decoder] (C29).

    The claims and the code disagree with the spec on one point: the
    bodies are in Portuguese (["O diretório corrente é: "],
    ["Erro ao obter o diretório corrente: "]) where the spec gives
    English sentences; C2 and C3 state the code's behaviour.

    A finding of the tree model: [os.Getwd] answers [$PWD] verbatim when
    it walks to the working directory, so [$PWD = /srv/app/.] gives the
    body ending in ["."] and [$PWD = /srv/app/..] in [/srv] one ending
    in [".."] ([Fs.Handler_tree_pwd_dot]), not the directory's name.

    ** Plan for the rest

    The EINTR retry loop of [os.Getwd]; [rename] and symbolic links in
    the tree; the typed decoding of the request's fields.

    A finding of the payload model: the spec's runtime always calls the
    handler with a deserialized request; the real one answers a payload
    it cannot decode with an invocation error and never runs the
    handler ([Invoke.invoke_raw]), and which payloads those are depends
    on the reader of the [aws-lambda-go] release (C28).

    A finding of the JSON model: a directory whose name is not valid
    UTF-8 reaches the client with each invalid byte replaced by the
    escape of U+FFFD ([Json.appendString_invalid_byte]); the name is lost.

    ** Bounds and fuel

    Go loops are modelled by [loop] with explicit fuel; [Base] gives
    each of its two loops [length path + 1] tests of the condition;
    each loop strictly decreases a natural measure (the length of the
    stripped path, then [i + 1]) bounded by [length path], so this fuel
    is enough, which [Filepath.Base_refines_gen] proves ([OutOfFuel] is
    never returned).  [appendString] gets [len(src) + 1] tests; each
    iteration advances [i] by the width of a character (at least one
    byte, [DecodeRune_size]), so the measure [len(src) - i] proves the
    fuel enough ([appendString_enc_ref]).  [DecodeRune] reads at most
    [UTFMax = 4] bytes, as Go's window [src[i:i+n]] does.  [enc_ref]
    recurses by well-founded recursion on the length of its input.
    [kernel_getcwd] follows at most one parent link per linked
    directory ([size (dirs fs)]); in a well-formed tree the directories
    on the way up are distinct and linked, so this fuel is enough
    ([Fs.path_up_size]).  Its answer, with the terminating NUL byte,
    must fit in [PATH_MAX = 4096] bytes, the size of the kernel's buffer
    and of the one Go's [syscall.Getwd] passes; [Fs.deep_fs] builds
    paths of 4095 and 4096 bytes to show the bound exact.  [formatInt] gives [strconv.AppendInt] [log2 n + 1] steps, one per
    bit, more than the number of decimal digits.  The JSON scanner
    needs no fuel: [feed] and [read_loop] recurse on the bytes, and its
    only bound is Go's [maxNestingDepth = 10000] on the parse stack,
    shown exact by [Scanner.checkValid_nested].  Go's [int] is 64 bits wide; indices here never
    leave [-1 .. len(path)], so they are modelled by [Z] without
    wrap-around.

    ** Not modelled

    The Lambda runtime API client (HTTP to the runtime endpoint); the
    typed part of decoding the event ([decodeState] filling the
    request's fields by reflection, [UseNumber] and
    [DisallowUnknownFields]), a parameter of [Invoke], since the
    handler never reads the request; [json.Decoder]'s refills of its
    buffer from a reader (the payload is one buffer); the difference between a
    nil and an empty Go map or slice in [Marshal] (the handler only
    builds nil maps, written [null]); surrogate pairs in [\u] escapes
    of [Json.unescape], which [appendString] never writes; the request
    fields the handler never reads (multi-value maps, request context);
    [context.Context], which the handler never reads and which the model
    keeps as an arbitrary type; the [EINTR] retry loop of Go's [os.Getwd]
    (the modelled getcwd never reports [EINTR]); files, symbolic links,
    permissions and [rename] in the directory tree of [Fs]; fmt's flags, widths,
    precisions, argument indexes, non-ASCII verbs and the [%q] verb,
    which [src/main.go] does not use. *)

From stdpp Require Export base list strings countable gmap.
From Stdlib Require Export ZArith Lia.
From Stdlib Require Export Strings.Byte.
From Stdlib Require Strings.String.

(** ** Go strings *)

(** A Go [string] is an immutable sequence of bytes; [len] counts bytes
    and a literal is stored as its UTF-8 encoding. *)
Abbreviation gostring := (list byte).

(** A Go string literal, written as a Rocq string (UTF-8 is kept as bytes). *)
Definition gostr (s : String.string) : gostring := String.list_byte_of_string s.

#[export] Instance byte_eq_dec : EqDecision byte := Byte.byte_eq_dec.
#[export] Instance byte_countable : Countable byte :=
  inj_countable Byte.to_nat Byte.of_nat Byte.of_to_nat.

(** A byte as the unsigned integer Go computes with, and Go's [byte(x)]
    conversion, which keeps the low 8 bits. *)
Definition byteZ (b : byte) : Z := Z.of_N (Byte.to_N b).
Definition byte_of_Z (z : Z) : byte :=
  match Byte.of_N (Z.to_N (z mod 256)) with Some b => b | None => Byte.x00 end.

(** [len(s)], a Go [int]. *)
Definition len {A} (s : list A) : Z := Z.of_nat (length s).

(** ** Outcomes of Go computations *)

(** Why a Go program panics at run time. *)
Inductive panic_reason :=
| IndexOutOfRange (i length : Z)
| SliceOutOfRange (lo hi length : Z).

(** A computation returns, panics, or (in a model with fuel) runs out of
    fuel, which the real program never does. *)
Inductive GoM (A : Type) : Type :=
| Ret (a : A)
| Panic (r : panic_reason)
| OutOfFuel.
Arguments Ret {A} a.
Arguments Panic {A} r.
Arguments OutOfFuel {A}.

Definition go_bind {A B} (m : GoM A) (k : A -> GoM B) : GoM B :=
  match m with
  | Ret a => k a
  | Panic r => Panic r
  | OutOfFuel => OutOfFuel
  end.

(** Go's short-circuit [b && e]: [e] is evaluated only when [b] holds. *)
Definition go_andb (b : bool) (e : unit -> GoM bool) : GoM bool :=
  if b then e tt else Ret false.

Declare Scope go_scope.
Delimit Scope go_scope with go.
Notation "x <- m ;; k" := (go_bind m (fun x => k))
  (at level 100, m at next level, right associativity) : go_scope.
Notation "b &&& e" := (go_andb b (fun _ => e))
  (at level 40, left associativity) : go_scope.
Open Scope go_scope.

(** [s[i]]: panics unless [0 <= i < len(s)]. *)
Definition index {A} (s : list A) (i : Z) : GoM A :=
  if decide (0 <= i < len s)%Z then
    match s !! Z.to_nat i with Some c => Ret c | None => Panic (IndexOutOfRange i (len s)) end
  else Panic (IndexOutOfRange i (len s)).

(** [s[lo:hi]]: panics unless [0 <= lo <= hi <= len(s)]. *)
Definition slice {A} (s : list A) (lo hi : Z) : GoM (list A) :=
  if decide (0 <= lo <= hi /\ hi <= len s)%Z
  then Ret (take (Z.to_nat (hi - lo)) (drop (Z.to_nat lo) s))
  else Panic (SliceOutOfRange lo hi (len s)).

(** [for cond(s) { s = body(s) }], with at most [fuel] tests of [cond]. *)
Fixpoint loop {S} (fuel : nat) (cond : S -> GoM bool) (body : S -> GoM S) (s : S)
  : GoM S :=
  match fuel with
  | O => OutOfFuel
  | Datatypes.S n =>
      c <- cond s ;;
      if c then (s' <- body s ;; loop n cond body s') else Ret s
  end.

(** ** Generic lemmas *)

Create HintDb go discriminated.
Create Rewrite HintDb go_rw.

Lemma go_bind_ret {A B} (a : A) (k : A -> GoM B) : go_bind (Ret a) k = k a.
Proof. reflexivity. Qed.

Lemma Ret_inj {A} (a b : A) : Ret a = Ret b -> a = b.
Proof. by intros [=]. Qed.

Lemma len_app {A} (s t : list A) : len (s ++ t) = (len s + len t)%Z.
Proof. unfold len. rewrite length_app. lia. Qed.

Lemma len_cons {A} (c : A) (s : list A) : len (c :: s) = (1 + len s)%Z.
Proof. unfold len. simpl length. lia. Qed.

Lemma len_nonneg {A} (s : list A) : (0 <= len s)%Z.
Proof. unfold len. lia. Qed.

#[export] Hint Rewrite @go_bind_ret @len_app @len_cons : go_rw.
#[export] Hint Resolve len_nonneg : go.

(** Indexing in range returns the element. *)
Lemma index_in_range {A} (s : list A) (i : nat) (c : A) :
  s !! i = Some c -> index s (Z.of_nat i) = Ret c.
Proof.
  intros H. unfold index. pose proof (lookup_lt_Some _ _ _ H).
  rewrite decide_True by (unfold len; lia). rewrite Nat2Z.id, H. reflexivity.
Qed.

(** Slicing a prefix off: [s[0:len(s)-k]] and a suffix [s[k:]]. *)
Lemma slice_prefix {A} (p q : list A) :
  slice (p ++ q) 0 (len p) = Ret p.
Proof.
  unfold slice. rewrite decide_True by (rewrite len_app; pose proof (len_nonneg p);
    pose proof (len_nonneg q); lia).
  rewrite drop_0, Z.sub_0_r. unfold len. rewrite Nat2Z.id, take_app_length. reflexivity.
Qed.

Lemma slice_suffix {A} (p q : list A) :
  slice (p ++ q) (len p) (len (p ++ q)) = Ret q.
Proof.
  unfold slice. rewrite decide_True by (rewrite len_app; pose proof (len_nonneg p);
    pose proof (len_nonneg q); lia).
  rewrite len_app. unfold len.
  replace (Z.of_nat (length p) + Z.of_nat (length q) - Z.of_nat (length p))%Z
    with (Z.of_nat (length q)) by lia.
  rewrite !Nat2Z.id, drop_app_length, take_ge; [reflexivity | lia].
Qed.

Lemma slice_full {A} (s : list A) : slice s 0 (len s) = Ret s.
Proof. rewrite <- (app_nil_r s) at 1. apply slice_prefix. Qed.

(** [s[len(s)-1]] and [s[0:len(s)-1]] on a non-empty string. *)
Lemma index_last {A} (s : list A) (c : A) :
  index (s ++ [c]) (len (s ++ [c]) - 1)%Z = Ret c.
Proof.
  rewrite len_app. replace (len s + len [c] - 1)%Z with (Z.of_nat (length s))
    by (unfold len; simpl; lia).
  apply index_in_range, list_lookup_middle. done.
Qed.

Lemma slice_drop_last {A} (s : list A) (c : A) :
  slice (s ++ [c]) 0 (len (s ++ [c]) - 1)%Z = Ret s.
Proof.
  replace (len (s ++ [c]) - 1)%Z with (len s) by (rewrite len_app; unfold len; simpl; lia).
  apply slice_prefix.
Qed.

(** [s[i]] at the boundary of [a ++ c :: b] with [i = len(a)]. *)
Lemma index_middle {A} (a b : list A) (c : A) :
  index (a ++ c :: b) (len a) = Ret c.
Proof. apply index_in_range, list_lookup_middle. done. Qed.

(** [s[lo:hi]] and [s[i]] at natural positions in range. *)
Lemma slice_nat {A} (s : list A) (lo hi : nat) :
  (lo <= hi <= length s)%nat ->
  slice s (Z.of_nat lo) (Z.of_nat hi) = Ret (take (hi - lo) (drop lo s)).
Proof.
  intros H. unfold slice. rewrite decide_True by (unfold len; lia).
  rewrite <- Nat2Z.inj_sub, !Nat2Z.id by lia. reflexivity.
Qed.

Lemma index_drop {A} (s : list A) (i : nat) (c : A) t :
  drop i s = c :: t -> index s (Z.of_nat i) = Ret c.
Proof.
  intros H. apply index_in_range. rewrite <- (Nat.add_0_r i), <- lookup_drop, H. done.
Qed.

(** A chunk [s[start:i]] grown by the [k] bytes at [i]. *)
Lemma take_drop_grow {A} (l : list A) (start i k : nat) :
  (start <= i)%nat ->
  take (i + k - start) (drop start l) = take (i - start) (drop start l) ++ take k (drop i l).
Proof.
  intros H. replace (i + k - start)%nat with ((i - start) + k)%nat by lia.
  rewrite <- take_take_drop, drop_drop. by replace (start + (i - start))%nat with i by lia.
Qed.

(** ** Bytes as integers *)

Lemma byteZ_range b : (0 <= byteZ b < 256)%Z.
Proof. unfold byteZ. pose proof (Byte.to_N_bounded b). lia. Qed.

Lemma byteZ_inj b1 b2 : byteZ b1 = byteZ b2 -> b1 = b2.
Proof.
  unfold byteZ. intros H. apply N2Z.inj in H.
  pose proof (Byte.of_to_N b1) as E1. rewrite H, Byte.of_to_N in E1. congruence.
Qed.

Lemma byteZ_of_Z z : (0 <= z < 256)%Z -> byteZ (byte_of_Z z) = z.
Proof.
  intros Hz. unfold byte_of_Z. rewrite Z.mod_small by lia.
  destruct (Byte.of_N (Z.to_N z)) as [b|] eqn:E.
  - apply Byte.to_of_N in E. unfold byteZ. rewrite E. lia.
  - exfalso. apply Byte.of_N_None_iff in E. lia.
Qed.

Lemma byte_of_Z_byteZ b : byte_of_Z (byteZ b) = b.
Proof. apply byteZ_inj. apply byteZ_of_Z, byteZ_range. Qed.

(** Go's [a<<k | b] when [b] fits in the [k] low bits is [a*2^k + b]. *)
Lemma lor_shiftl_small a b k :
  (0 <= k)%Z -> (0 <= b < 2 ^ k)%Z -> Z.lor (Z.shiftl a k) b = (a * 2 ^ k + b)%Z.
Proof.
  intros Hk Hb. rewrite <- Z.add_nocarry_lor; [by rewrite Z.shiftl_mul_pow2 |].
  apply Z.bits_inj_0. intros n. rewrite Z.land_spec.
  destruct (Z.lt_ge_cases n 0) as [Hn|Hn]; [by rewrite Z.testbit_neg_r |].
  destruct (Z.lt_ge_cases n k) as [Hnk|Hnk].
  - by rewrite Z.shiftl_spec_low.
  - rewrite andb_false_intro2; [done |].
    destruct (Z.eq_dec b 0) as [->|Hb0]; [apply Z.testbit_0_l |].
    assert (Z.log2 b < k)%Z by (apply Z.log2_lt_pow2; lia).
    apply Z.bits_above_log2; lia.
Qed.

Lemma land_ones_mod a k : (0 <= k)%Z -> Z.land a (Z.ones k) = (a mod 2 ^ k)%Z.
Proof. apply Z.land_ones. Qed.

(** [c | x] when [c] is a multiple of [2^k] and [x] fits in [k] bits. *)
Lemma lor_high c x k :
  (0 <= k)%Z -> (c mod 2 ^ k = 0)%Z -> (0 <= x < 2 ^ k)%Z -> Z.lor c x = (c + x)%Z.
Proof.
  intros Hk Hc Hx. assert (0 < 2 ^ k)%Z by (apply Z.pow_pos_nonneg; lia).
  rewrite (Z.div_mod c (2 ^ k)) by lia. rewrite Hc, Z.add_0_r, Z.mul_comm.
  rewrite <- Z.shiftl_mul_pow2 by lia. rewrite lor_shiftl_small by lia.
  by rewrite Z.shiftl_mul_pow2 by lia.
Qed.

(** More fuel does not change a loop that finished. *)
Lemma loop_fuel_mono {S} n m cond body (s : S) :
  n <= m -> loop n cond body s <> OutOfFuel -> loop m cond body s = loop n cond body s.
Proof.
  revert m s. induction n as [|n IH]; intros m s Hle Hne; [done |].
  destruct m as [|m]; [lia |]. simpl in *.
  destruct (cond s) as [[|]| |]; simpl in *; try done.
  destruct (body s) as [s'| |]; simpl in *; try done.
  apply IH; [lia | done].
Qed.

(** The loop rule: an invariant kept by every iteration whose condition
    holds, and a measure that every iteration decreases, make the loop
    return within [mu s + 1] tests, in a state where the invariant holds
    and the condition is false. *)
Section LoopRule.
Context {S : Type} (Inv : S -> Prop) (mu : S -> nat)
        (cond : S -> GoM bool) (body : S -> GoM S).
Hypothesis step : forall s, Inv s ->
  cond s = Ret false \/
  (cond s = Ret true /\ exists s', body s = Ret s' /\ Inv s' /\ mu s' < mu s).

Lemma loop_rule n s :
  Inv s -> mu s < n ->
  exists r, loop n cond body s = Ret r /\ Inv r /\ cond r = Ret false.
Proof.
  revert s. induction n as [|n IH]; intros s Hs Hmu; [lia |].
  destruct (step s Hs) as [Hc | [Hc [s' [Hb [Hs' Hlt]]]]]; simpl; rewrite Hc; simpl.
  - eauto.
  - rewrite Hb. simpl. apply IH; [done | lia].
Qed.
End LoopRule.

(** ** Transition sequences *)

(** Zero or more steps of a transition relation. *)
Inductive star {S} (R : S -> S -> Prop) : S -> S -> Prop :=
| star_refl s : star R s s
| star_step s1 s2 s3 : R s1 s2 -> star R s2 s3 -> star R s1 s3.

Lemma star_trans {S} (R : S -> S -> Prop) s1 s2 s3 :
  star R s1 s2 -> star R s2 s3 -> star R s1 s3.
Proof. induction 1; eauto using star. Qed.

Lemma star_one {S} (R : S -> S -> Prop) s1 s2 : R s1 s2 -> star R s1 s2.
Proof. eauto using star. Qed.

(** An invariant of each step holds along every run. *)
Lemma star_invariant {S} (R : S -> S -> Prop) (I : S -> Prop) s0 s :
  (forall s1 s2, R s1 s2 -> I s1 -> I s2) -> star R s0 s -> I s0 -> I s.
Proof. intros Hstep. induction 1; eauto. Qed.

#[export] Hint Resolve star_refl star_one : go.

(** Peel a [go_bind] whose head is known. *)
Ltac go_simpl :=
  repeat (simpl go_bind || autorewrite with go_rw in *).
