(* ===== verification/Filepath.v ===== *)
(** * Filepath: Go's [path/filepath.Base] on Unix

    [Base] follows the Go source line by line: the empty path gives
    ["."]; a first loop strips trailing separators with
    [path = path[0:len(path)-1]]; the volume name (empty on Unix) is
    sliced off; a second loop walks [i] down from [len(path)-1] to the
    last separator; [path[i+1:]] is the last element, and a path made
    only of separators gives ["/"].  Indexing and slicing go through
    [Prelude.index] and [Prelude.slice], so an out-of-range access would
    be a [Panic], and both loops run on fuel.

    [base_ref] is the specification: the last non-empty segment of the
    path split at separators.  [Base_refines_gen] proves that [Base] returns
    [base_ref] on every input, so it never panics and its fuel is always
    enough. *)

From S2P Require Import Prelude.

Module Filepath.

(** ** The code *)

(** [os.IsPathSeparator] on Unix: [PathSeparator == c], with ['/']. *)
Definition IsPathSeparator (c : byte) : bool := bool_decide (c = "/"%byte).
Arguments IsPathSeparator : simpl never.

(** [filepath.VolumeName] on Unix: [volumeNameLen] is always 0. *)
Definition VolumeName (path : gostring) : gostring := take 0 path.

(** [filepath.Base]. *)
Definition Base (path : gostring) : GoM gostring :=
  if bool_decide (path = []) then Ret (gostr ".") else
  (* for len(path) > 0 && os.IsPathSeparator(path[len(path)-1]) *)
  path <- loop (S (length path))
            (fun path => bool_decide (0 < len path)%Z &&&
                           (c <- index path (len path - 1)%Z ;; Ret (IsPathSeparator c)))
            (fun path => slice path 0 (len path - 1)%Z) path ;;
  path <- slice path (len (VolumeName path)) (len path) ;;
  (* i := len(path) - 1; for i >= 0 && !os.IsPathSeparator(path[i]) { i-- } *)
  i <- loop (S (length path))
         (fun i => bool_decide (0 <= i)%Z &&&
                     (c <- index path i ;; Ret (negb (IsPathSeparator c))))
         (fun i => Ret (i - 1)%Z) (len path - 1)%Z ;;
  path <- (if bool_decide (0 <= i)%Z then slice path (i + 1)%Z (len path) else Ret path) ;;
  if bool_decide (path = []) then Ret ["/"%byte] else Ret path.

(** ** The specification *)

(** The segments of a path between separators, empty ones included:
    ["a//b/"] has the segments ["a"], [""], ["b"], [""]. *)
Fixpoint segments (p : gostring) : list gostring :=
  match p with
  | [] => [[]]
  | c :: t =>
      if IsPathSeparator c then [] :: segments t
      else match segments t with
           | s :: ss => (c :: s) :: ss
           | [] => [[c]]
           end
  end.

(** The base name: ["."] for the empty path, otherwise the last non-empty
    segment, or ["/"] when there is none. *)
Definition base_ref (p : gostring) : gostring :=
  if bool_decide (p = []) then gostr "." else
  match last (filter (fun s : gostring => s <> []) (segments p)) with
  | Some s => s
  | None => ["/"%byte]
  end.

(** Strings with no separator, and strings of separators only. *)
Definition sepfree (s : gostring) : Prop := Forall (fun c => IsPathSeparator c = false) s.
Definition allsep (s : gostring) : Prop := Forall (fun c => IsPathSeparator c = true) s.

(** ** Lemmas on segments *)

Lemma segments_not_nil p : segments p <> [].
Proof.
  induction p as [|c t IH]; simpl; [done |].
  destruct (IsPathSeparator c); [done |]. by destruct (segments t).
Qed.

Lemma segments_app_sep x c y :
  IsPathSeparator c = true -> segments (x ++ c :: y) = segments x ++ segments y.
Proof.
  intros Hc. induction x as [|d x IH]; simpl; [by rewrite Hc |].
  rewrite IH. destruct (IsPathSeparator d); [done |].
  destruct (segments x) as [|s ss] eqn:E; [by destruct (segments_not_nil x) |]. done.
Qed.

Lemma segments_sepfree x : sepfree x -> segments x = [x].
Proof.
  induction 1 as [|c x Hc _ IH]; simpl; [done |]. by rewrite Hc, IH.
Qed.

Lemma filter_segments_allsep y :
  allsep y -> filter (fun s : gostring => s <> []) (segments y) = [].
Proof.
  induction 1 as [|c y Hc _ IH]; simpl; [done |]. rewrite Hc.
  rewrite filter_cons_False; [exact IH | naive_solver].
Qed.

(** Trailing separators do not change the non-empty segments. *)
Lemma filter_segments_trailing r seps :
  allsep seps ->
  filter (fun s : gostring => s <> []) (segments (r ++ seps)) =
  filter (fun s : gostring => s <> []) (segments r).
Proof.
  intros Hs. destruct Hs as [|c seps Hc Hs].
  - by rewrite app_nil_r.
  - rewrite segments_app_sep by done. rewrite filter_app, (filter_segments_allsep seps Hs).
    by rewrite app_nil_r.
Qed.

(** A non-empty separator-free tail is the last non-empty segment. *)
Lemma last_filter_segments_tail a c b :
  IsPathSeparator c = true -> sepfree b -> b <> [] ->
  last (filter (fun s : gostring => s <> []) (segments (a ++ c :: b))) = Some b.
Proof.
  intros Hc Hb Hne. rewrite segments_app_sep, (segments_sepfree b) by done.
  rewrite filter_app, filter_cons_True, filter_nil; [apply last_snoc | exact Hne].
Qed.

(** ** The two loops of [Base] *)

(** The condition and body of the loop that strips trailing separators. *)
Local Abbreviation strip_cond := (fun path : gostring => bool_decide (0 < len path)%Z &&&
                           (c <- index path (len path - 1)%Z ;; Ret (IsPathSeparator c))).
Local Abbreviation strip_body := (fun path : gostring => slice path 0 (len path - 1)%Z).

(** The condition of the loop that searches for the last separator. *)
Local Abbreviation scan_cond path := (fun i : Z => bool_decide (0 <= i)%Z &&&
                     (c <- index path i ;; Ret (negb (IsPathSeparator c)))).

(** The stripped path [r] is a prefix of [p] followed by separators only,
    and does not end in a separator. *)
Definition stripped (p r : gostring) : Prop :=
  exists seps, p = r ++ seps /\ allsep seps.

Lemma strip_cond_snoc s c : strip_cond (s ++ [c]) = Ret (IsPathSeparator c).
Proof.
  cbv beta. rewrite bool_decide_true by (rewrite len_app; unfold len; simpl; lia).
  simpl. rewrite index_last. done.
Qed.

Lemma strip_loop_spec p n :
  length p < n ->
  exists r, loop n strip_cond strip_body p = Ret r /\ stripped p r /\
            (r = [] \/ exists r' c, r = r' ++ [c] /\ IsPathSeparator c = false).
Proof.
  intros Hn.
  destruct (loop_rule (stripped p) length strip_cond strip_body) with (n := n) (s := p)
    as (r & Hr & Hinv & Hc); [| by exists []; split; [rewrite app_nil_r | constructor] | done |].
  - intros s [seps [-> Hseps]].
    destruct s as [|c s _] using rev_ind; [by left |].
    rewrite strip_cond_snoc. destruct (IsPathSeparator c) eqn:Hsep; [right | by left].
    split; [done |]. exists s. rewrite slice_drop_last, length_app. simpl.
    split; [done |]. split; [| lia].
    exists (c :: seps). rewrite <- app_assoc. split; [done | by constructor].
  - exists r. split; [done |]. split; [done |].
    destruct r as [|c r _] using rev_ind; [by left | right].
    rewrite strip_cond_snoc in Hc. exists r, c. split; [done | congruence].
Qed.

(** After the scan, [path = a ++ b] where [b] has no separator and [a] is
    empty or ends in a separator; [i = len(a) - 1]. *)
Definition scanned (path : gostring) (i : Z) : Prop :=
  exists a b, path = a ++ b /\ len a = (i + 1)%Z /\ sepfree b.

Lemma scan_loop_spec path n :
  length path < n ->
  exists i, loop n (scan_cond path) (fun i => Ret (i - 1)%Z) (len path - 1)%Z = Ret i /\
    scanned path i /\ scan_cond path i = Ret false.
Proof.
  intros Hn.
  apply (loop_rule (scanned path) (fun i => Z.to_nat (i + 1))); cycle 1.
  - exists path, []. rewrite app_nil_r. split; [done |]. split; [lia | constructor].
  - unfold len. lia.
  - intros i (a & b & -> & Ha & Hb).
    destruct a as [|c a _] using rev_ind.
    { left. cbv beta. rewrite bool_decide_false by (unfold len in Ha; simpl in Ha; lia). done. }
    rewrite len_app in Ha. unfold len in Ha at 2. simpl in Ha.
    assert (i = len a) as -> by lia.
    cbv beta. rewrite bool_decide_true by apply len_nonneg.
    rewrite <- app_assoc. simpl. rewrite index_middle. simpl.
    destruct (IsPathSeparator c) eqn:Hsep; [by left | right].
    split; [done |]. eexists. split; [done |]. split; [| unfold len; lia].
    exists a, (c :: b). split; [done |]. split; [lia | by constructor].
Qed.

(** ** Refinement *)

(** [Base] returns what [base_ref] specifies: it never panics, its loops
    never run out of fuel, and the result is the last non-empty segment. *)
Lemma Base_refines_stripped p r :
  p <> [] -> stripped p r ->
  (r = [] \/ exists r' c, r = r' ++ [c] /\ IsPathSeparator c = false) ->
  (i <- loop (S (length r)) (scan_cond r) (fun i => Ret (i - 1)%Z) (len r - 1)%Z ;;
   path <- (if bool_decide (0 <= i)%Z then slice r (i + 1)%Z (len r) else Ret r) ;;
   if bool_decide (path = []) then Ret ["/"%byte] else Ret path) = Ret (base_ref p).
Proof.
  intros Hp [seps [-> Hseps]] Hend.
  unfold base_ref. rewrite bool_decide_false by done.
  rewrite filter_segments_trailing by done.
  destruct (scan_loop_spec r (S (length r))) as (i & -> & (a & b & -> & Ha & Hb) & Hc); [lia |].
  simpl go_bind. destruct a as [|c a _] using rev_ind.
  - rewrite app_nil_l in *. unfold len in Ha. simpl in Ha.
    rewrite bool_decide_false by lia. cbn [go_bind].
    destruct b as [|d b]; [done |].
    rewrite bool_decide_false by done. rewrite (segments_sepfree (d :: b) Hb).
    rewrite filter_cons_True by done. done.
  - rewrite len_app in Ha. unfold len in Ha at 2. simpl in Ha.
    rewrite bool_decide_true by (pose proof (len_nonneg a); lia).
    replace (i + 1)%Z with (len (a ++ [c])) by (rewrite len_app; unfold len at 2; simpl; lia).
    rewrite slice_suffix. simpl go_bind.
    assert (i = len a) as -> by lia.
    revert Hc. cbv beta. rewrite bool_decide_true by apply len_nonneg.
    rewrite <- app_assoc. simpl. rewrite index_middle. simpl.
    destruct (IsPathSeparator c) eqn:Hsep; [intros _ | done].
    destruct b as [|d b].
    + exfalso. rewrite app_nil_r in Hend.
      destruct Hend as [Hnil | (r' & c' & Heq & Hc')]; [by destruct a |].
      apply app_inj_tail in Heq as [_ ->]. congruence.
    + rewrite bool_decide_false by done. by rewrite last_filter_segments_tail.
Qed.

Lemma Base_refines_gen p : Base p = Ret (base_ref p).
Proof.
  unfold Base. destruct (decide (p = [])) as [->|Hp]; [done |].
  rewrite bool_decide_false by done.
  destruct (strip_loop_spec p (S (length p))) as (r & -> & Hr & Hend); [lia |].
  simpl go_bind. unfold VolumeName. rewrite take_0. unfold len at 1. simpl Z.of_nat.
  rewrite slice_full. simpl go_bind.
  by apply Base_refines_stripped.
Qed.

(** ** Laws of the specification *)

Lemma segments_all_sepfree p : Forall sepfree (segments p).
Proof.
  unfold sepfree. induction p as [|c t IH]; simpl; [by repeat constructor |].
  destruct (IsPathSeparator c) eqn:Hc; [by constructor |].
  destruct (segments t) as [|s ss] eqn:E; [exfalso; by apply (segments_not_nil t) |].
  apply Forall_cons in IH as [Hs Hss]. constructor; [by constructor | done].
Qed.

(** A path is one separator-free segment, or a first segment, a
    separator and the path of the other segments. *)
Lemma segments_first p :
  (sepfree p /\ segments p = [p]) \/
  exists s c rest, p = s ++ c :: rest /\ IsPathSeparator c = true /\ sepfree s /\
                   segments p = s :: segments rest.
Proof.
  induction p as [|c t IH]; [left; by split; [constructor |] |].
  destruct (IsPathSeparator c) eqn:Hc.
  { right. exists [], c, t. simpl. rewrite Hc. split_and!; try done. constructor. }
  destruct IH as [[Ht Hseg] | (s & c' & rest & -> & Hc' & Hs & Hseg)].
  - left. split; [by constructor |]. simpl. by rewrite Hc, Hseg.
  - right. exists (c :: s), c', rest. simpl. rewrite Hc, Hseg.
    split_and!; [done | done | by constructor | done].
Qed.

(** The base name is ["."], ["/"] or one of the segments of the path. *)
Lemma base_ref_cases p :
  base_ref p = ["."%byte] \/ base_ref p = ["/"%byte] \/ base_ref p ∈ segments p.
Proof.
  unfold base_ref. case_bool_decide; [left; reflexivity |]. right.
  destruct (last _) as [r|] eqn:Hl; [right | by left].
  by apply last_Some_elem_of, list_elem_of_filter in Hl as [_ Hin].
Qed.

(** No segment is longer than the path. *)
Lemma segments_length p : Forall (fun s => length s <= length p) (segments p).
Proof.
  induction p as [p IH] using (induction_ltof1 _ (@length _)); unfold ltof in IH.
  destruct (segments_first p) as [[_ ->] | (s & c & rest & -> & _ & _ & ->)];
    [by repeat constructor |].
  rewrite length_app in IH |- *. simpl in IH |- *. constructor; [lia |].
  eapply Forall_impl; [apply IH; lia |]. simpl. lia.
Qed.

(** The base name is never empty, and it is ["/"] or has no separator. *)
Lemma base_ref_shape p :
  base_ref p <> [] /\ (base_ref p = ["/"%byte] \/ sepfree (base_ref p)).
Proof.
  unfold base_ref. case_bool_decide; [split; [done | right; repeat constructor] |].
  destruct (last _) as [r|] eqn:Hl; [| by split; [| left]].
  apply last_Some_elem_of, list_elem_of_filter in Hl as [Hne Hin].
  split; [done | right].
  pose proof (segments_all_sepfree p) as Hall. rewrite Forall_forall in Hall.
  by apply Hall.
Qed.

Lemma base_ref_trailing p : p <> [] -> base_ref (p ++ ["/"%byte]) = base_ref p.
Proof.
  intros Hp. unfold base_ref.
  rewrite !bool_decide_false by (done || by destruct p).
  rewrite filter_segments_trailing; [done | by repeat constructor].
Qed.

Lemma base_ref_last_element dir seg :
  sepfree seg -> seg <> [] -> base_ref (dir ++ "/"%byte :: seg) = seg.
Proof.
  intros Hs Hne. unfold base_ref. rewrite bool_decide_false by (by destruct dir).
  by rewrite last_filter_segments_tail.
Qed.

Lemma base_ref_sepfree r : sepfree r -> r <> [] -> base_ref r = r.
Proof.
  intros Hs Hne. unfold base_ref. rewrite bool_decide_false by done.
  rewrite segments_sepfree by done. rewrite filter_cons_True by done. done.
Qed.

Lemma base_ref_idem p : base_ref (base_ref p) = base_ref p.
Proof.
  destruct (base_ref_shape p) as [Hne [-> | Hs]]; [reflexivity |].
  by apply base_ref_sepfree.
Qed.

(** The base name is not empty, and no longer than the path unless the
    path is empty (then it is ["."]). *)
Lemma base_ref_length p : 1 <= length (base_ref p) <= Nat.max 1 (length p).
Proof.
  destruct (base_ref_shape p) as [Hne _].
  split; [destruct (base_ref p); [done | simpl; lia] |].
  destruct (base_ref_cases p) as [-> | [-> | Hin]]; [simpl; lia.. |].
  pose proof (segments_length p) as Hall. rewrite Forall_forall in Hall.
  specialize (Hall _ Hin). lia.
Qed.

End Filepath.
