(* ===== verification/Utf8.v ===== *)
(** * Utf8: UTF-8 text, and Go's [unicode/utf8] decoder and encoder

    [valid_utf8] is the well-formedness of a byte string as UTF-8, in the
    byte ranges of Table 3-7 of the Unicode Standard; it is the property
    API Gateway needs of a response body that is not base64-encoded.
    [DecodeRune] and [EncodeRune] follow Go's [utf8.DecodeRune] (its
    [first] table and [acceptRanges]) and [utf8.EncodeRune], with the
    rune computed by the same masks and shifts as the Go code.

    The lemmas show that validity is kept by concatenation and by
    splitting at an ASCII byte, hence by the segments of a path and by
    [base_ref]; and that on a valid multi-byte sequence [DecodeRune]
    returns its length and [EncodeRune] gives its bytes back. *)

From S2P Require Import Prelude Filepath.
Import Filepath.

Module Utf8.

(** ** Well-formed UTF-8 *)

Definition in_range (lo hi : Z) (b : byte) : bool := bool_decide (lo <= byteZ b <= hi)%Z.
Arguments in_range : simpl never.

(** A continuation byte [10xxxxxx]. *)
Definition cont (b : byte) : bool := in_range 0x80 0xBF b.

(** Table 3-7: one to four bytes per code point, no overlong forms, no
    surrogates, nothing above U+10FFFF. *)
Fixpoint valid_utf8 (s : gostring) : bool :=
  match s with
  | [] => true
  | b :: t =>
      if in_range 0x00 0x7F b then valid_utf8 t
      else if in_range 0xC2 0xDF b then
        match t with c1 :: t' => cont c1 && valid_utf8 t' | [] => false end
      else if in_range 0xE0 0xEF b then
        match t with
        | c1 :: c2 :: t' =>
            in_range (if bool_decide (byteZ b = 0xE0)%Z then 0xA0 else 0x80)
                     (if bool_decide (byteZ b = 0xED)%Z then 0x9F else 0xBF) c1 &&
            cont c2 && valid_utf8 t'
        | _ => false
        end
      else if in_range 0xF0 0xF4 b then
        match t with
        | c1 :: c2 :: c3 :: t' =>
            in_range (if bool_decide (byteZ b = 0xF0)%Z then 0x90 else 0x80)
                     (if bool_decide (byteZ b = 0xF4)%Z then 0x8F else 0xBF) c1 &&
            cont c2 && cont c3 && valid_utf8 t'
        | _ => false
        end
      else false
  end.

(** ** Go's [unicode/utf8] *)

Definition RuneError : Z := 0xFFFD.
Definition RuneSelf : Z := 0x80.
Definition UTFMax : Z := 4.
Definition maskx : Z := 0x3F.
Definition mask2 : Z := 0x1F.
Definition mask3 : Z := 0x0F.
Definition mask4 : Z := 0x07.

(** An entry of Go's [first] table: ASCII ([as]), invalid ([xx]), or the
    size of the sequence with the accepted range of its second byte. *)
Inductive first_info := as_ASCII | xx_invalid | lead (sz : nat) (lo hi : Z).

Definition first (b : byte) : first_info :=
  let x := byteZ b in
  if bool_decide (x < 0x80)%Z then as_ASCII
  else if bool_decide (x < 0xC2)%Z then xx_invalid
  else if bool_decide (x <= 0xDF)%Z then lead 2 0x80 0xBF
  else if bool_decide (x = 0xE0)%Z then lead 3 0xA0 0xBF
  else if bool_decide (x = 0xED)%Z then lead 3 0x80 0x9F
  else if bool_decide (x <= 0xEF)%Z then lead 3 0x80 0xBF
  else if bool_decide (x = 0xF0)%Z then lead 4 0x90 0xBF
  else if bool_decide (x = 0xF4)%Z then lead 4 0x80 0x8F
  else if bool_decide (x <= 0xF3)%Z then lead 4 0x80 0xBF
  else xx_invalid.

(** [utf8.DecodeRune]: the first rune of [p] and its width in bytes;
    [(RuneError, 1)] for an invalid sequence, [(RuneError, 0)] for the
    empty input.  The branches after the length test are the indexes
    [p[1]], [p[2]], [p[3]] of the Go code, always in range there. *)
Definition DecodeRune (p : gostring) : Z * nat :=
  match p with
  | [] => (RuneError, 0)
  | p0 :: p1 =>
      match first p0 with
      | as_ASCII => (byteZ p0, 1)
      | xx_invalid => (RuneError, 1)
      | lead sz lo hi =>
          if bool_decide (length p < sz) then (RuneError, 1) else
          match p1 with
          | b1 :: p2 =>
              if negb (in_range lo hi b1) then (RuneError, 1)
              else if bool_decide (sz <= 2) then
                (Z.lor (Z.shiftl (Z.land (byteZ p0) mask2) 6) (Z.land (byteZ b1) maskx), 2)
              else match p2 with
                | b2 :: p3 =>
                    if negb (cont b2) then (RuneError, 1)
                    else if bool_decide (sz <= 3) then
                      (Z.lor (Z.lor (Z.shiftl (Z.land (byteZ p0) mask3) 12)
                                    (Z.shiftl (Z.land (byteZ b1) maskx) 6))
                             (Z.land (byteZ b2) maskx), 3)
                    else match p3 with
                      | b3 :: _ =>
                          if negb (cont b3) then (RuneError, 1)
                          else (Z.lor (Z.lor (Z.lor (Z.shiftl (Z.land (byteZ p0) mask4) 18)
                                                     (Z.shiftl (Z.land (byteZ b1) maskx) 12))
                                             (Z.shiftl (Z.land (byteZ b2) maskx) 6))
                                      (Z.land (byteZ b3) maskx), 4)
                      | [] => (RuneError, 1)
                      end
                | [] => (RuneError, 1)
                end
          | [] => (RuneError, 1)
          end
      end
  end%nat.

(** [utf8.EncodeRune]: the bytes of a rune; runes out of range and
    surrogates are written as [RuneError]. *)
Definition EncodeRune (r : Z) : gostring :=
  let r := if bool_decide (r < 0 \/ 0x10FFFF < r \/ 0xD800 <= r <= 0xDFFF)%Z
           then RuneError else r in
  if bool_decide (r <= 0x7F)%Z then [byte_of_Z r]
  else if bool_decide (r <= 0x7FF)%Z then
    [byte_of_Z (Z.lor 0xC0 (Z.shiftr r 6)); byte_of_Z (Z.lor 0x80 (Z.land r maskx))]
  else if bool_decide (r <= 0xFFFF)%Z then
    [byte_of_Z (Z.lor 0xE0 (Z.shiftr r 12));
     byte_of_Z (Z.lor 0x80 (Z.land (Z.shiftr r 6) maskx));
     byte_of_Z (Z.lor 0x80 (Z.land r maskx))]
  else
    [byte_of_Z (Z.lor 0xF0 (Z.shiftr r 18));
     byte_of_Z (Z.lor 0x80 (Z.land (Z.shiftr r 12) maskx));
     byte_of_Z (Z.lor 0x80 (Z.land (Z.shiftr r 6) maskx));
     byte_of_Z (Z.lor 0x80 (Z.land r maskx))].

(** ** Validity lemmas *)

Definition ascii (b : byte) : Prop := (byteZ b < 0x80)%Z.

(** Case analysis on the range tests of a byte. *)
Ltac range_cases :=
  repeat match goal with
  | b : byte |- _ => lazymatch goal with
                     | _ : (0 <= byteZ b < 256)%Z |- _ => fail
                     | _ => pose proof (byteZ_range b)
                     end
  end;
  unfold cont, in_range, ascii in *;
  repeat (case_bool_decide || match goal with
                              | H : context [bool_decide ?P] |- _ =>
                                  destruct (bool_decide_reflect P)
                              end);
  simpl in *; try done; try lia.

(** An ASCII byte where the code expects a continuation byte. *)
Ltac contra_cont :=
  repeat case_match; simplify_eq;
  repeat match goal with H : _ && _ = true |- _ => apply andb_true_iff in H as [? ?] end;
  range_cases.

Lemma valid_app s1 s2 : valid_utf8 s1 = true -> valid_utf8 s2 = true -> valid_utf8 (s1 ++ s2) = true.
Proof.
  intros H1 H2. induction s1 as [s1 IH] using (induction_ltof1 _ (@length _)); unfold ltof in IH.
  destruct s1 as [|b t]; [done |]. simpl in H1 |- *.
  destruct (in_range 0 0x7F b); [apply IH; simpl; [lia | done] |].
  destruct (in_range 0xC2 0xDF b).
  { destruct t as [|c1 t']; [done |]. simpl. apply andb_true_iff in H1 as [-> H1].
    apply IH; simpl; [lia | done]. }
  destruct (in_range 0xE0 0xEF b).
  { destruct t as [|c1 [|c2 t']]; try done. simpl. apply andb_true_iff in H1 as [H1 H3].
    rewrite H1. apply IH; simpl; [lia | done]. }
  destruct (in_range 0xF0 0xF4 b); [| done].
  destruct t as [|c1 [|c2 [|c3 t']]]; try done. simpl. apply andb_true_iff in H1 as [H1 H3].
  rewrite H1. apply IH; simpl; [lia | done].
Qed.

(** An ASCII byte never occurs inside a multi-byte sequence, so a valid
    string splits at it into two valid strings. *)
Lemma valid_split_ascii x c y :
  ascii c -> valid_utf8 (x ++ c :: y) = true -> valid_utf8 x = true /\ valid_utf8 y = true.
Proof.
  intros Hc. revert y.
  induction x as [x IH] using (induction_ltof1 _ (@length _)); unfold ltof in IH. intros y H.
  destruct x as [|b t].
  { simpl in H. unfold ascii in Hc. unfold in_range in H.
    rewrite bool_decide_true in H by (pose proof (byteZ_range c); lia). done. }
  simpl in H |- *.
  destruct (in_range 0 0x7F b); [apply (IH t); simpl; [lia | done] |].
  destruct (in_range 0xC2 0xDF b).
  { destruct t as [|c1 t']; simpl in H; [contra_cont |].
    apply andb_true_iff in H as [-> H]. apply (IH t'); simpl; [lia | done]. }
  destruct (in_range 0xE0 0xEF b).
  { destruct t as [|c1 [|c2 t']]; simpl in H; [contra_cont.. |].
    apply andb_true_iff in H as [H1 H]. rewrite H1. apply (IH t'); simpl; [lia | done]. }
  destruct (in_range 0xF0 0xF4 b); [| done].
  destruct t as [|c1 [|c2 [|c3 t']]]; simpl in H; [contra_cont.. |].
  apply andb_true_iff in H as [H1 H]. rewrite H1. apply (IH t'); simpl; [lia | done].
Qed.

(** ** Paths and base names *)

Lemma separator_ascii c : IsPathSeparator c = true -> ascii c.
Proof. unfold IsPathSeparator, ascii. case_bool_decide; [subst; done | done]. Qed.

(** Every segment of a valid path is valid. *)
Lemma segments_valid p : valid_utf8 p = true -> Forall (fun s => valid_utf8 s = true) (segments p).
Proof.
  induction p as [p IH] using (induction_ltof1 _ (@length _)); unfold ltof in IH. intros Hp.
  destruct (segments_first p) as [[_ ->] | (s & c & rest & -> & Hc & _ & ->)];
    [by repeat constructor |].
  destruct (valid_split_ascii s c rest) as [Hs Hr]; [by apply separator_ascii | done |].
  constructor; [done |]. apply IH; [rewrite length_app; simpl; lia | done].
Qed.

(** [filepath.Base] of a valid path is valid. *)
Lemma base_ref_valid p : valid_utf8 p = true -> valid_utf8 (base_ref p) = true.
Proof.
  intros Hp. destruct (base_ref_cases p) as [-> | [-> | Hin]]; [reflexivity.. |].
  pose proof (segments_valid p Hp) as Hall. rewrite Forall_forall in Hall. by apply Hall.
Qed.

(** ** [DecodeRune] and [EncodeRune] on valid sequences *)

Lemma land_mask_mod a k m : (0 <= k)%Z -> m = Z.ones k -> Z.land a m = (a mod 2 ^ k)%Z.
Proof. intros ? ->. by apply land_ones_mod. Qed.

(** Go's masks as remainders. *)
Ltac masks :=
  unfold maskx, mask2, mask3, mask4;
  rewrite ?(land_mask_mod _ 6 0x3F), ?(land_mask_mod _ 5 0x1F),
          ?(land_mask_mod _ 4 0x0F), ?(land_mask_mod _ 3 0x07) by (lia || reflexivity).

Lemma shiftl_6_6 a : Z.shiftl a 12 = Z.shiftl (Z.shiftl a 6) 6.
Proof. reflexivity. Qed.

Lemma shiftl_6_12 a : Z.shiftl a 18 = Z.shiftl (Z.shiftl a 6) 12.
Proof. reflexivity. Qed.

Lemma shiftr_6_6 a : Z.shiftr a 12 = Z.shiftr (Z.shiftr a 6) 6.
Proof. reflexivity. Qed.

Lemma shiftr_12_6 a : Z.shiftr a 18 = Z.shiftr (Z.shiftr a 6) 12.
Proof. reflexivity. Qed.

Lemma mod_range a k : (0 <= k)%Z -> (0 <= a mod 2 ^ k < 2 ^ k)%Z.
Proof. intros. apply Z.mod_pos_bound. apply Z.pow_pos_nonneg; lia. Qed.

(** The rune of a two-, three- and four-byte sequence, as Go computes it. *)
Lemma rune2 x y :
  Z.lor (Z.shiftl (Z.land x mask2) 6) (Z.land y maskx) = ((x mod 2 ^ 5) * 2 ^ 6 + y mod 2 ^ 6)%Z.
Proof. masks. apply lor_shiftl_small; [lia | by apply mod_range]. Qed.

Lemma rune3 x y z :
  Z.lor (Z.lor (Z.shiftl (Z.land x mask3) 12) (Z.shiftl (Z.land y maskx) 6)) (Z.land z maskx) =
  (((x mod 2 ^ 4) * 2 ^ 6 + y mod 2 ^ 6) * 2 ^ 6 + z mod 2 ^ 6)%Z.
Proof.
  masks. rewrite shiftl_6_6, <- Z.shiftl_lor, !lor_shiftl_small; try lia; by apply mod_range.
Qed.

Lemma rune4 x y z w :
  Z.lor (Z.lor (Z.lor (Z.shiftl (Z.land x mask4) 18) (Z.shiftl (Z.land y maskx) 12))
               (Z.shiftl (Z.land z maskx) 6)) (Z.land w maskx) =
  ((((x mod 2 ^ 3) * 2 ^ 6 + y mod 2 ^ 6) * 2 ^ 6 + z mod 2 ^ 6) * 2 ^ 6 + w mod 2 ^ 6)%Z.
Proof.
  masks. rewrite shiftl_6_12, <- Z.shiftl_lor, shiftl_6_6, <- Z.shiftl_lor.
  rewrite !lor_shiftl_small; try lia; try by apply mod_range.
  all: pose proof (mod_range x 3); pose proof (mod_range y 6); pose proof (mod_range z 6); lia.
Qed.

Ltac pows := change (2 ^ 3)%Z with 8%Z in *; change (2 ^ 4)%Z with 16%Z in *;
             change (2 ^ 5)%Z with 32%Z in *; change (2 ^ 6)%Z with 64%Z in *.

Ltac zarith := Z.div_mod_to_equations; lia.

(** A scalar value is written back as Go computes its bytes. *)
Ltac enc_solve :=
  intros; unfold EncodeRune; pows;
  rewrite (bool_decide_false (_ \/ _ \/ _)) by zarith; cbv iota;
  repeat (rewrite bool_decide_false by zarith; cbv iota);
  try (rewrite bool_decide_true by zarith; cbv iota);
  rewrite ?shiftr_6_6, ?shiftr_12_6, ?Z.shiftr_div_pow2 by lia; masks; pows;
  rewrite ?(lor_high 0xC0 _ 6), ?(lor_high 0xE0 _ 4), ?(lor_high 0xF0 _ 3),
          ?(lor_high 0x80 _ 6) by (lia || reflexivity || (pows; zarith));
  repeat f_equal; zarith.

Lemma EncodeRune_2 a b :
  (0xC2 <= a <= 0xDF)%Z -> (0x80 <= b <= 0xBF)%Z ->
  EncodeRune ((a mod 2 ^ 5) * 2 ^ 6 + b mod 2 ^ 6) = [byte_of_Z a; byte_of_Z b].
Proof. enc_solve. Qed.

Lemma EncodeRune_3 a b c :
  (0xE0 <= a <= 0xEF)%Z -> (0x80 <= b <= 0xBF)%Z -> (0x80 <= c <= 0xBF)%Z ->
  (a = 0xE0 -> 0xA0 <= b)%Z -> (a = 0xED -> b <= 0x9F)%Z ->
  EncodeRune (((a mod 2 ^ 4) * 2 ^ 6 + b mod 2 ^ 6) * 2 ^ 6 + c mod 2 ^ 6) =
  [byte_of_Z a; byte_of_Z b; byte_of_Z c].
Proof. enc_solve. Qed.

Lemma EncodeRune_4 a b c d :
  (0xF0 <= a <= 0xF4)%Z -> (0x80 <= b <= 0xBF)%Z -> (0x80 <= c <= 0xBF)%Z ->
  (0x80 <= d <= 0xBF)%Z -> (a = 0xF0 -> 0x90 <= b)%Z -> (a = 0xF4 -> b <= 0x8F)%Z ->
  EncodeRune ((((a mod 2 ^ 3) * 2 ^ 6 + b mod 2 ^ 6) * 2 ^ 6 + c mod 2 ^ 6) * 2 ^ 6 + d mod 2 ^ 6) =
  [byte_of_Z a; byte_of_Z b; byte_of_Z c; byte_of_Z d].
Proof. enc_solve. Qed.

Lemma in_range_spec lo hi b : in_range lo hi b = true <-> (lo <= byteZ b <= hi)%Z.
Proof. unfold in_range. apply bool_decide_eq_true. Qed.

Ltac first_solve := intros; unfold first; repeat case_bool_decide; try lia; reflexivity.

Lemma first_lead2 b : (0xC2 <= byteZ b <= 0xDF)%Z -> first b = lead 2 0x80 0xBF.
Proof. first_solve. Qed.

Lemma first_lead3 b :
  (0xE0 <= byteZ b <= 0xEF)%Z ->
  first b = lead 3 (if bool_decide (byteZ b = 0xE0)%Z then 0xA0 else 0x80)
                   (if bool_decide (byteZ b = 0xED)%Z then 0x9F else 0xBF).
Proof. first_solve. Qed.

Lemma first_lead4 b :
  (0xF0 <= byteZ b <= 0xF4)%Z ->
  first b = lead 4 (if bool_decide (byteZ b = 0xF0)%Z then 0x90 else 0x80)
                   (if bool_decide (byteZ b = 0xF4)%Z then 0x8F else 0xBF).
Proof. first_solve. Qed.

(** [DecodeRune] on the first bytes of a valid sequence. *)
Ltac dec_solve :=
  intros Hf **; unfold DecodeRune; rewrite Hf;
  rewrite bool_decide_false by (simpl; lia); cbv iota;
  repeat match goal with Hb : ?f ?x = true |- context [?f ?x] => rewrite Hb end;
  cbn [negb]; repeat (rewrite bool_decide_false by lia; cbv iota);
  try (rewrite bool_decide_true by lia; cbv iota);
  rewrite ?rune2, ?rune3, ?rune4; reflexivity.

Lemma DecodeRune_2 b c1 rest lo hi :
  first b = lead 2 lo hi -> in_range lo hi c1 = true ->
  DecodeRune (b :: c1 :: rest) =
    (((byteZ b mod 2 ^ 5) * 2 ^ 6 + byteZ c1 mod 2 ^ 6)%Z, 2).
Proof. dec_solve. Qed.

Lemma DecodeRune_3 b c1 c2 rest lo hi :
  first b = lead 3 lo hi -> in_range lo hi c1 = true -> cont c2 = true ->
  DecodeRune (b :: c1 :: c2 :: rest) =
    ((((byteZ b mod 2 ^ 4) * 2 ^ 6 + byteZ c1 mod 2 ^ 6) * 2 ^ 6 + byteZ c2 mod 2 ^ 6)%Z, 3).
Proof. dec_solve. Qed.

Lemma DecodeRune_4 b c1 c2 c3 rest lo hi :
  first b = lead 4 lo hi -> in_range lo hi c1 = true -> cont c2 = true -> cont c3 = true ->
  DecodeRune (b :: c1 :: c2 :: c3 :: rest) =
    (((((byteZ b mod 2 ^ 3) * 2 ^ 6 + byteZ c1 mod 2 ^ 6) * 2 ^ 6 + byteZ c2 mod 2 ^ 6) * 2 ^ 6
      + byteZ c3 mod 2 ^ 6)%Z, 4).
Proof. dec_solve. Qed.

(** Range tests as bounds on the byte. *)
Ltac ranges :=
  unfold cont in *;
  repeat match goal with
  | H : in_range _ _ _ = true |- _ => apply in_range_spec in H
  | H : _ && _ = true |- _ => apply andb_true_iff in H as [? ?]
  end.

(** A valid sequence that starts with a non-ASCII byte: Go decodes a rune
    of two to four bytes, encoding it gives those bytes back, and what
    follows is valid. *)
Lemma DecodeRune_valid b t :
  valid_utf8 (b :: t) = true -> ~ ascii b ->
  exists c size, DecodeRune (take 4 (b :: t)) = (c, size) /\ (2 <= size <= 4)%nat /\
    Forall (fun x => ~ ascii x) (take size (b :: t)) /\
    EncodeRune c = take size (b :: t) /\ valid_utf8 (drop size (b :: t)) = true.
Proof.
  intros H Ha. unfold ascii in Ha. pose proof (byteZ_range b). simpl in H.
  destruct (in_range 0 0x7F b) eqn:E; [apply in_range_spec in E; lia |].
  destruct (in_range 0xC2 0xDF b) eqn:E2.
  { destruct t as [|c1 t']; [done |]. change (take 4 (b :: c1 :: t')) with (b :: c1 :: take 2 t').
    apply andb_true_iff in H as [Hc1 Ht]. eexists _, 2.
    split; [apply DecodeRune_2 with (lo := 0x80%Z) (hi := 0xBF%Z); [| exact Hc1] |].
    { apply first_lead2. by apply in_range_spec. }
    split; [lia |]. ranges. split; [cbn [take]; unfold ascii; repeat constructor; lia |].
    split; [| exact Ht]. cbn [take].
    rewrite EncodeRune_2 by lia. by rewrite !byte_of_Z_byteZ. }
  destruct (in_range 0xE0 0xEF b) eqn:E3.
  { destruct t as [|c1 [|c2 t']]; try done.
    change (take 4 (b :: c1 :: c2 :: t')) with (b :: c1 :: c2 :: take 1 t').
    apply andb_true_iff in H as [Hc Ht]. apply andb_true_iff in Hc as [Hc1 Hc2].
    apply in_range_spec in E3 as E3'. eexists _, 3.
    split; [eapply DecodeRune_3; [by apply first_lead3 | exact Hc1 | exact Hc2] |].
    split; [lia |]. ranges. rewrite !firstn_cons, take_0.
    split; [repeat case_bool_decide; unfold ascii; repeat constructor; lia |].
    split; [| exact Ht].
    repeat case_bool_decide; (rewrite EncodeRune_3 by lia; by rewrite !byte_of_Z_byteZ). }
  destruct (in_range 0xF0 0xF4 b) eqn:E4; [| done].
  destruct t as [|c1 [|c2 [|c3 t']]]; try done.
  change (take 4 (b :: c1 :: c2 :: c3 :: t')) with (b :: c1 :: c2 :: c3 :: take 0 t').
  apply andb_true_iff in H as [Hc Ht]. apply andb_true_iff in Hc as [Hc Hc3].
  apply andb_true_iff in Hc as [Hc1 Hc2]. apply in_range_spec in E4 as E4'. eexists _, 4.
  split; [eapply DecodeRune_4; [by apply first_lead4 | exact Hc1 | exact Hc2 | exact Hc3] |].
  split; [lia |]. ranges. rewrite !firstn_cons, take_0.
  split; [repeat case_bool_decide; unfold ascii; repeat constructor; lia |].
  split; [| exact Ht].
  repeat case_bool_decide; (rewrite EncodeRune_4 by lia; by rewrite !byte_of_Z_byteZ).
Qed.

(** [DecodeRune] consumes at least one byte of a non-empty input, and no
    more than it has. *)
Lemma DecodeRune_size p : p <> [] -> (1 <= (DecodeRune p).2 <= length p)%nat.
Proof.
  destruct p as [|p0 p1]; [done |]. intros _. unfold DecodeRune.
  destruct (first p0); cbn [snd length]; try lia.
  repeat (case_bool_decide || case_match); cbn [snd length] in *; lia.
Qed.

Lemma EncodeRune_1 a : (0 <= a <= 0x7F)%Z -> EncodeRune a = [byte_of_Z a].
Proof.
  intros. unfold EncodeRune. rewrite (bool_decide_false (_ \/ _ \/ _)) by lia.
  by rewrite bool_decide_true by lia.
Qed.

(** An ASCII byte is a character of its own. *)
Lemma valid_cons_ascii b t : ascii b -> valid_utf8 (b :: t) = valid_utf8 t.
Proof.
  intros Hb. unfold ascii in Hb. pose proof (byteZ_range b). simpl.
  by rewrite (proj2 (in_range_spec 0 0x7F b)) by lia.
Qed.

(** Every entry of the [first] table for a lead byte accepts second bytes
    from [0x80] on. *)
Lemma first_lead_lo b sz lo hi : first b = lead sz lo hi -> (0x80 <= lo)%Z.
Proof. unfold first. repeat case_bool_decide; intros [=]; lia. Qed.

Lemma first_ascii b : first b = as_ASCII -> (byteZ b < 0x80)%Z.
Proof. unfold first. repeat case_bool_decide; intros [=]; lia. Qed.

(** The bytes [DecodeRune] consumes after a byte of [0x80] or more are
    all of [0x80] or more: a lead byte and continuation bytes. *)
Lemma DecodeRune_take_hi p0 p1 :
  (0x80 <= byteZ p0)%Z ->
  Forall (fun x => 0x80 <= byteZ x)%Z (take (DecodeRune (p0 :: p1)).2 (p0 :: p1)).
Proof.
  intros H0. unfold DecodeRune. destruct (first p0) as [| | sz lo hi] eqn:Hf.
  - apply first_ascii in Hf. lia.
  - by repeat constructor.
  - apply first_lead_lo in Hf.
    repeat (case_bool_decide || case_match); simpl; repeat constructor; try done;
      repeat match goal with
             | H : negb _ = false |- _ => apply negb_false_iff in H
             | H : in_range _ _ _ = true |- _ => apply in_range_spec in H
             | H : cont _ = true |- _ => apply in_range_spec in H
             end; lia.
Qed.

End Utf8.
