(* ===== verification/Json.v ===== *)
(** * Json: how the response body is written into the JSON the runtime posts

    The Lambda runtime marshals the handler's [APIGatewayProxyResponse]
    with Go's [encoding/json]; its [body] field goes through
    [appendString] (encode.go, Go 1.22).  [appendString] is modelled as the
    Go loop it is: the state [(dst, start, i)], the ASCII fast path on
    [safeSet]/[htmlSafeSet], the batching of unescaped bytes between
    [start] and [i], [utf8.DecodeRuneInString] on at most [UTFMax] bytes,
    the replacement of invalid bytes by the escape [\ufffd], and the escapes of
    U+2028 and U+2029; the slices and indexes are Go's, bounds-checked.

    [enc_ref] is a reference encoder, one character at a time, defined by
    well-founded recursion with Equations; [unescape]/[unquote] read a
    JSON string as RFC 8259 defines it. *)

From Equations Require Import Equations.
From S2P Require Import Prelude Utf8.
Import Utf8.

Module Json.

Definition quote : byte := Byte.x22.
Definition backslash : byte := Byte.x5c.

(** [hex = "0123456789abcdef"]. *)
Definition hex : gostring := gostr "0123456789abcdef".

(** [safeSet]: ASCII bytes that need no escape in a JSON string. *)
Definition safeSet (b : byte) : bool :=
  bool_decide (0x20 <= byteZ b < 0x80)%Z && negb (bool_decide (b = quote)) &&
  negb (bool_decide (b = backslash)).

(** [htmlSafeSet]: the same without [<], [>] and [&]. *)
Definition htmlSafeSet (b : byte) : bool :=
  safeSet b && negb (bool_decide (b = "<"%byte \/ b = ">"%byte \/ b = "&"%byte)).

(** The [switch b] of the ASCII slow path. *)
Definition escape_ascii (b : byte) : GoM gostring :=
  if bool_decide (b = backslash \/ b = quote) then Ret [backslash; b]
  else if bool_decide (b = Byte.x08) then Ret [backslash; "b"%byte]
  else if bool_decide (b = Byte.x0c) then Ret [backslash; "f"%byte]
  else if bool_decide (b = Byte.x0a) then Ret [backslash; "n"%byte]
  else if bool_decide (b = Byte.x0d) then Ret [backslash; "r"%byte]
  else if bool_decide (b = Byte.x09) then Ret [backslash; "t"%byte]
  else
    h1 <- index hex (Z.shiftr (byteZ b) 4) ;;
    h2 <- index hex (Z.land (byteZ b) 0xF) ;;
    Ret [backslash; "u"%byte; "0"%byte; "0"%byte; h1; h2].

(** The local variables of [appendString]. *)
Record EncState := { es_dst : gostring; es_start : Z; es_i : Z }.

(** One iteration of [for i := 0; i < len(src);]. *)
Definition appendString_body (src : gostring) (escapeHTML : bool) (st : EncState)
  : GoM EncState :=
  let '{| es_dst := dst; es_start := start; es_i := i |} := st in
  b <- index src i ;;
  if bool_decide (byteZ b < RuneSelf)%Z then
    if htmlSafeSet b || (negb escapeHTML && safeSet b)
    then Ret {| es_dst := dst; es_start := start; es_i := i + 1 |}
    else
      chunk <- slice src start i ;;
      e <- escape_ascii b ;;
      Ret {| es_dst := dst ++ chunk ++ e; es_start := i + 1; es_i := i + 1 |}
  else
    let n := (len src - i)%Z in
    let n := if bool_decide (n > UTFMax)%Z then UTFMax else n in
    w <- slice src i (i + n) ;;
    let '(c, size) := DecodeRune w in
    if bool_decide (c = RuneError) && bool_decide (size = 1%nat) then
      chunk <- slice src start i ;;
      Ret {| es_dst := dst ++ chunk ++ gostr "\ufffd";
             es_start := i + Z.of_nat size; es_i := i + Z.of_nat size |}
    else if bool_decide (c = 0x2028 \/ c = 0x2029)%Z then
      chunk <- slice src start i ;;
      h <- index hex (Z.land c 0xF) ;;
      Ret {| es_dst := dst ++ chunk ++ [backslash; "u"%byte; "2"%byte; "0"%byte; "2"%byte; h];
             es_start := i + Z.of_nat size; es_i := i + Z.of_nat size |}
    else Ret {| es_dst := dst; es_start := start; es_i := i + Z.of_nat size |}.

Definition appendString_cond (src : gostring) (st : EncState) : GoM bool :=
  Ret (bool_decide (es_i st < len src)%Z).

(** [appendString(dst, src, escapeHTML)].  Go's loop is unbounded; the
    model gives it [len(src) + 1] tests, enough since each iteration
    advances [i] (lemma [appendString_enc_ref]). *)
Definition appendString (dst src : gostring) (escapeHTML : bool) : GoM gostring :=
  let dst := dst ++ [quote] in
  st <- loop (S (length src)) (appendString_cond src) (appendString_body src escapeHTML)
             {| es_dst := dst; es_start := 0; es_i := 0 |} ;;
  rest <- slice src (es_start st) (len src) ;;
  Ret (es_dst st ++ rest ++ [quote]).

(** ** A reference encoder, one character at a time *)

(** The hexadecimal digit of [n < 16]. *)
Definition hex_digit (n : Z) : byte := default "0"%byte (hex !! Z.to_nat n).

(** The JSON text of one ASCII byte. *)
Definition enc_ascii (escapeHTML : bool) (b : byte) : gostring :=
  if htmlSafeSet b || (negb escapeHTML && safeSet b) then [b]
  else if bool_decide (b = backslash \/ b = quote) then [backslash; b]
  else if bool_decide (b = Byte.x08) then [backslash; "b"%byte]
  else if bool_decide (b = Byte.x0c) then [backslash; "f"%byte]
  else if bool_decide (b = Byte.x0a) then [backslash; "n"%byte]
  else if bool_decide (b = Byte.x0d) then [backslash; "r"%byte]
  else if bool_decide (b = Byte.x09) then [backslash; "t"%byte]
  else [backslash; "u"%byte; "0"%byte; "0"%byte;
        hex_digit (byteZ b / 16); hex_digit (byteZ b mod 16)].

(** The JSON text of the first character of [s] and the number of bytes
    it takes: an ASCII byte, an invalid byte (U+FFFD), U+2028/U+2029
    (escaped), or another character (copied). *)
Definition enc_char (escapeHTML : bool) (s : gostring) : gostring * nat :=
  match s with
  | [] => ([], 0%nat)
  | b :: _ =>
      if bool_decide (byteZ b < 0x80)%Z then (enc_ascii escapeHTML b, 1%nat)
      else
        let '(c, size) := DecodeRune (take 4 s) in
        if bool_decide (c = RuneError /\ size = 1%nat) then (gostr "\ufffd", 1%nat)
        else if bool_decide (c = 0x2028 \/ c = 0x2029)%Z
        then ([backslash; "u"%byte; "2"%byte; "0"%byte; "2"%byte; hex_digit (c mod 16)], size)
        else (take size s, size)
  end.

(** [enc_ref] drops at least one byte per step, whatever [enc_char]
    answers, so it recurses on the length of the text. *)
Equations? enc_ref (escapeHTML : bool) (s : gostring) : gostring by wf (length s) lt :=
  enc_ref h [] := [];
  enc_ref h (b :: t) :=
    (enc_char h (b :: t)).1 ++ enc_ref h (drop (Nat.max 1 (enc_char h (b :: t)).2) (b :: t)).
Proof. rewrite length_drop. simpl. lia. Qed.

(** ** Reading a JSON string back (RFC 8259, section 7) *)

Definition hex_val (b : byte) : option Z :=
  let x := byteZ b in
  if bool_decide (0x30 <= x <= 0x39)%Z then Some (x - 0x30)%Z
  else if bool_decide (0x61 <= x <= 0x66)%Z then Some (x - 0x57)%Z
  else if bool_decide (0x41 <= x <= 0x46)%Z then Some (x - 0x37)%Z
  else None.

(** The characters of a JSON string body.  A [\u] escape of a surrogate
    is refused: surrogate pairs never occur in what [appendString]
    writes, and are not modelled. *)
Fixpoint unescape (s : gostring) : option gostring :=
  match s with
  | [] => Some []
  | b :: t =>
      if bool_decide (b = backslash) then
        match t with
        | [] => None
        | e :: t' =>
            if bool_decide (e = quote \/ e = backslash \/ e = "/"%byte) then cons e <$> unescape t'
            else if bool_decide (e = "b"%byte) then cons Byte.x08 <$> unescape t'
            else if bool_decide (e = "f"%byte) then cons Byte.x0c <$> unescape t'
            else if bool_decide (e = "n"%byte) then cons Byte.x0a <$> unescape t'
            else if bool_decide (e = "r"%byte) then cons Byte.x0d <$> unescape t'
            else if bool_decide (e = "t"%byte) then cons Byte.x09 <$> unescape t'
            else if bool_decide (e = "u"%byte) then
              match t' with
              | h1 :: h2 :: h3 :: h4 :: t'' =>
                  match hex_val h1, hex_val h2, hex_val h3, hex_val h4 with
                  | Some v1, Some v2, Some v3, Some v4 =>
                      let r := (((v1 * 16 + v2) * 16 + v3) * 16 + v4)%Z in
                      if bool_decide (0xD800 <= r <= 0xDFFF)%Z then None
                      else app (EncodeRune r) <$> unescape t''
                  | _, _, _, _ => None
                  end
              | _ => None
              end
            else None
        end
      else if bool_decide (b = quote \/ byteZ b < 0x20)%Z then None
      else cons b <$> unescape t
  end.

(** A JSON string: a quote, its characters, a quote. *)
Definition unquote (q : gostring) : option gostring :=
  match q with
  | b :: rest =>
      if bool_decide (b = quote /\ last rest = Some quote) then unescape (removelast rest)
      else None
  | [] => None
  end.

(** ** The loop of [appendString] computes the reference *)

Lemma enc_char_size h s : s <> [] -> (1 <= (enc_char h s).2 <= length s)%nat.
Proof.
  destruct s as [|b t]; [done |]. intros _. unfold enc_char.
  case_bool_decide; [simpl; lia |].
  pose proof (DecodeRune_size (take 4 (b :: t)) ltac:(done)) as Hs.
  rewrite length_take in Hs.
  destruct (DecodeRune (take 4 (b :: t))) as [c size]. cbn [snd] in Hs.
  repeat case_bool_decide; cbn [snd]; lia.
Qed.

Lemma enc_ref_step h s :
  s <> [] -> enc_ref h s = (enc_char h s).1 ++ enc_ref h (drop (enc_char h s).2 s).
Proof.
  intros Hs. destruct s as [|b t]; [done |]. rewrite enc_ref_equation_2.
  pose proof (enc_char_size h (b :: t) Hs). by replace (Nat.max 1 _) with (enc_char h (b :: t)).2 by lia.
Qed.

Lemma index_hex n : (0 <= n < 16)%Z -> index hex n = Ret (hex_digit n).
Proof.
  intros Hn. unfold index, hex_digit. rewrite decide_True by (vm_compute len; lia).
  destruct (hex !! Z.to_nat n) eqn:E; [done |].
  apply lookup_ge_None in E. vm_compute length in E. lia.
Qed.

Lemma land_15 x : Z.land x 0xF = (x mod 16)%Z.
Proof. change 0xF%Z with (Z.ones 4). by rewrite land_ones_mod. Qed.

(** The slow path of an ASCII byte writes [enc_ascii]. *)
Lemma escape_ascii_enc h b :
  (byteZ b < 0x80)%Z -> (htmlSafeSet b || (negb h && safeSet b)) = false ->
  escape_ascii b = Ret (enc_ascii h b).
Proof.
  intros Hb Hs. pose proof (byteZ_range b). unfold escape_ascii, enc_ascii. rewrite Hs.
  repeat (case_bool_decide; [done |]).
  rewrite Z.shiftr_div_pow2, land_15 by lia. change (2 ^ 4)%Z with 16%Z.
  rewrite !index_hex by (Z.div_mod_to_equations; lia). done.
Qed.

Ltac measure := unfold len in *; lia.

Section Loop.
Context (src : gostring) (h : bool) (dst0 : gostring).

(** What the loop has written, the chunk [src[start:i]] not yet copied,
    and the reference encoding of [src[i:]] make up the whole output. *)
Definition enc_inv (st : EncState) : Prop :=
  exists start i : nat,
    es_start st = Z.of_nat start /\ es_i st = Z.of_nat i /\ (start <= i <= length src)%nat /\
    es_dst st ++ take (i - start) (drop start src) ++ enc_ref h (drop i src) =
    dst0 ++ [quote] ++ enc_ref h src.

(** A character copied as it is extends the chunk. *)
Lemma enc_inv_copy dst (start i k : nat) :
  (start <= i)%nat -> (i + k <= length src)%nat -> (enc_char h (drop i src)).2 = k ->
  (enc_char h (drop i src)).1 = take k (drop i src) -> drop i src <> [] ->
  dst ++ take (i - start) (drop start src) ++ enc_ref h (drop i src) =
    dst0 ++ [quote] ++ enc_ref h src ->
  enc_inv {| es_dst := dst; es_start := Z.of_nat start; es_i := Z.of_nat i + Z.of_nat k |}.
Proof.
  intros Hsi Hk Hsz Hpc Hne Heq. exists start, (i + k)%nat. split_and!; [simpl; lia.. |].
  rewrite <- Heq, (enc_ref_step h (drop i src) Hne), Hsz, Hpc, drop_drop.
  by rewrite take_drop_grow, <- !app_assoc by lia.
Qed.

(** An escaped character flushes the chunk and its escape. *)
Lemma enc_inv_flush dst (start i k : nat) :
  (start <= i)%nat -> (i + k <= length src)%nat -> (enc_char h (drop i src)).2 = k ->
  drop i src <> [] ->
  dst ++ take (i - start) (drop start src) ++ enc_ref h (drop i src) =
    dst0 ++ [quote] ++ enc_ref h src ->
  enc_inv {| es_dst := dst ++ take (i - start) (drop start src) ++ (enc_char h (drop i src)).1;
             es_start := Z.of_nat i + Z.of_nat k; es_i := Z.of_nat i + Z.of_nat k |}.
Proof.
  intros Hsi Hk Hsz Hne Heq. exists (i + k)%nat, (i + k)%nat. split_and!; [simpl; lia.. |].
  rewrite <- Heq, (enc_ref_step h (drop i src) Hne), Hsz, drop_drop. simpl.
  by rewrite Nat.sub_diag, take_0, <- !app_assoc.
Qed.

(** Go's window [src[i:i+n]], [n = min(len(src)-i, UTFMax)]. *)
Lemma window_take4 (l : list byte) (i : nat) (n : Z) :
  (i <= length l)%nat ->
  n = (if bool_decide (len l - Z.of_nat i > UTFMax)%Z then UTFMax else len l - Z.of_nat i)%Z ->
  slice l (Z.of_nat i) (Z.of_nat i + n) = Ret (take 4 (drop i l)).
Proof.
  intros Hi ->. unfold UTFMax, len in *. case_bool_decide.
  - replace (Z.of_nat i + 4)%Z with (Z.of_nat (i + 4)) by lia.
    rewrite slice_nat by lia. by replace (i + 4 - i)%nat with 4%nat by lia.
  - replace (Z.of_nat i + _)%Z with (Z.of_nat (length l)) by lia.
    rewrite slice_nat by lia. rewrite take_ge; [| rewrite length_drop; lia].
    rewrite take_ge; [done | rewrite length_drop; lia].
Qed.

(** One iteration keeps [enc_inv] and advances [i]. *)
Lemma appendString_body_step st :
  enc_inv st -> (es_i st < len src)%Z ->
  exists st', appendString_body src h st = Ret st' /\ enc_inv st' /\
              (Z.to_nat (len src - es_i st') < Z.to_nat (len src - es_i st))%nat.
Proof.
  intros (start & i & Hs & Hi & Hle & Heq) Hlt. destruct st as [dst ? ?]; cbn in *; subst.
  destruct (drop i src) as [|b t] eqn:Ed.
  { exfalso. apply (f_equal length) in Ed. rewrite length_drop in Ed. simpl in Ed. measure. }
  rewrite <- Ed in Heq. assert (drop i src <> []) as Hne by (by rewrite Ed).
  pose proof (enc_char_size h _ Hne) as Hsz. rewrite length_drop in Hsz.
  unfold appendString_body. rewrite (index_drop src i b t Ed), go_bind_ret.
  pose proof (byteZ_range b). unfold RuneSelf. case_bool_decide as Hb.
  - assert (enc_char h (drop i src) = (enc_ascii h b, 1%nat)) as Hc
      by (rewrite Ed; cbn [enc_char]; by rewrite bool_decide_true).
    destruct (htmlSafeSet b || (negb h && safeSet b)) eqn:Hsafe.
    + eexists; split; [done |]. split; [| cbn; measure].
      apply (enc_inv_copy _ start i 1); [lia | measure | by rewrite Hc | | exact Hne | exact Heq].
      rewrite Hc, Ed. cbn. unfold enc_ascii. by rewrite Hsafe.
    + rewrite slice_nat, go_bind_ret, (escape_ascii_enc h b Hb Hsafe), go_bind_ret by lia.
      eexists; split; [done |]. split; [| cbn; measure].
      pose proof (enc_inv_flush _ start i 1 ltac:(lia) ltac:(measure) ltac:(by rewrite Hc) Hne Heq)
        as Hf. by rewrite Hc in Hf.
  - rewrite window_take4 by (done || lia). rewrite go_bind_ret.
    destruct (DecodeRune (take 4 (drop i src))) as [c size] eqn:Hd.
    assert (enc_char h (drop i src) =
      if bool_decide (c = RuneError /\ size = 1%nat) then (gostr "\ufffd", 1%nat)
      else if bool_decide (c = 0x2028 \/ c = 0x2029)%Z
      then ([backslash; "u"%byte; "2"%byte; "0"%byte; "2"%byte; hex_digit (c mod 16)], size)
      else (take size (drop i src), size)) as Hc.
    { rewrite Ed. cbn [enc_char]. rewrite bool_decide_false by lia. rewrite <- Ed, Hd. done. }
    rewrite Hc in Hsz.
    destruct (decide (c = RuneError /\ size = 1%nat)) as [[-> ->] | Hn].
    + rewrite bool_decide_true in Hc by done. rewrite !bool_decide_true by done. cbn.
      rewrite slice_nat, go_bind_ret by lia. eexists; split; [done |]. split; [| cbn; measure].
      pose proof (enc_inv_flush _ start i 1 ltac:(lia) ltac:(measure) ltac:(by rewrite Hc) Hne Heq)
        as Hf. by rewrite Hc in Hf.
    + rewrite bool_decide_false in Hc, Hsz by done.
      assert (1 <= size <= length src - i)%nat by (revert Hsz; case_bool_decide; cbn; lia).
      assert (bool_decide (c = RuneError) && bool_decide (size = 1%nat) = false) as ->.
      { apply andb_false_iff. destruct (decide (c = RuneError)); [right | left];
          apply bool_decide_false; tauto. }
      cbv iota. case_bool_decide as H2.
      * rewrite slice_nat, go_bind_ret by lia. rewrite land_15, index_hex, go_bind_ret
          by (Z.div_mod_to_equations; lia).
        eexists; split; [done |]. split; [| cbn; measure].
        pose proof (enc_inv_flush _ start i size ltac:(lia) ltac:(measure)
                      ltac:(by rewrite Hc) Hne Heq) as Hf. by rewrite Hc in Hf.
      * eexists; split; [done |]. split; [| cbn; measure].
        apply (enc_inv_copy _ start i size);
          [lia | measure | by rewrite Hc | by rewrite Hc | exact Hne | exact Heq].
Qed.

End Loop.

(** Equivalence with the reference: [appendString], with its batching
    of unescaped bytes between [start] and [i], its bounds-checked slices
    and its unbounded loop, never panics, terminates within its fuel, and
    writes exactly [enc_ref] between quotes after [dst]. *)
Lemma appendString_enc_ref dst src h :
  appendString dst src h = Ret (dst ++ [quote] ++ enc_ref h src ++ [quote]).
Proof.
  unfold appendString.
  destruct (loop_rule (enc_inv src h dst) (fun st => Z.to_nat (len src - es_i st))
              (appendString_cond src) (appendString_body src h))
    with (n := S (length src)) (s := {| es_dst := dst ++ [quote]; es_start := 0; es_i := 0 |})
    as (r & Hl & Hinv & Hc).
  - intros st Hst. unfold appendString_cond. case_bool_decide as Hlt; [right | by left].
    split; [done |]. by apply appendString_body_step.
  - exists 0%nat, 0%nat. split_and!; try done; [lia |]. cbn. by rewrite <- app_assoc.
  - cbn. measure.
  - rewrite Hl, go_bind_ret. destruct Hinv as (start & i & Hs & Hi & Hle & Heq).
    unfold appendString_cond in Hc. injection Hc as Hc. apply bool_decide_eq_false in Hc.
    assert (i = length src) as -> by (rewrite Hi in Hc; measure).
    rewrite Hs. unfold len. rewrite slice_nat, go_bind_ret by lia.
    rewrite drop_all, enc_ref_equation_1, app_nil_r in Heq.
    by rewrite app_assoc, Heq, <- !app_assoc.
Qed.

(** ** Reading back what [appendString] writes *)

(** A byte [unescape] copies as it is. *)
Definition plain (b : byte) : Prop := b <> backslash /\ ~ (b = quote \/ byteZ b < 0x20)%Z.

Lemma unescape_plain x r : Forall plain x -> unescape (x ++ r) = app x <$> unescape r.
Proof.
  induction 1 as [|b x [Hb Hq] _ IH]; simpl; [by destruct (unescape r) |].
  rewrite !bool_decide_false by done. rewrite IH. by destruct (unescape r).
Qed.

Lemma unescape_u h1 h2 h3 h4 v1 v2 v3 v4 r :
  hex_val h1 = Some v1 -> hex_val h2 = Some v2 -> hex_val h3 = Some v3 -> hex_val h4 = Some v4 ->
  ~ (0xD800 <= ((v1 * 16 + v2) * 16 + v3) * 16 + v4 <= 0xDFFF)%Z ->
  unescape (backslash :: "u"%byte :: h1 :: h2 :: h3 :: h4 :: r) =
    app (EncodeRune (((v1 * 16 + v2) * 16 + v3) * 16 + v4)) <$> unescape r.
Proof.
  intros E1 E2 E3 E4 Hs. cbn [unescape]. rewrite E1, E2, E3, E4.
  rewrite (bool_decide_false (0xD800 <= _ <= _)%Z) by done. reflexivity.
Qed.

Lemma hex_val_digit n : (0 <= n < 16)%Z -> hex_val (hex_digit n) = Some n.
Proof.
  intros Hn. rewrite <- (Z2Nat.id n) by lia.
  assert (Z.to_nat n < 16)%nat as Hk by lia. revert Hk. generalize (Z.to_nat n) as k.
  intros k Hk. do 16 (destruct k as [|k]; [reflexivity |]). lia.
Qed.

Lemma safe_plain h b : (htmlSafeSet b || (negb h && safeSet b)) = true -> plain b.
Proof.
  intros H. assert (safeSet b = true) as Hs.
  { unfold htmlSafeSet in H. destruct (safeSet b); [done |]. by destruct h. }
  unfold safeSet in Hs. apply andb_true_iff in Hs as [Hs H3]. apply andb_true_iff in Hs as [H1 H2].
  apply bool_decide_eq_true in H1. apply negb_true_iff, bool_decide_eq_false in H2, H3.
  split; [done |]. intros [? | ?]; [done | lia].
Qed.

Lemma nonascii_plain b : ~ ascii b -> plain b.
Proof.
  unfold ascii, plain. intros Hb.
  split; [intros ->; by apply Hb | intros [-> | ?]; [by apply Hb | lia]].
Qed.

(** The text [enc_ascii] writes for an ASCII byte reads back as it. *)
Lemma enc_ascii_unescape h b r :
  (byteZ b < 0x80)%Z -> unescape (enc_ascii h b ++ r) = cons b <$> unescape r.
Proof.
  intros Hb. pose proof (byteZ_range b). unfold enc_ascii.
  destruct (htmlSafeSet b || (negb h && safeSet b)) eqn:Hs.
  { apply (unescape_plain [b]). constructor; [by apply (safe_plain h) | constructor]. }
  repeat (case_bool_decide;
    [first [subst; reflexivity
           | match goal with H : _ \/ _ |- _ => destruct H as [-> | ->]; reflexivity end] |]).
  cbn [app]. rewrite (unescape_u _ _ _ _ 0 0 (byteZ b / 16) (byteZ b mod 16));
    [| reflexivity | reflexivity | apply hex_val_digit; zarith.. | zarith].
  replace (((0 * 16 + 0) * 16 + byteZ b / 16) * 16 + byteZ b mod 16)%Z with (byteZ b) by zarith.
  by rewrite EncodeRune_1, byte_of_Z_byteZ by lia.
Qed.

(** The text of the first character of a valid string reads back as the
    bytes it encodes, and the rest of the string is valid. *)
Lemma enc_char_unescape h s r :
  valid_utf8 s = true -> s <> [] ->
  unescape ((enc_char h s).1 ++ r) = app (take (enc_char h s).2 s) <$> unescape r /\
  valid_utf8 (drop (enc_char h s).2 s) = true.
Proof.
  destruct s as [|b t]; [done |]. intros Hv _. cbn [enc_char]. case_bool_decide as Hb.
  - cbn [fst snd]. rewrite enc_ascii_unescape by done.
    rewrite valid_cons_ascii in Hv by done. by split.
  - destruct (DecodeRune_valid b t Hv Hb) as (c & size & Hd & Hsz & Hhi & He & Hrest).
    rewrite Hd, bool_decide_false by (intros [_ ?]; lia). case_bool_decide as H2.
    + cbn [fst snd]. split; [| exact Hrest]. rewrite <- He. by destruct H2 as [-> | ->].
    + cbn [fst snd]. split; [| exact Hrest]. apply unescape_plain.
      eapply Forall_impl; [exact Hhi | apply nonascii_plain].
Qed.

Lemma unescape_enc_ref h s : valid_utf8 s = true -> unescape (enc_ref h s) = Some s.
Proof.
  funelim (enc_ref h s); intros Hv; [done |].
  pose proof (enc_char_size h (b :: t) ltac:(done)) as Hsz.
  replace (Nat.max 1 _) with (enc_char h (b :: t)).2 in * by lia.
  destruct (enc_char_unescape h (b :: t) (enc_ref h (drop (enc_char h (b :: t)).2 (b :: t)))
              Hv ltac:(done)) as [-> Hr].
  match goal with IH : valid_utf8 _ = true -> _ |- _ => rewrite (IH Hr) end.
  simpl. by rewrite take_drop.
Qed.

(** A quoted reference encoding reads back as the text. *)
Lemma unquote_enc_ref h s :
  valid_utf8 s = true -> unquote ([quote] ++ enc_ref h s ++ [quote]) = Some s.
Proof.
  intros Hv. cbn [app unquote].
  rewrite bool_decide_true by (split; [done | apply last_snoc]).
  rewrite removelast_last. by apply unescape_enc_ref.
Qed.

(** ** Properties of [appendString] *)

(** Round trip: the JSON string [appendString] writes for a valid UTF-8
    text reads back, as RFC 8259 defines JSON strings, as that text, with
    or without HTML escaping. *)
Theorem appendString_roundtrip src escapeHTML :
  valid_utf8 src = true ->
  exists out, appendString [] src escapeHTML = Ret out /\ unquote out = Some src.
Proof.
  intros Hv. rewrite appendString_enc_ref. eexists; split; [done |].
  by apply unquote_enc_ref.
Qed.

(** ** Concrete runs *)

(** The body the handler answers in [/srv/app]. *)
Definition srv_app_body : gostring := gostr "O diretório corrente é: app".

Example appendString_roundtrip_srv_app :
  valid_utf8 srv_app_body = true /\
  exists out, appendString [] srv_app_body true = Ret out /\ unquote out = Some srv_app_body.
Proof.
  split; [vm_compute; reflexivity |].
  apply appendString_roundtrip. vm_compute. reflexivity.
Qed.

(** An invalid byte is written as the escape of U+FFFD: the JSON text
    no longer carries it, and reads back as the three bytes of U+FFFD. *)
Example appendString_invalid_byte :
  appendString [] [Byte.xff] true = Ret ([quote; backslash] ++ gostr "ufffd" ++ [quote]) /\
  unquote ([quote; backslash] ++ gostr "ufffd" ++ [quote]) = Some [Byte.xef; Byte.xbf; Byte.xbd].
Proof. split; vm_compute; reflexivity. Qed.

End Json.
