(* ===== verification/Scanner.v ===== *)
(** * Scanner: the syntax check of Go's [encoding/json]

    Before it decodes anything, Go reads a JSON text with the state
    machine of [encoding/json/scanner.go] (Go 1.22): a [scanner] holds
    the current state function ([step]), the stack of the objects and
    arrays being read ([parseState], at most [maxNestingDepth] deep), the
    first error, and the number of bytes read.  [json.Unmarshal] runs
    [checkValid] on the whole input; [json.Decoder.Decode] runs
    [readValue] (of [stream.go]), which stops at the end of the first
    value.  The Lambda runtime reads each invocation's payload with one
    of them, so a payload the scanner rejects never reaches the handler.

    The state functions are [stepfn], one constructor per Go function
    [stateXxx]; each Go function is a Rocq function from the scanner and
    the byte to the new scanner and the [scanCode] it returns.  Go keeps
    [parseState] as a slice whose last element is the innermost value;
    here the innermost value is the head of the list. *)

From Equations Require Import Equations.
From S2P Require Import Prelude Utf8 Json.
Import Utf8 Json.

Module Scanner.

(** ** The scanner's data *)

(** The codes a step returns ([scanContinue] and the others). *)
Inductive scanCode :=
| scanContinue | scanBeginLiteral | scanBeginObject | scanObjectKey | scanObjectValue
| scanEndObject | scanBeginArray | scanArrayValue | scanEndArray | scanSkipSpace
| scanEnd | scanError.

#[export] Instance scanCode_eq_dec : EqDecision scanCode.
Proof. solve_decision. Defined.

(** What the scanner is in the middle of, for each enclosing value. *)
Inductive parseKind := parseObjectKey | parseObjectValue | parseArrayValue.

#[export] Instance parseKind_eq_dec : EqDecision parseKind.
Proof. solve_decision. Defined.

(** The state functions of [scanner.go]. *)
Inductive stepfn :=
| stateBeginValueOrEmpty | stateBeginValue | stateBeginStringOrEmpty | stateBeginString
| stateEndValue | stateEndTop | stateInString | stateInStringEsc | stateInStringEscU
| stateInStringEscU1 | stateInStringEscU12 | stateInStringEscU123
| stateNeg | state1 | state0 | stateDot | stateDot0 | stateE | stateESign | stateE0
| stateT | stateTr | stateTru | stateF | stateFa | stateFal | stateFals
| stateN | stateNu | stateNul | stateError.

#[export] Instance stepfn_eq_dec : EqDecision stepfn.
Proof. solve_decision. Defined.

(** [json.SyntaxError]: its message and the offset after which it occurred. *)
Record SyntaxError := { msg : gostring; Offset : Z }.

Record scanner := {
  step : stepfn;
  endTop : bool;
  parseState : list parseKind;
  err : option SyntaxError;
  bytes : Z
}.

Definition maxNestingDepth : Z := 10000.

Definition set_step (f : stepfn) (s : scanner) : scanner :=
  {| step := f; endTop := endTop s; parseState := parseState s; err := err s; bytes := bytes s |}.

Definition set_parse (ps : list parseKind) (s : scanner) : scanner :=
  {| step := step s; endTop := endTop s; parseState := ps; err := err s; bytes := bytes s |}.

(** [s.reset()] of a fresh scanner. *)
Definition reset : scanner :=
  {| step := stateBeginValue; endTop := false; parseState := []; err := None; bytes := 0 |}.

(** ** Bytes *)

Definition isSpace (c : byte) : bool :=
  bool_decide (c = " "%byte \/ c = Byte.x09 \/ c = Byte.x0d \/ c = Byte.x0a).

Definition isDigit (c : byte) : bool := bool_decide (0x30 <= byteZ c <= 0x39)%Z.

Definition isHex (c : byte) : bool :=
  bool_decide (0x30 <= byteZ c <= 0x39 \/ 0x61 <= byteZ c <= 0x66 \/ 0x41 <= byteZ c <= 0x46)%Z.

(** [strconv.IsPrint] on the runes below 256. *)
Definition isPrintLatin1 (r : Z) : bool :=
  bool_decide (0x20 <= r <= 0x7E \/ (0xA1 <= r <= 0xFF /\ r <> 0xAD))%Z.

Definition squote : byte := Byte.x27.

(** The quoted text of [strconv.Quote(string(c))] without its quotes:
    [string(c)] of a byte is the UTF-8 text of the rune [c]. *)
Definition quote_rune (c : byte) : gostring :=
  let r := byteZ c in
  if bool_decide (c = quote \/ c = backslash) then [backslash; c]
  else if isPrintLatin1 r then EncodeRune r
  else if bool_decide (c = Byte.x07) then [backslash; "a"%byte]
  else if bool_decide (c = Byte.x08) then [backslash; "b"%byte]
  else if bool_decide (c = Byte.x0c) then [backslash; "f"%byte]
  else if bool_decide (c = Byte.x0a) then [backslash; "n"%byte]
  else if bool_decide (c = Byte.x0d) then [backslash; "r"%byte]
  else if bool_decide (c = Byte.x09) then [backslash; "t"%byte]
  else if bool_decide (c = Byte.x0b) then [backslash; "v"%byte]
  else if bool_decide (r < 0x20 \/ r = 0x7F)%Z
  then [backslash; "x"%byte; hex_digit (r / 16); hex_digit (r mod 16)]
  else [backslash; "u"%byte; "0"%byte; "0"%byte; hex_digit (r / 16); hex_digit (r mod 16)].

(** [quoteChar]: a byte between single quotes, for error messages. *)
Definition quoteChar (c : byte) : gostring :=
  if bool_decide (c = squote) then [squote; backslash; squote; squote]
  else if bool_decide (c = quote) then [squote; quote; squote]
  else [squote] ++ quote_rune c ++ [squote].

(** ** The state functions *)

(** [s.error(c, context)]. *)
Definition scan_error (s : scanner) (c : byte) (context : string) : scanner * scanCode :=
  ({| step := stateError; endTop := endTop s; parseState := parseState s;
      err := Some {| msg := gostr "invalid character " ++ quoteChar c ++ gostr " " ++ gostr context;
                     Offset := bytes s |};
      bytes := bytes s |}, scanError).

Definition pushParseState (s : scanner) (c : byte) (newParseState : parseKind)
    (successState : scanCode) : scanner * scanCode :=
  let s := set_parse (newParseState :: parseState s) s in
  if bool_decide (len (parseState s) <= maxNestingDepth)%Z then (s, successState)
  else scan_error s c "exceeded max depth".

Definition popParseState (s : scanner) : scanner :=
  let rest := tail (parseState s) in
  match rest with
  | [] => {| step := stateEndTop; endTop := true; parseState := rest; err := err s; bytes := bytes s |}
  | _ => set_step stateEndValue (set_parse rest s)
  end.

Definition fstateEndTop (s : scanner) (c : byte) : scanner * scanCode :=
  if isSpace c then (s, scanEnd) else ((scan_error s c "after top-level value").1, scanEnd).

Definition fstateEndValue (s : scanner) (c : byte) : scanner * scanCode :=
  match parseState s with
  | [] =>
      fstateEndTop {| step := stateEndTop; endTop := true; parseState := [];
                      err := err s; bytes := bytes s |} c
  | ps :: rest =>
      if isSpace c then (set_step stateEndValue s, scanSkipSpace) else
      match ps with
      | parseObjectKey =>
          if bool_decide (c = ":"%byte)
          then (set_step stateBeginValue (set_parse (parseObjectValue :: rest) s), scanObjectKey)
          else scan_error s c "after object key"
      | parseObjectValue =>
          if bool_decide (c = ","%byte)
          then (set_step stateBeginString (set_parse (parseObjectKey :: rest) s), scanObjectValue)
          else if bool_decide (c = "}"%byte) then (popParseState s, scanEndObject)
          else scan_error s c "after object key:value pair"
      | parseArrayValue =>
          if bool_decide (c = ","%byte) then (set_step stateBeginValue s, scanArrayValue)
          else if bool_decide (c = "]"%byte) then (popParseState s, scanEndArray)
          else scan_error s c "after array element"
      end
  end.

Definition fstateBeginValue (s : scanner) (c : byte) : scanner * scanCode :=
  if isSpace c then (s, scanSkipSpace) else
  match c with
  | "{"%byte => pushParseState (set_step stateBeginStringOrEmpty s) c parseObjectKey scanBeginObject
  | "["%byte => pushParseState (set_step stateBeginValueOrEmpty s) c parseArrayValue scanBeginArray
  | Byte.x22 => (set_step stateInString s, scanBeginLiteral)
  | "-"%byte => (set_step stateNeg s, scanBeginLiteral)
  | "0"%byte => (set_step state0 s, scanBeginLiteral)
  | "t"%byte => (set_step stateT s, scanBeginLiteral)
  | "f"%byte => (set_step stateF s, scanBeginLiteral)
  | "n"%byte => (set_step stateN s, scanBeginLiteral)
  | _ =>
      if bool_decide (0x31 <= byteZ c <= 0x39)%Z then (set_step state1 s, scanBeginLiteral)
      else scan_error s c "looking for beginning of value"
  end.

Definition fstateBeginValueOrEmpty (s : scanner) (c : byte) : scanner * scanCode :=
  if isSpace c then (s, scanSkipSpace)
  else if bool_decide (c = "]"%byte) then fstateEndValue s c
  else fstateBeginValue s c.

Definition fstateBeginString (s : scanner) (c : byte) : scanner * scanCode :=
  if isSpace c then (s, scanSkipSpace)
  else if bool_decide (c = quote) then (set_step stateInString s, scanBeginLiteral)
  else scan_error s c "looking for beginning of object key string".

(** [s.parseState[n-1] = parseObjectValue]: the stack is never empty in
    this state, as the [{] that led to it pushed [parseObjectKey]. *)
Definition fstateBeginStringOrEmpty (s : scanner) (c : byte) : scanner * scanCode :=
  if isSpace c then (s, scanSkipSpace)
  else if bool_decide (c = "}"%byte)
  then fstateEndValue (set_parse (parseObjectValue :: tail (parseState s)) s) c
  else fstateBeginString s c.

Definition fstateInString (s : scanner) (c : byte) : scanner * scanCode :=
  if bool_decide (c = quote) then (set_step stateEndValue s, scanContinue)
  else if bool_decide (c = backslash) then (set_step stateInStringEsc s, scanContinue)
  else if bool_decide (byteZ c < 0x20)%Z then scan_error s c "in string literal"
  else (s, scanContinue).

Definition fstateInStringEsc (s : scanner) (c : byte) : scanner * scanCode :=
  match c with
  | "b"%byte | "f"%byte | "n"%byte | "r"%byte | "t"%byte | Byte.x5c | "/"%byte | Byte.x22 =>
      (set_step stateInString s, scanContinue)
  | "u"%byte => (set_step stateInStringEscU s, scanContinue)
  | _ => scan_error s c "in string escape code"
  end.

(** [stateInStringEscU], [...U1], [...U12], [...U123]: four hex digits. *)
Definition fstateInStringEscUn (next : stepfn) (s : scanner) (c : byte) : scanner * scanCode :=
  if isHex c then (set_step next s, scanContinue)
  else scan_error s c "in \u hexadecimal character escape".

Definition fstateNeg (s : scanner) (c : byte) : scanner * scanCode :=
  if bool_decide (c = "0"%byte) then (set_step state0 s, scanContinue)
  else if bool_decide (0x31 <= byteZ c <= 0x39)%Z then (set_step state1 s, scanContinue)
  else scan_error s c "in numeric literal".

Definition fstate0 (s : scanner) (c : byte) : scanner * scanCode :=
  if bool_decide (c = "."%byte) then (set_step stateDot s, scanContinue)
  else if bool_decide (c = "e"%byte \/ c = "E"%byte) then (set_step stateE s, scanContinue)
  else fstateEndValue s c.

Definition fstate1 (s : scanner) (c : byte) : scanner * scanCode :=
  if isDigit c then (set_step state1 s, scanContinue) else fstate0 s c.

Definition fstateDot (s : scanner) (c : byte) : scanner * scanCode :=
  if isDigit c then (set_step stateDot0 s, scanContinue)
  else scan_error s c "after decimal point in numeric literal".

Definition fstateDot0 (s : scanner) (c : byte) : scanner * scanCode :=
  if isDigit c then (s, scanContinue)
  else if bool_decide (c = "e"%byte \/ c = "E"%byte) then (set_step stateE s, scanContinue)
  else fstateEndValue s c.

Definition fstateESign (s : scanner) (c : byte) : scanner * scanCode :=
  if isDigit c then (set_step stateE0 s, scanContinue)
  else scan_error s c "in exponent of numeric literal".

Definition fstateE (s : scanner) (c : byte) : scanner * scanCode :=
  if bool_decide (c = "+"%byte \/ c = "-"%byte) then (set_step stateESign s, scanContinue)
  else fstateESign s c.

Definition fstateE0 (s : scanner) (c : byte) : scanner * scanCode :=
  if isDigit c then (s, scanContinue) else fstateEndValue s c.

(** The letters of [true], [false] and [null] after the first one. *)
Definition fstateLit (want : byte) (next : stepfn) (context : string)
    (s : scanner) (c : byte) : scanner * scanCode :=
  if bool_decide (c = want) then (set_step next s, scanContinue) else scan_error s c context.

(** [s.step(s, c)]: the state function of [s] applied to [c]. *)
Definition run_step (s : scanner) (c : byte) : scanner * scanCode :=
  match step s with
  | stateBeginValueOrEmpty => fstateBeginValueOrEmpty s c
  | stateBeginValue => fstateBeginValue s c
  | stateBeginStringOrEmpty => fstateBeginStringOrEmpty s c
  | stateBeginString => fstateBeginString s c
  | stateEndValue => fstateEndValue s c
  | stateEndTop => fstateEndTop s c
  | stateInString => fstateInString s c
  | stateInStringEsc => fstateInStringEsc s c
  | stateInStringEscU => fstateInStringEscUn stateInStringEscU1 s c
  | stateInStringEscU1 => fstateInStringEscUn stateInStringEscU12 s c
  | stateInStringEscU12 => fstateInStringEscUn stateInStringEscU123 s c
  | stateInStringEscU123 => fstateInStringEscUn stateInString s c
  | stateNeg => fstateNeg s c
  | state1 => fstate1 s c
  | state0 => fstate0 s c
  | stateDot => fstateDot s c
  | stateDot0 => fstateDot0 s c
  | stateE => fstateE s c
  | stateESign => fstateESign s c
  | stateE0 => fstateE0 s c
  | stateT => fstateLit "r"%byte stateTr "in literal true (expecting 'r')" s c
  | stateTr => fstateLit "u"%byte stateTru "in literal true (expecting 'u')" s c
  | stateTru => fstateLit "e"%byte stateEndValue "in literal true (expecting 'e')" s c
  | stateF => fstateLit "a"%byte stateFa "in literal false (expecting 'a')" s c
  | stateFa => fstateLit "l"%byte stateFal "in literal false (expecting 'l')" s c
  | stateFal => fstateLit "s"%byte stateFals "in literal false (expecting 's')" s c
  | stateFals => fstateLit "e"%byte stateEndValue "in literal false (expecting 'e')" s c
  | stateN => fstateLit "u"%byte stateNu "in literal null (expecting 'u')" s c
  | stateNu => fstateLit "l"%byte stateNul "in literal null (expecting 'l')" s c
  | stateNul => fstateLit "l"%byte stateEndValue "in literal null (expecting 'l')" s c
  | stateError => (s, scanError)
  end.

(** [s.eof()]: the end of the input, as a space that must end the value. *)
Definition eof (s : scanner) : scanner * scanCode :=
  if bool_decide (err s <> None) then (s, scanError)
  else if endTop s then (s, scanEnd)
  else
    let s1 := (run_step s " "%byte).1 in
    if endTop s1 then (s1, scanEnd)
    else
      let s2 := match err s1 with
                | None => {| step := step s1; endTop := endTop s1; parseState := parseState s1;
                             err := Some {| msg := gostr "unexpected end of JSON input";
                                            Offset := bytes s1 |};
                             bytes := bytes s1 |}
                | Some _ => s1
                end in
      (s2, scanError).

(** [scan.bytes++]. *)
Definition tick (s : scanner) : scanner :=
  {| step := step s; endTop := endTop s; parseState := parseState s; err := err s;
     bytes := bytes s + 1 |}.

(** [scan.bytes++; scan.step(scan, c)] on each byte, up to the first error. *)
Fixpoint feed (s : scanner) (data : gostring) : option SyntaxError + scanner :=
  match data with
  | [] => inr s
  | c :: rest =>
      let '(s', code) := run_step (tick s) c in
      if bool_decide (code = scanError) then inl (err s') else feed s' rest
  end.

(** [checkValid(data, scan)], the check [json.Unmarshal] makes first:
    [None] is Go's [nil]. *)
Definition checkValid (data : gostring) : option SyntaxError :=
  match feed reset data with
  | inl e => e
  | inr s => let '(s', code) := eof s in if bool_decide (code = scanError) then err s' else None
  end.

(** ** [json.Decoder]: the first value of a stream *)

(** The errors of [dec.readValue()]: a syntax error, [io.EOF] when the
    input holds no value, [io.ErrUnexpectedEOF] when it ends inside one. *)
Inductive DecodeError := DSyntax (e : SyntaxError) | DEOF | DUnexpectedEOF.

Definition DecodeError_Error (e : DecodeError) : gostring :=
  match e with
  | DSyntax e => msg e
  | DEOF => gostr "EOF"
  | DUnexpectedEOF => gostr "unexpected EOF"
  end.

(** [nonSpace(b)]: some byte of [b] is not a space. *)
Definition nonSpace (b : gostring) : bool := existsb (fun c => negb (isSpace c)) b.

(** The loop of [readValue] over the bytes of the payload, [n] of them
    read so far: [scanEnd] ends the value before the byte, the end of an
    object or array that is followed by an invented space ends it after
    the byte; at the end of the input ([io.EOF]) one more space must end
    the value. *)
Fixpoint read_loop (buf : gostring) (s : scanner) (data : gostring) (n : nat)
  : DecodeError + nat :=
  match data with
  | [] =>
      if bool_decide ((run_step s " "%byte).2 = scanEnd) then inr n
      else if nonSpace buf then inl DUnexpectedEOF else inl DEOF
  | c :: rest =>
      let '(s', code) := run_step (tick s) c in
      match code with
      | scanEnd => inr n
      | scanEndObject | scanEndArray =>
          let '(s'', code') := fstateEndValue s' " "%byte in
          if bool_decide (code' = scanEnd) then inr (S n) else read_loop buf s'' rest (S n)
      | scanError => inl (match err s' with Some e => DSyntax e | None => DEOF end)
      | _ => read_loop buf s' rest (S n)
      end
  end.

(** [dec.readValue()] of a fresh [json.Decoder] reading [data]: the
    number of bytes of its first value. *)
Definition readValue (data : gostring) : DecodeError + nat := read_loop data reset data 0.

(** ** Lemmas *)

(** The scanner after [k] more bytes that change nothing else. *)
Definition add_bytes (s : scanner) (k : nat) : scanner :=
  {| step := step s; endTop := endTop s; parseState := parseState s; err := err s;
     bytes := bytes s + Z.of_nat k |}.

Ltac scanner_eq :=
  cbv [add_bytes tick set_step set_parse step endTop parseState err bytes];
  lazymatch goal with |- inr _ = inr _ => f_equal | _ => idtac end;
  f_equal; cbn [length]; lia.

Lemma feed_app s a b :
  feed s (a ++ b) = match feed s a with inl e => inl e | inr s' => feed s' b end.
Proof.
  revert s; induction a as [|c a IH]; intros s; [done |]. cbn [app feed].
  destruct (run_step (tick s) c) as [s' code]. by case_bool_decide.
Qed.

(** The text between the quotes of a JSON string, as the scanner reads
    it: bytes other than controls, [backslash] and [quote], and escapes. *)
Inductive str_ok : gostring -> Prop :=
| str_nil : str_ok []
| str_plain c r : plain c -> str_ok r -> str_ok (c :: r)
| str_esc e r :
    e = quote \/ e = backslash \/ e = "/"%byte \/ e = "b"%byte \/ e = "f"%byte \/
    e = "n"%byte \/ e = "r"%byte \/ e = "t"%byte ->
    str_ok r -> str_ok (backslash :: e :: r)
| str_u h1 h2 h3 h4 r :
    isHex h1 && isHex h2 && isHex h3 && isHex h4 = true ->
    str_ok r -> str_ok (backslash :: "u"%byte :: h1 :: h2 :: h3 :: h4 :: r).

#[local] Hint Constructors str_ok : core.

Lemma str_ok_app a b : str_ok a -> str_ok b -> str_ok (a ++ b).
Proof. induction 1; simpl; eauto. Qed.

Lemma run_step_plain s c :
  step s = stateInString -> plain c -> run_step s c = (s, scanContinue).
Proof.
  intros Hs [Hb Hq]. unfold run_step. rewrite Hs. unfold fstateInString.
  rewrite !bool_decide_false; [done | naive_solver | done | naive_solver].
Qed.

Lemma run_step_backslash s :
  step s = stateInString -> run_step s backslash = (set_step stateInStringEsc s, scanContinue).
Proof. intros Hs. unfold run_step. rewrite Hs. unfold fstateInString. by rewrite bool_decide_false. Qed.

Lemma run_step_esc s e :
  step s = stateInStringEsc ->
  e = quote \/ e = backslash \/ e = "/"%byte \/ e = "b"%byte \/ e = "f"%byte \/
  e = "n"%byte \/ e = "r"%byte \/ e = "t"%byte ->
  run_step s e = (set_step stateInString s, scanContinue).
Proof.
  intros Hs He. unfold run_step. rewrite Hs. unfold fstateInStringEsc.
  by destruct He as [-> | [-> | [-> | [-> | [-> | [-> | [-> | ->]]]]]]].
Qed.

Lemma run_step_hex s h f next :
  step s = f -> isHex h = true ->
  (f = stateInStringEscU /\ next = stateInStringEscU1 \/
   f = stateInStringEscU1 /\ next = stateInStringEscU12 \/
   f = stateInStringEscU12 /\ next = stateInStringEscU123 \/
   f = stateInStringEscU123 /\ next = stateInString) ->
  run_step s h = (set_step next s, scanContinue).
Proof.
  intros Hs Hh Hf. unfold run_step. rewrite Hs. unfold fstateInStringEscUn.
  destruct Hf as [[-> ->] | [[-> ->] | [[-> ->] | [-> ->]]]]; by rewrite Hh.
Qed.

Lemma run_step_esc_u s :
  step s = stateInStringEsc -> run_step s "u"%byte = (set_step stateInStringEscU s, scanContinue).
Proof. intros Hs. unfold run_step. by rewrite Hs. Qed.

(** One byte that the scanner reads without an error. *)
Lemma feed_cons_ok s c r s' code :
  run_step (tick s) c = (s', code) -> code <> scanError -> feed s (c :: r) = feed s' r.
Proof. intros Hs Hc. cbn [feed]. rewrite Hs. by rewrite bool_decide_false. Qed.

(** One byte of [readValue]'s loop with an ordinary code. *)
Lemma read_loop_cons buf s c r n s' code :
  run_step (tick s) c = (s', code) ->
  code <> scanEnd -> code <> scanEndObject -> code <> scanEndArray -> code <> scanError ->
  read_loop buf s (c :: r) n = read_loop buf s' r (S n).
Proof. intros Hs ????. cbn [read_loop]. rewrite Hs. by destruct code. Qed.

(** A code after which both loops, [checkValid]'s and [readValue]'s,
    go on to the next byte. *)
Definition ordinary (code : scanCode) : Prop :=
  code <> scanEnd /\ code <> scanEndObject /\ code <> scanEndArray /\ code <> scanError.

(** The scanner goes from [s] to [s'] over [l] with ordinary codes only. *)
Inductive run_ok : scanner -> gostring -> scanner -> Prop :=
| run_nil s : run_ok s [] s
| run_cons s c l s' code s'' :
    run_step (tick s) c = (s', code) -> ordinary code -> run_ok s' l s'' -> run_ok s (c :: l) s''.

Lemma run_ok_app s a s' b s'' : run_ok s a s' -> run_ok s' b s'' -> run_ok s (a ++ b) s''.
Proof. induction 1; intros; simpl; [done | econstructor; eauto]. Qed.

Lemma feed_run s l s' r : run_ok s l s' -> feed s (l ++ r) = feed s' r.
Proof.
  induction 1 as [|s c l s' code s'' Hs (_ & _ & _ & Hc) _ IH]; [done |].
  cbn [app]. by rewrite (feed_cons_ok _ _ _ _ _ Hs Hc).
Qed.

Lemma read_run buf s l s' r j :
  run_ok s l s' -> read_loop buf s (l ++ r) j = read_loop buf s' r (j + length l).
Proof.
  intros H; revert j; induction H as [|s c l s' code s'' Hs (H1 & H2 & H3 & H4) _ IH]; intros j.
  - by rewrite Nat.add_0_r.
  - cbn [app length]. rewrite (read_loop_cons _ _ _ _ _ _ _ Hs) by done.
    rewrite IH. f_equal. lia.
Qed.

(** The same run, computed: [Some] of the scanner after [l] when every
    code is ordinary. *)
Fixpoint run_okb (s : scanner) (l : gostring) : option scanner :=
  match l with
  | [] => Some s
  | c :: l' =>
      let '(s', code) := run_step (tick s) c in
      if bool_decide (ordinary code) then run_okb s' l' else None
  end.

Lemma run_okb_sound s l s' : run_okb s l = Some s' -> run_ok s l s'.
Proof.
  revert s; induction l as [|c l IH]; intros s; cbn [run_okb]; [intros [= <-]; constructor |].
  destruct (run_step (tick s) c) as [s1 code] eqn:Hs. case_bool_decide as Ho; [| done].
  intros Hr. econstructor; eauto.
Qed.

(** Rewrite one byte with the lemma [L] on its step. *)
Ltac run_byte L := eapply run_cons; [eapply L; first [reflexivity | eassumption | tauto] .. | done |].

(** The scanner reads the inside of a string without leaving it. *)
Lemma run_str s l :
  str_ok l -> step s = stateInString -> run_ok s l (add_bytes s (length l)).
Proof.
  intros Hl; revert s; induction Hl as [|c r Hc _ IH | e r He _ IH | h1 h2 h3 h4 r Hh _ IH];
    intros s Hst.
  - cbn [length]. replace (add_bytes s 0) with s by (destruct s; scanner_eq). constructor.
  - run_byte run_step_plain.
    replace (add_bytes s (length (c :: r))) with (add_bytes (tick s) (length r))
      by (destruct s; scanner_eq).
    by apply IH.
  - run_byte run_step_backslash. run_byte run_step_esc.
    replace (add_bytes s (length (backslash :: e :: r))) with
      (add_bytes (set_step stateInString (tick (set_step stateInStringEsc (tick s)))) (length r))
      by (destruct s; cbn in Hst; subst; scanner_eq).
    by apply IH.
  - apply andb_true_iff in Hh as [Hh Hh4]. apply andb_true_iff in Hh as [Hh Hh3].
    apply andb_true_iff in Hh as [Hh1 Hh2].
    run_byte run_step_backslash. run_byte run_step_esc_u. do 4 run_byte run_step_hex.
    match goal with |- run_ok ?s' r _ =>
      replace (add_bytes s (length (backslash :: "u"%byte :: h1 :: h2 :: h3 :: h4 :: r)))
        with (add_bytes s' (length r)) by (destruct s; cbn in Hst; subst; scanner_eq)
    end.
    by apply IH.
Qed.

Lemma str_ok_plain l : Forall plain l -> str_ok l.
Proof. induction 1; eauto. Qed.

Lemma hex_digit_isHex n : (0 <= n < 16)%Z -> isHex (hex_digit n) = true.
Proof.
  intros Hn. rewrite <- (Z2Nat.id n) by lia.
  assert (Z.to_nat n < 16)%nat as Hk by lia. revert Hk. generalize (Z.to_nat n) as k.
  intros k Hk. do 16 (destruct k as [|k]; [reflexivity |]). lia.
Qed.

(** What [enc_ascii] writes for an ASCII byte is the inside of a string. *)
Lemma enc_ascii_str_ok h b : (byteZ b < 0x80)%Z -> str_ok (enc_ascii h b).
Proof.
  intros Hb. pose proof (byteZ_range b). unfold enc_ascii.
  destruct (htmlSafeSet b || (negb h && safeSet b)) eqn:Hs.
  { constructor; [by apply (safe_plain h) | constructor]. }
  repeat (case_bool_decide; [apply str_esc; [tauto | constructor] |]).
  apply str_u; [| constructor].
  rewrite !hex_digit_isHex by (Z.div_mod_to_equations; lia). reflexivity.
Qed.

(** What [enc_char] writes for the first character of any text, valid
    UTF-8 or not, is the inside of a string. *)
Lemma enc_char_str_ok h s : str_ok (enc_char h s).1.
Proof.
  destruct s as [|b t]; [constructor |]. cbn [enc_char]. case_bool_decide as Hb.
  { by apply enc_ascii_str_ok. }
  pose proof (DecodeRune_take_hi b (take 3 t) ltac:(lia)) as Hhi.
  destruct (DecodeRune (take 4 (b :: t))) as [c size] eqn:Hd.
  case_bool_decide as He; [by apply (str_u _ _ _ _ []) |].
  case_bool_decide as H2.
  { apply str_u; [| constructor]. rewrite hex_digit_isHex by (Z.div_mod_to_equations; lia).
    reflexivity. }
  cbn [fst]. apply str_ok_plain.
  replace (take 4 (b :: t)) with (b :: take 3 t) in Hd by done. rewrite Hd in Hhi. cbn [snd] in Hhi.
  assert (take size (b :: t) = take size (b :: take 3 t)) as ->.
  { pose proof (DecodeRune_size (b :: take 3 t) ltac:(done)) as Hs. rewrite Hd in Hs.
    cbn [snd length] in Hs. rewrite length_take in Hs.
    destruct size as [|k]; [done |]. cbn [take]. f_equal. rewrite take_take. f_equal.
    pose proof (Nat.le_min_l 3 (length t)). rewrite Nat.min_l; lia. }
  eapply Forall_impl; [exact Hhi |]. intros x Hx. apply nonascii_plain. intros Ha. unfold Utf8.ascii in Ha. cbv beta in Hx. lia.
Qed.

(** The reference encoding of any text is the inside of a JSON string. *)
Lemma enc_ref_str_ok h s : str_ok (enc_ref h s).
Proof.
  funelim (enc_ref h s); [constructor |].
  apply str_ok_app; [apply enc_char_str_ok | done].
Qed.

(** ** Nested arrays and [maxNestingDepth] *)

(** The scanner inside [k] arrays, in the state [f]. *)
Definition open_arrays (f : stepfn) (k : nat) (b : Z) : scanner :=
  {| step := f; endTop := false; parseState := repeat parseArrayValue k; err := None; bytes := b |}.

(** The scanner after a complete top-level value. *)
Definition closed (b : Z) : scanner :=
  {| step := stateEndTop; endTop := true; parseState := []; err := None; bytes := b |}.

Lemma open_arrays_eq f k k' b b' : k = k' -> b = b' -> open_arrays f k b = open_arrays f k' b'.
Proof. by intros -> ->. Qed.

Lemma run_step_open f k b :
  f = stateBeginValue \/ f = stateBeginValueOrEmpty ->
  run_step (open_arrays f k b) "["%byte =
    pushParseState (open_arrays stateBeginValueOrEmpty k b) "["%byte parseArrayValue scanBeginArray.
Proof. by intros [-> | ->]. Qed.

Lemma len_repeat_S k : len (parseArrayValue :: repeat parseArrayValue k) = Z.of_nat (S k).
Proof. unfold len. by rewrite length_cons, List.repeat_length. Qed.

Lemma push_open k b c code :
  (Z.of_nat (S k) <= maxNestingDepth)%Z ->
  pushParseState (open_arrays stateBeginValueOrEmpty k b) c parseArrayValue code =
    (open_arrays stateBeginValueOrEmpty (S k) b, code).
Proof.
  intros Hk. unfold pushParseState. cbn [parseState set_parse open_arrays].
  by rewrite len_repeat_S, bool_decide_true.
Qed.

Lemma push_open_over k b c code :
  (maxNestingDepth < Z.of_nat (S k))%Z ->
  pushParseState (open_arrays stateBeginValueOrEmpty k b) c parseArrayValue code =
    scan_error (open_arrays stateBeginValueOrEmpty (S k) b) c "exceeded max depth".
Proof.
  intros Hk. unfold pushParseState. cbn [parseState set_parse open_arrays].
  by rewrite len_repeat_S, bool_decide_false by lia.
Qed.

Lemma step_open_ok f k b :
  f = stateBeginValue \/ f = stateBeginValueOrEmpty ->
  (Z.of_nat (S k) <= maxNestingDepth)%Z ->
  run_step (tick (open_arrays f k b)) "["%byte =
    (open_arrays stateBeginValueOrEmpty (S k) (b + 1), scanBeginArray).
Proof.
  intros Hf Hk. change (tick (open_arrays f k b)) with (open_arrays f k (b + 1)).
  by rewrite run_step_open, push_open.
Qed.

(** Opening [S n] arrays within the depth limit. *)
Lemma feed_opens n k f b :
  f = stateBeginValue \/ f = stateBeginValueOrEmpty ->
  (Z.of_nat (k + S n) <= maxNestingDepth)%Z ->
  feed (open_arrays f k b) (repeat "["%byte (S n)) =
    inr (open_arrays stateBeginValueOrEmpty (k + S n) (b + Z.of_nat (S n))).
Proof.
  revert k f b; induction n as [|n IH]; intros k f b Hf Hk;
    change (repeat "["%byte (S ?m)) with ("["%byte :: repeat "["%byte m);
    rewrite (feed_cons_ok _ _ _ _ _ (step_open_ok f k b Hf ltac:(lia))) by done.
  - cbn [repeat feed]. f_equal. apply open_arrays_eq; lia.
  - rewrite (IH (S k)) by (auto || lia). f_equal. apply open_arrays_eq; lia.
Qed.

Lemma run_step_close f m b :
  f = stateBeginValueOrEmpty \/ f = stateEndValue ->
  run_step (tick (open_arrays f (S m) b)) "]"%byte =
    (match m with O => closed (b + 1) | S m' => open_arrays stateEndValue (S m') (b + 1) end,
     scanEndArray).
Proof. intros [-> | ->]; by destruct m. Qed.

(** Closing the [S m] arrays that are open. *)
Lemma feed_closes m f b :
  f = stateBeginValueOrEmpty \/ f = stateEndValue ->
  feed (open_arrays f (S m) b) (repeat "]"%byte (S m)) = inr (closed (b + Z.of_nat (S m))).
Proof.
  revert f b; induction m as [|m IH]; intros f b Hf;
    change (repeat "]"%byte (S ?k)) with ("]"%byte :: repeat "]"%byte k);
    rewrite (feed_cons_ok _ _ _ _ _ (run_step_close f _ b Hf)) by done.
  - cbn [repeat feed]. do 2 f_equal; lia.
  - rewrite IH by auto. do 2 f_equal; lia.
Qed.

(** The error of the array that opens one level too deep. *)
Lemma feed_open_over b :
  feed (open_arrays stateBeginValueOrEmpty (Z.to_nat maxNestingDepth) b) ["["%byte] =
    inl (Some {| msg := gostr "invalid character '[' exceeded max depth"; Offset := b + 1 |}).
Proof.
  cbn [feed]. change (tick (open_arrays ?f ?k b)) with (open_arrays f k (b + 1)).
  rewrite run_step_open, push_open_over by (auto || (unfold maxNestingDepth; lia)).
  reflexivity.
Qed.

(** Opening arrays continues the loop of [readValue], closing the
    outermost one ends the value. *)
Lemma read_opens buf n k f b r j :
  f = stateBeginValue \/ f = stateBeginValueOrEmpty ->
  (Z.of_nat (k + S n) <= maxNestingDepth)%Z ->
  read_loop buf (open_arrays f k b) (repeat "["%byte (S n) ++ r) j =
    read_loop buf (open_arrays stateBeginValueOrEmpty (k + S n) (b + Z.of_nat (S n))) r (j + S n).
Proof.
  revert k f b j; induction n as [|n IH]; intros k f b j Hf Hk;
    change (repeat "["%byte (S ?m) ++ r) with ("["%byte :: repeat "["%byte m ++ r);
    rewrite (read_loop_cons _ _ _ _ _ _ _ (step_open_ok f k b Hf ltac:(lia))) by done.
  - cbn [repeat app]. f_equal; [apply open_arrays_eq |]; lia.
  - rewrite (IH (S k)) by (auto || lia). f_equal; [apply open_arrays_eq |]; lia.
Qed.

Lemma read_closes buf m f b r j :
  f = stateBeginValueOrEmpty \/ f = stateEndValue ->
  read_loop buf (open_arrays f (S m) b) (repeat "]"%byte (S m) ++ r) j = inr (j + S m).
Proof.
  revert f b j; induction m as [|m IH]; intros f b j Hf;
    change (repeat "]"%byte (S ?k) ++ r) with ("]"%byte :: repeat "]"%byte k ++ r);
    cbn [read_loop]; rewrite (run_step_close f _ b Hf).
  - cbn. f_equal. lia.
  - cbn [fstateEndValue open_arrays parseState repeat].
    change (isSpace " "%byte) with true. cbv beta iota.
    rewrite bool_decide_false by done.
    change (set_step stateEndValue (open_arrays stateEndValue (S m) (b + 1)))
      with (open_arrays stateEndValue (S m) (b + 1)).
    change ("]"%byte :: repeat "]"%byte m) with (repeat "]"%byte (S m)).
    rewrite IH by auto. f_equal. lia.
Qed.

(** The error of an array nested one level deeper than [maxNestingDepth]. *)
Definition depth_error : SyntaxError :=
  {| msg := gostr "invalid character '[' exceeded max depth"; Offset := maxNestingDepth + 1 |}.

Lemma max_depth_S : Z.to_nat maxNestingDepth = S (Z.to_nat maxNestingDepth - 1).
Proof. unfold maxNestingDepth. lia. Qed.

(** [n + 1] nested empty arrays, more than [maxNestingDepth] of them, split
    at the array that is one too deep. *)
Lemma nested_split n :
  (maxNestingDepth < Z.of_nat (S n))%Z ->
  repeat "["%byte (S n) ++ repeat "]"%byte (S n) =
  repeat "["%byte (S (Z.to_nat maxNestingDepth - 1)) ++
    "["%byte :: repeat "["%byte (n - Z.to_nat maxNestingDepth) ++ repeat "]"%byte (S n).
Proof.
  intros Hn. rewrite <- max_depth_S.
  replace (S n) with (Z.to_nat maxNestingDepth + S (n - Z.to_nat maxNestingDepth)) at 1
    by (unfold maxNestingDepth in *; lia).
  by rewrite repeat_app, <- app_assoc.
Qed.

(** [json.Unmarshal]'s check of [n + 1] nested empty arrays: accepted up
    to [maxNestingDepth], rejected at the array one level deeper. *)
Lemma checkValid_nested n :
  checkValid (repeat "["%byte (S n) ++ repeat "]"%byte (S n)) =
    if bool_decide (Z.of_nat (S n) <= maxNestingDepth)%Z then None else Some depth_error.
Proof.
  unfold checkValid. case_bool_decide as Hn.
  - rewrite feed_app. change reset with (open_arrays stateBeginValue 0 0).
    rewrite feed_opens by (auto || lia). rewrite Nat.add_0_l, feed_closes by auto. reflexivity.
  - rewrite nested_split by lia. rewrite feed_app. change reset with (open_arrays stateBeginValue 0 0).
    rewrite feed_opens by (auto || (rewrite <- max_depth_S; unfold maxNestingDepth; lia)).
    rewrite <- max_depth_S. change ("["%byte :: ?r) with (["["%byte] ++ r). rewrite feed_app.
    rewrite feed_open_over. unfold depth_error. do 4 f_equal; unfold maxNestingDepth; lia.
Qed.

(** [json.Decoder]'s [readValue] of the same text. *)
Lemma readValue_nested n :
  readValue (repeat "["%byte (S n) ++ repeat "]"%byte (S n)) =
    if bool_decide (Z.of_nat (S n) <= maxNestingDepth)%Z then inr (S n + S n)%nat
    else inl (DSyntax depth_error).
Proof.
  unfold readValue. generalize (repeat "["%byte (S n) ++ repeat "]"%byte (S n)) at 1 as buf.
  intros buf. change reset with (open_arrays stateBeginValue 0 0). case_bool_decide as Hn.
  - rewrite read_opens by (auto || lia).
    rewrite Nat.add_0_l, <- (app_nil_r (repeat "]"%byte (S n))).
    by rewrite read_closes by auto.
  - rewrite nested_split by lia.
    rewrite read_opens by (auto || (rewrite <- max_depth_S; unfold maxNestingDepth; lia)).
    rewrite <- max_depth_S. cbn [read_loop].
    change (tick (open_arrays ?f ?k ?b)) with (open_arrays f k (b + 1)).
    rewrite run_step_open, push_open_over by (auto || (unfold maxNestingDepth; lia)).
    cbn. unfold depth_error. do 4 f_equal; unfold maxNestingDepth; lia.
Qed.

End Scanner.
