(* ===== verification/Fmt.v ===== *)
(** * Fmt: Go's [fmt.Sprintf] on string arguments

    [doPrintf] follows the main loop of Go's [pp.doPrintf]: literal
    bytes are copied; ["%%"] prints ['%'] and takes no argument; any
    other verb takes the next argument, or prints ["%!v(MISSING)"] when
    none is left; a ['%'] at the end of the format prints
    ["%!(NOVERB)"].  [printArg] prints a string argument under a verb:
    [%s] and [%v] print it as is, [%x] and [%X] print its bytes in hex,
    and any other verb is reported as ["%!v(string=arg)"].  [Sprintf]
    then reports unused arguments as ["%!(EXTRA string=a, ...)"].

    The model reads the byte after ['%'] as the verb: fmt's flags,
    width, precision and argument indexes, non-ASCII verbs and the [%q]
    verb (which [src/main.go] never uses) are outside it. *)

From S2P Require Import Prelude.

Module Fmt.

Definition lower_hex (n : nat) : byte :=
  match Byte.of_nat (if decide (n < 10) then 48 + n else 87 + n) with
  | Some b => b | None => "?"%byte
  end.
Definition upper_hex (n : nat) : byte :=
  match Byte.of_nat (if decide (n < 10) then 48 + n else 55 + n) with
  | Some b => b | None => "?"%byte
  end.

(** [fmtSbx]: every byte as two hex digits. *)
Definition hex_bytes (digit : nat -> byte) (s : gostring) : gostring :=
  s ≫= fun b => [digit (Byte.to_nat b / 16); digit (Byte.to_nat b mod 16)].

(** [pp.printArg] for an argument of type [string]. *)
Definition printArg (arg : gostring) (verb : byte) : gostring :=
  if decide (verb = "v"%byte \/ verb = "s"%byte) then arg
  else if decide (verb = "x"%byte) then hex_bytes lower_hex arg
  else if decide (verb = "X"%byte) then hex_bytes upper_hex arg
  else gostr "%!" ++ [verb] ++ gostr "(string=" ++ arg ++ gostr ")".

(** [pp.doPrintf]: the output and the arguments left over. *)
Fixpoint doPrintf (format : gostring) (a : list gostring) : gostring * list gostring :=
  match format with
  | [] => ([], a)
  | "%"%byte :: [] => (gostr "%!(NOVERB)", a)
  | "%"%byte :: verb :: rest =>
      let '(out, a') :=
        if decide (verb = "%"%byte) then ([verb], a) else
        match a with
        | [] => (gostr "%!" ++ [verb] ++ gostr "(MISSING)", [])
        | arg :: a' => (printArg arg verb, a')
        end in
      let '(out', a'') := doPrintf rest a' in (out ++ out', a'')
  | c :: rest => let '(out, a') := doPrintf rest a in (c :: out, a')
  end.

(** The [%!(EXTRA ...)] report of unused arguments: each one as
    [string=arg], separated by [", "] ([i > 0] in the Go loop). *)
Fixpoint extra_args (first : bool) (a : list gostring) : gostring :=
  match a with
  | [] => []
  | arg :: a' =>
      (if first then [] else gostr ", ") ++ gostr "string=" ++ arg ++ extra_args false a'
  end.

Definition extra (a : list gostring) : gostring :=
  match a with
  | [] => []
  | _ => gostr "%!(EXTRA " ++ extra_args true a ++ gostr ")"
  end.

(** [fmt.Sprintf(format, a...)] with string arguments. *)
Definition Sprintf (format : gostring) (a : list gostring) : gostring :=
  let '(out, rest) := doPrintf format a in out ++ extra rest.

(** ** Lemmas *)

(** A literal without ['%'] is copied and takes no argument. *)
Lemma doPrintf_literal lit rest a :
  "%"%byte ∉ lit ->
  doPrintf (lit ++ rest) a = (lit ++ (doPrintf rest a).1, (doPrintf rest a).2).
Proof.
  intros Hlit. induction lit as [|c lit IH]; simpl; [by destruct (doPrintf rest a) |].
  apply not_elem_of_cons in Hlit as [Hc Hlit].
  rewrite IH by done.
  destruct c as [] eqn:E; try reflexivity; congruence.
Qed.

(** ["%s"] at the end of a format prints its argument. *)
Lemma doPrintf_s arg a :
  doPrintf (gostr "%s") (arg :: a) = (arg, a).
Proof. simpl. by rewrite app_nil_r. Qed.

Lemma doPrintf_s_missing :
  doPrintf (gostr "%s") [] = (gostr "%!s(MISSING)", []).
Proof. reflexivity. Qed.

(** [Sprintf(lit + "%s", arg)] is [lit + arg] when [lit] has no ['%']. *)
Lemma Sprintf_prefix_s lit arg :
  "%"%byte ∉ lit -> Sprintf (lit ++ gostr "%s") [arg] = lit ++ arg.
Proof.
  intros Hlit. unfold Sprintf. rewrite doPrintf_literal, doPrintf_s by done.
  simpl. by rewrite !app_nil_r.
Qed.

(** The same format with no argument reports it missing. *)
Lemma Sprintf_prefix_s_missing lit :
  "%"%byte ∉ lit -> Sprintf (lit ++ gostr "%s") [] = lit ++ gostr "%!s(MISSING)".
Proof.
  intros Hlit. unfold Sprintf. rewrite doPrintf_literal, doPrintf_s_missing by done.
  simpl. by rewrite !app_nil_r.
Qed.

End Fmt.
