(* ===== verification/Events.v ===== *)
(** * Events: the API Gateway proxy envelope of [aws-lambda-go/events]

    [APIGatewayProxyRequest] keeps the fields of the Go struct that a
    handler can read (the multi-value maps and the request context are
    left out); [APIGatewayProxyResponse] keeps every field of the Go
    struct.  A Go [map[string]string] is a [gmap gostring gostring]; the
    nil map of a zero-valued field is the empty map. *)

From S2P Require Import Prelude.

Module Events.

(** [events.APIGatewayProxyRequest]. *)
Record APIGatewayProxyRequest := {
  Resource : gostring;
  Path : gostring;
  HTTPMethod : gostring;
  RequestHeaders : gmap gostring gostring;
  QueryStringParameters : gmap gostring gostring;
  PathParameters : gmap gostring gostring;
  StageVariables : gmap gostring gostring;
  RequestBody : gostring;
  RequestIsBase64Encoded : bool
}.

(** [events.APIGatewayProxyResponse]. *)
Record APIGatewayProxyResponse := {
  StatusCode : Z;
  Headers : gmap gostring gostring;
  MultiValueHeaders : gmap gostring (list gostring);
  Body : gostring;
  IsBase64Encoded : bool
}.

(** The composite literal [events.APIGatewayProxyResponse{StatusCode: c,
    Body: b}]: the fields it does not name keep their zero values. *)
Definition proxy_response (c : Z) (b : gostring) : APIGatewayProxyResponse :=
  {| StatusCode := c; Headers := ∅; MultiValueHeaders := ∅; Body := b;
     IsBase64Encoded := false |}.

End Events.
