(* ===== verification/Os.v ===== *)
(** * Os: what the handler needs from the operating system

    Two interfaces, as the Go code uses them: [GoErr] is Go's [error]
    interface (its [Error] method) and [Os] is [os.Getwd], which reads
    the process state [P] and returns Go's pair [(dir string, err error)],
    the error [None] for [nil].  The handler is proved against these
    classes only.

    The [Linux] module implements them for a Linux process.  [unix_Getwd]
    follows Go's Unix [os.Getwd]: [stat(".")] (its failure is a
    [PathError] with operation ["stat"]); if [$PWD] is absolute and
    [stat($PWD)] is the same file as ["."], [$PWD] is the answer;
    otherwise [syscall.Getwd], i.e. the [getcwd] system call, whose
    failure is wrapped by [NewSyscallError("getwd", ...)], and whose
    answer is refused with [ENOENT] when it does not start with ['/'].
    This is the [os.Getwd] of Go 1.22, which has no fallback when
    [getcwd] fails with [ENAMETOOLONG].
    Go's retry of [getcwd] on [EINTR] is not modelled (the modelled
    system call never reports [EINTR]).  [proc_equiv] identifies the
    processes [os.Getwd] cannot tell apart; [unix_Getwd] respects it. *)

From S2P Require Import Prelude.

Module Os.

(** Go's [error] interface. *)
Class GoErr (E : Type) := Error : E -> gostring.

(** [os.Getwd] over a process state [P], with errors in [E]. *)
Class Os (P E : Type) := Getwd : P -> gostring * option E.

Module Linux.

(** The [errno] values [stat] and [getcwd] report. *)
Inductive Errno := ENOENT | EACCES | ENOTDIR | ENAMETOOLONG | ELOOP | ERANGE | EIO.

#[export] Instance Errno_eq_dec : EqDecision Errno.
Proof. solve_decision. Defined.

(** [syscall.Errno.Error]: the messages of Go's Linux error table. *)
Definition errno_string (e : Errno) : gostring :=
  match e with
  | ENOENT => gostr "no such file or directory"
  | EACCES => gostr "permission denied"
  | ENOTDIR => gostr "not a directory"
  | ENAMETOOLONG => gostr "file name too long"
  | ELOOP => gostr "too many levels of symbolic links"
  | ERANGE => gostr "numerical result out of range"
  | EIO => gostr "input/output error"
  end.

(** The errors [os.Getwd] returns: pointers to [os.PathError] and [os.SyscallError]. *)
Inductive OsError :=
| PathError (Op Path : gostring) (Err : Errno)
| SyscallError (Syscall : gostring) (Err : Errno).

(** [PathError.Error] and [SyscallError.Error]. *)
Definition OsError_Error (e : OsError) : gostring :=
  match e with
  | PathError op path err => op ++ gostr " " ++ path ++ gostr ": " ++ errno_string err
  | SyscallError sc err => sc ++ gostr ": " ++ errno_string err
  end.

(** A file's identity, as [os.SameFile] compares it: device and inode. *)
Definition FileId := (N * N)%type.

(** The state of a process that [os.Getwd] reads. *)
Record Process := {
  stat : gostring -> Errno + FileId;
  env_PWD : option gostring;
  getcwd : Errno + gostring
}.

(** [os.Getenv]: the empty string for an unset variable. *)
Definition Getenv_PWD (p : Process) : gostring := default [] (env_PWD p).

(** Go's [os.Getwd] on Linux. *)
Definition unix_Getwd (p : Process) : gostring * option OsError :=
  match stat p (gostr ".") with
  | inl err => ([], Some (PathError (gostr "stat") (gostr ".") err))
  | inr dot =>
      let dir := Getenv_PWD p in
      if bool_decide (0 < len dir)%Z && bool_decide (head dir = Some "/"%byte) &&
         (match stat p dir with inr d => bool_decide (d = dot) | inl _ => false end)
      then (dir, None)
      else match getcwd p with
           | inl e => ([], Some (SyscallError (gostr "getwd") e))
           | inr s =>
               if bool_decide (head s = Some "/"%byte) then (s, None)
               else ([], Some (SyscallError (gostr "getwd") ENOENT))
           end
  end.

#[export] Instance linux_error : GoErr OsError := OsError_Error.
#[export] Instance linux_os : Os Process OsError := unix_Getwd.

(** ** The three ways [unix_Getwd] answers *)

(** [stat(".")] fails. *)
Lemma unix_Getwd_stat_error p e :
  stat p (gostr ".") = inl e ->
  unix_Getwd p = ([], Some (PathError (gostr "stat") (gostr ".") e)).
Proof. intros H. unfold unix_Getwd. by rewrite H. Qed.

(** [$PWD] is absolute and names the same file as ["."]. *)
Lemma unix_Getwd_pwd p id d :
  stat p (gostr ".") = inr id -> env_PWD p = Some d -> head d = Some "/"%byte ->
  stat p d = inr id -> unix_Getwd p = (d, None).
Proof.
  intros Hdot Hpwd Hhead Hd. unfold unix_Getwd, Getenv_PWD. rewrite Hdot, Hpwd. simpl.
  rewrite Hd, Hhead. destruct d as [|c d]; [done |].
  rewrite !bool_decide_true by (done || (rewrite len_cons; pose proof (len_nonneg d); lia)).
  done.
Qed.

(** [$PWD] cannot be used: the answer is the one of [getcwd]. *)
Lemma unix_Getwd_getcwd p id :
  stat p (gostr ".") = inr id ->
  (forall d, env_PWD p = Some d -> head d = Some "/"%byte -> stat p d <> inr id) ->
  unix_Getwd p =
    match getcwd p with
    | inl e => ([], Some (SyscallError (gostr "getwd") e))
    | inr s => if bool_decide (head s = Some "/"%byte) then (s, None)
               else ([], Some (SyscallError (gostr "getwd") ENOENT))
    end.
Proof.
  intros Hdot Hpwd. unfold unix_Getwd, Getenv_PWD. rewrite Hdot.
  destruct (env_PWD p) as [d|] eqn:E; simpl; [| done].
  destruct (decide (head d = Some "/"%byte)) as [Hh|Hh].
  - rewrite (bool_decide_true (head d = _)) by done.
    destruct (stat p d) as [e|i] eqn:Hs; cbn iota; [by rewrite andb_false_r |].
    rewrite (bool_decide_false (i = id)); [by rewrite andb_false_r |].
    intros ->. by apply (Hpwd d).
  - rewrite (bool_decide_false (head d = _)) by done. by rewrite andb_false_r, andb_false_l.
Qed.

(** ** Processes [os.Getwd] cannot tell apart *)

(** [stat] answers the same on every path, and [$PWD] and [getcwd] are
    the same: equality of the [stat] functions is too fine, since two
    processes may compute the same answers differently. *)
Definition proc_equiv (p q : Process) : Prop :=
  (forall path, stat p path = stat q path) /\ env_PWD p = env_PWD q /\ getcwd p = getcwd q.

#[export] Instance proc_equiv_equivalence : Equivalence proc_equiv.
Proof.
  split.
  - intros p. by split_and!.
  - intros p q (Hs & He & Hc). split_and!; [intros path; by rewrite Hs | done | done].
  - intros p q r (Hs1 & He1 & Hc1) (Hs2 & He2 & Hc2).
    split_and!; [intros path; by rewrite Hs1, Hs2 | congruence | congruence].
Qed.

#[export] Instance unix_Getwd_proper : Proper (proc_equiv ==> (=)) unix_Getwd.
Proof.
  intros p q (Hs & He & Hc). unfold unix_Getwd, Getenv_PWD. by rewrite !Hs, He, Hc.
Qed.

End Linux.
End Os.
