(* ===== verification/Handler.v ===== *)
(** * Handler: the Lambda handler of [src/main.go]

    [Handler] reads the working directory through the [Os] interface and
    builds one of the two responses of the Go code:
    [getwd_failure_response] (lines 17-23: status 500, the error's
    message after ["Erro ao obter o diretório corrente: "]) or
    [current_dir_response] (lines 25-32: status 200, [filepath.Base] of
    the directory after ["O diretório corrente é: "]).  The Go error it
    returns is always [nil] ([None]).  [context.Context] is an arbitrary
    type [Ctx]: the handler never reads it.

    The theorems of the first section hold for every implementation of
    [Os] and [GoErr]; those of [Linux] use the Linux [unix_Getwd].
    [parse_body] is a client of the API that strips the prefix the status
    announces, to state that the body carries its information back. *)

From S2P Require Import Prelude Filepath Utf8 Fmt Events Os.
Import Filepath Utf8 Fmt Events Os.

Module Handler.

(** The two format strings of [src/main.go]. *)
Definition msg_erro_format : gostring := gostr "Erro ao obter o diretório corrente: %s".
Definition msg_dir_format : gostring := gostr "O diretório corrente é: %s".

(** The literal text before the [%s] of each format. *)
Definition erro_prefix : gostring := gostr "Erro ao obter o diretório corrente: ".
Definition dir_prefix : gostring := gostr "O diretório corrente é: ".

Section Code.
Context {P E : Type} `{!Os P E} `{!GoErr E}.

(** [(events.APIGatewayProxyResponse, error)], the result of [Handler]. *)
Definition HandlerResult : Type := (APIGatewayProxyResponse * option E)%type.

(** [if err != nil { return {StatusCode: 500, Body: fmt.Sprintf(..., err.Error())}, nil }] *)
Definition getwd_failure_response (err : E) : HandlerResult :=
  (proxy_response 500 (Sprintf msg_erro_format [Error err]), None).

(** [response := fmt.Sprintf(..., filepath.Base(currentDir));
     return {StatusCode: 200, Body: response}, nil] *)
Definition current_dir_response (currentDir : gostring) : GoM HandlerResult :=
  base <- Base currentDir ;;
  let response := Sprintf msg_dir_format [base] in
  Ret (proxy_response 200 response, None).

(** [func Handler(ctx context.Context, request events.APIGatewayProxyRequest)]. *)
Definition Handler {Ctx : Type} (proc : P) (ctx : Ctx) (request : APIGatewayProxyRequest)
  : GoM HandlerResult :=
  let '(currentDir, err) := Getwd proc in
  match err with
  | Some e => Ret (getwd_failure_response e)
  | None => current_dir_response currentDir
  end.

End Code.

(** ** Shared lemmas *)

Lemma msg_erro_format_split : msg_erro_format = erro_prefix ++ gostr "%s".
Proof. reflexivity. Qed.

Lemma msg_dir_format_split : msg_dir_format = dir_prefix ++ gostr "%s".
Proof. reflexivity. Qed.

Lemma erro_prefix_no_verb : "%"%byte ∉ erro_prefix.
Proof. apply (bool_decide_unpack ("%"%byte ∉ erro_prefix)). vm_compute. exact I. Qed.

Lemma dir_prefix_no_verb : "%"%byte ∉ dir_prefix.
Proof. apply (bool_decide_unpack ("%"%byte ∉ dir_prefix)). vm_compute. exact I. Qed.

Lemma Sprintf_erro arg : Sprintf msg_erro_format [arg] = erro_prefix ++ arg.
Proof. rewrite msg_erro_format_split. apply Sprintf_prefix_s, erro_prefix_no_verb. Qed.

Lemma Sprintf_dir arg : Sprintf msg_dir_format [arg] = dir_prefix ++ arg.
Proof. rewrite msg_dir_format_split. apply Sprintf_prefix_s, dir_prefix_no_verb. Qed.

Lemma dir_prefix_valid : valid_utf8 dir_prefix = true.
Proof. vm_compute. reflexivity. Qed.

Lemma erro_prefix_valid : valid_utf8 erro_prefix = true.
Proof. vm_compute. reflexivity. Qed.

(** ** The contract *)

Section Contract.
Context {P E : Type} `{!Os P E} `{!GoErr E}.

(** What the handler promises for an answer [(dir, err)] of [os.Getwd]:
    a 500 carrying the error's message, or a 200 carrying the base name
    of the directory; never a Go error. *)
Definition handler_spec (wd : gostring * option E) : @HandlerResult E :=
  match wd.2 with
  | Some err => (proxy_response 500 (erro_prefix ++ Error err), None)
  | None => (proxy_response 200 (dir_prefix ++ base_ref wd.1), None)
  end.

Lemma current_dir_response_spec (dir : gostring) :
  @current_dir_response E dir = Ret (proxy_response 200 (dir_prefix ++ base_ref dir), None).
Proof.
  unfold current_dir_response. rewrite Base_refines_gen. simpl go_bind.
  by rewrite Sprintf_dir.
Qed.

Lemma Handler_spec_eq {Ctx} (proc : P) (ctx : Ctx) request :
  Handler proc ctx request = Ret (handler_spec (Getwd proc)).
Proof.
  unfold Handler, handler_spec. destruct (Getwd proc) as [dir [err|]]; simpl.
  - unfold getwd_failure_response. by rewrite Sprintf_erro.
  - apply current_dir_response_spec.
Qed.

End Contract.

(** ** Properties of the handler, for every [Os] *)

Section Properties.
Context {P E : Type} `{!Os P E} `{!GoErr E}.

(** C1: refinement.  For every process state, context and request, the
    handler returns (never panics, never runs out of fuel) exactly the
    response the contract [handler_spec] gives for the answer of
    [os.Getwd]. *)
Theorem Handler_refines {Ctx} (proc : P) (ctx : Ctx) request :
  Handler proc ctx request = Ret (handler_spec (Getwd proc)).
Proof. apply Handler_spec_eq. Qed.

(** C2: when [os.Getwd] succeeds with [dir], the handler answers status
    200 with the body ["O diretório corrente é: "] followed by the base
    name of [dir], and a nil error. *)
Theorem Handler_getwd_ok {Ctx} (proc : P) (ctx : Ctx) request dir :
  Getwd proc = (dir, None) ->
  Handler proc ctx request = Ret (proxy_response 200 (dir_prefix ++ base_ref dir), None).
Proof. intros Hg. by rewrite Handler_spec_eq, Hg. Qed.

(** C3: when [os.Getwd] fails with [err], the handler answers status 500
    with the body ["Erro ao obter o diretório corrente: "] followed by
    [err.Error()], and a nil error. *)
Theorem Handler_getwd_error {Ctx} (proc : P) (ctx : Ctx) request dir (err : E) :
  Getwd proc = (dir, Some err) ->
  Handler proc ctx request = Ret (proxy_response 500 (erro_prefix ++ Error err), None).
Proof. intros Hg. by rewrite Handler_spec_eq, Hg. Qed.

(** C4: the handler always returns one response with a nil error, and its
    status code is 200 or 500. *)
Theorem Handler_status_200_or_500 {Ctx} (proc : P) (ctx : Ctx) request :
  exists resp, Handler proc ctx request = Ret (resp, None) /\
               (StatusCode resp = 200 \/ StatusCode resp = 500)%Z.
Proof.
  rewrite Handler_spec_eq. unfold handler_spec.
  destruct (Getwd proc) as [dir [err|]]; eexists; (split; [done | simpl; lia]).
Qed.

(** C5: the status code is 500 exactly when [os.Getwd] returned an error. *)
Theorem Handler_500_iff_getwd_error {Ctx} (proc : P) (ctx : Ctx) request resp err :
  Handler proc ctx request = Ret (resp, err) ->
  (StatusCode resp = 500 <-> is_Some (Getwd proc).2)%Z.
Proof.
  rewrite Handler_spec_eq. unfold handler_spec.
  destruct (Getwd proc) as [dir [e|]]; simpl; intros [= <- _]; simpl; split; try done; eauto.
Qed.

(** C6: the request and the context never affect the response. *)
Theorem Handler_request_independent {Ctx} (proc : P) (ctx1 ctx2 : Ctx) request1 request2 :
  Handler proc ctx1 request1 = Handler proc ctx2 request2.
Proof. by rewrite !Handler_spec_eq. Qed.

(** C10: in a directory [dir/seg], where [seg] is a non-empty name without
    separator, the 200 body names [seg] only. *)
Theorem Handler_last_element {Ctx} (proc : P) (ctx : Ctx) request dir seg :
  Getwd proc = (dir ++ "/"%byte :: seg, None) -> sepfree seg -> seg <> [] ->
  Handler proc ctx request = Ret (proxy_response 200 (dir_prefix ++ seg), None).
Proof.
  intros Hg Hs Hne. rewrite Handler_spec_eq, Hg. unfold handler_spec. cbn [fst snd].
  by rewrite base_ref_last_element.
Qed.

(** C11: a trailing separator on the directory [os.Getwd] reports does not
    change the response. *)
Theorem Handler_trailing_separator {Ctx} (proc1 proc2 : P) (ctx : Ctx) request dir :
  dir <> [] -> Getwd proc1 = (dir, None) -> Getwd proc2 = (dir ++ ["/"%byte], None) ->
  Handler proc1 ctx request = Handler proc2 ctx request.
Proof.
  intros Hne H1 H2. rewrite !Handler_spec_eq, H1, H2. unfold handler_spec. cbn [fst snd].
  by rewrite base_ref_trailing.
Qed.

(** C12: a 200 body is the prefix followed by a non-empty name that is
    ["/"] or contains no separator. *)
Theorem Handler_body_shape {Ctx} (proc : P) (ctx : Ctx) request resp :
  Handler proc ctx request = Ret (resp, None) -> StatusCode resp = 200%Z ->
  exists b, Body resp = dir_prefix ++ b /\ b <> [] /\ (b = ["/"%byte] \/ sepfree b).
Proof.
  rewrite Handler_spec_eq. unfold handler_spec.
  destruct (Getwd proc) as [dir [e|]]; simpl; intros [= <-]; simpl; [done |]. intros _.
  exists (base_ref dir). split; [done |]. apply base_ref_shape.
Qed.

(** C13: the response is the Go composite literal with two fields set:
    no headers, no multi-value headers, and a body that is not base64. *)
Theorem Handler_no_headers {Ctx} (proc : P) (ctx : Ctx) request resp err :
  Handler proc ctx request = Ret (resp, err) ->
  Headers resp = ∅ /\ MultiValueHeaders resp = ∅ /\ IsBase64Encoded resp = false.
Proof.
  rewrite Handler_spec_eq. unfold handler_spec.
  by destruct (Getwd proc).2; intros [= <- _].
Qed.

(** C14: a 200 body and a 500 body never coincide, whatever the two
    process states: the body alone tells a client which outcome it got. *)
Theorem Handler_bodies_distinct {Ctx} (proc1 proc2 : P) (ctx1 ctx2 : Ctx) request1 request2
    resp1 resp2 err1 err2 :
  Handler proc1 ctx1 request1 = Ret (resp1, err1) ->
  Handler proc2 ctx2 request2 = Ret (resp2, err2) ->
  StatusCode resp1 = 200%Z -> StatusCode resp2 = 500%Z -> Body resp1 <> Body resp2.
Proof.
  rewrite !Handler_spec_eq. unfold handler_spec.
  destruct (Getwd proc1).2, (Getwd proc2).2; intros [= <- _] [= <- _]; try done.
Qed.

(** C19: the body is well-formed UTF-8 text whenever the directory and
    the error message [os.Getwd] returns are: the two format strings of
    the code are valid UTF-8 ([é] and [ó] are two bytes each), and the
    base name of a valid path is valid. *)
Theorem Handler_body_valid_utf8 {Ctx} (proc : P) (ctx : Ctx) request :
  valid_utf8 (Getwd proc).1 = true ->
  (forall e, (Getwd proc).2 = Some e -> valid_utf8 (Error e) = true) ->
  exists resp, Handler proc ctx request = Ret (resp, None) /\ valid_utf8 (Body resp) = true.
Proof.
  rewrite Handler_spec_eq. unfold handler_spec.
  destruct (Getwd proc) as [dir [e|]]; cbn [fst snd]; intros Hd He; (eexists; split; [done |]).
  - apply valid_app; [apply erro_prefix_valid | by apply He].
  - apply valid_app; [apply dir_prefix_valid | by apply base_ref_valid].
Qed.

(** C20: when [os.Getwd] succeeds with [dir], the body is longer than the
    prefix and at most [len(dir)] bytes longer ([1] for an empty
    [dir], whose base name is ["."]): the response grows with the path
    and no more. *)
Theorem Handler_body_len {Ctx} (proc : P) (ctx : Ctx) request dir :
  Getwd proc = (dir, None) ->
  exists resp, Handler proc ctx request = Ret (resp, None) /\
    (len dir_prefix < len (Body resp) <= len dir_prefix + Z.max 1 (len dir))%Z.
Proof.
  intros Hg. rewrite Handler_spec_eq, Hg. eexists; split; [done |]. cbn [Body proxy_response fst].
  pose proof (base_ref_length dir). unfold len. rewrite length_app. lia.
Qed.

End Properties.

(** ** Properties of the handler on Linux *)

Section OnLinux.
Import Linux.

(** C15: when [stat(".")] fails with [e] (for instance the process may
    no longer search its directory), the handler answers 500 with the
    message of Go's [PathError], ["stat .: "] and the errno text. *)
Theorem Linux_Handler_stat_error {Ctx} (p : Process) (ctx : Ctx) request e :
  stat p (gostr ".") = inl e ->
  Handler p ctx request =
    Ret (proxy_response 500 (erro_prefix ++ gostr "stat .: " ++ errno_string e), None).
Proof.
  intros H. rewrite Handler_spec_eq. change (Getwd p) with (unix_Getwd p).
  by rewrite (unix_Getwd_stat_error p e H).
Qed.

(** C16: when [$PWD] is absolute and names the same file as ["."], the
    handler answers 200 with the base name of [$PWD]. *)
Theorem Linux_Handler_pwd {Ctx} (p : Process) (ctx : Ctx) request id d :
  stat p (gostr ".") = inr id -> env_PWD p = Some d -> head d = Some "/"%byte ->
  stat p d = inr id ->
  Handler p ctx request = Ret (proxy_response 200 (dir_prefix ++ base_ref d), None).
Proof.
  intros Hdot Hpwd Hh Hd. rewrite Handler_spec_eq. change (Getwd p) with (unix_Getwd p).
  by rewrite (unix_Getwd_pwd p id d).
Qed.

(** C17: when [$PWD] cannot be used and the [getcwd] system call fails
    with [e] (for instance [ENOENT] after the directory was removed), the
    handler answers 500 with ["getwd: "] and the errno text. *)
Theorem Linux_Handler_getcwd_error {Ctx} (p : Process) (ctx : Ctx) request id e :
  stat p (gostr ".") = inr id ->
  (forall d, env_PWD p = Some d -> head d = Some "/"%byte -> stat p d <> inr id) ->
  getcwd p = inl e ->
  Handler p ctx request =
    Ret (proxy_response 500 (erro_prefix ++ gostr "getwd: " ++ errno_string e), None).
Proof.
  intros Hdot Hpwd Hc. rewrite Handler_spec_eq. change (Getwd p) with (unix_Getwd p).
  by rewrite (unix_Getwd_getcwd p id Hdot Hpwd), Hc.
Qed.

(** C18: when [$PWD] cannot be used and [getcwd] answers an absolute
    path [s], the handler answers 200 with the base name of [s]; when the
    answer is not absolute (Linux's ["(unreachable)"] paths), it answers
    500 with ["getwd: no such file or directory"]. *)
Theorem Linux_Handler_getcwd_ok {Ctx} (p : Process) (ctx : Ctx) request id s :
  stat p (gostr ".") = inr id ->
  (forall d, env_PWD p = Some d -> head d = Some "/"%byte -> stat p d <> inr id) ->
  getcwd p = inr s ->
  Handler p ctx request =
    Ret (if bool_decide (head s = Some "/"%byte)
         then (proxy_response 200 (dir_prefix ++ base_ref s), None)
         else (proxy_response 500 (erro_prefix ++ gostr "getwd: no such file or directory"),
               None)).
Proof.
  intros Hdot Hpwd Hc. rewrite Handler_spec_eq. change (Getwd p) with (unix_Getwd p).
  rewrite (unix_Getwd_getcwd p id Hdot Hpwd), Hc. by case_bool_decide.
Qed.

(** [Handler] on Linux reads the process only through [unix_Getwd]. *)
#[export] Instance Linux_Handler_proper {Ctx} :
  Proper (proc_equiv ==> (=) ==> (=) ==> (=))
    (fun (p : Process) (ctx : Ctx) (request : APIGatewayProxyRequest) => Handler p ctx request).
Proof.
  intros p q Hpq ctx ? <- request ? <-. unfold Handler.
  change (Getwd p) with (unix_Getwd p). change (Getwd q) with (unix_Getwd q).
  by rewrite Hpq.
Qed.

End OnLinux.

(** ** Concrete runs *)

(** A request with every field empty, and one with every field set. *)
Definition empty_request : APIGatewayProxyRequest :=
  {| Resource := []; Path := []; HTTPMethod := []; RequestHeaders := ∅;
     QueryStringParameters := ∅; PathParameters := ∅; StageVariables := ∅;
     RequestBody := []; RequestIsBase64Encoded := false |}.

Definition full_request : APIGatewayProxyRequest :=
  {| Resource := gostr "/{proxy+}"; Path := gostr "/cwd"; HTTPMethod := gostr "POST";
     RequestHeaders := {[ gostr "Accept" := gostr "text/plain" ]};
     QueryStringParameters := {[ gostr "q" := gostr "1" ]};
     PathParameters := {[ gostr "proxy" := gostr "cwd" ]}; StageVariables := ∅;
     RequestBody := gostr "{}"; RequestIsBase64Encoded := true |}.

(** A Lambda process in the directory [dir], with [$PWD] set to it. *)
Definition linux_in (dir : gostring) : Linux.Process :=
  {| Linux.stat := fun path =>
       if decide (path = gostr "." \/ path = dir) then inr (1%N, 42%N)
       else inl Linux.ENOENT;
     Linux.env_PWD := Some dir;
     Linux.getcwd := inr dir |}.

Definition srv_app : Linux.Process := linux_in (gostr "/srv/app").

(** The same process after [/srv/app] was removed: ["."] still answers
    [stat], [$PWD] no longer does, and [getcwd] fails with [ENOENT]. *)
Definition srv_app_removed : Linux.Process :=
  {| Linux.stat := fun path =>
       if decide (path = gostr ".") then inr (1%N, 42%N) else inl Linux.ENOENT;
     Linux.env_PWD := Some (gostr "/srv/app");
     Linux.getcwd := inl Linux.ENOENT |}.

(** A process that may not search its directory. *)
Definition no_search : Linux.Process :=
  {| Linux.stat := fun _ => inl Linux.EACCES;
     Linux.env_PWD := None;
     Linux.getcwd := inl Linux.EACCES |}.

(** A process whose [getcwd] answers an unreachable path. *)
Definition unreachable : Linux.Process :=
  {| Linux.stat := fun path =>
       if decide (path = gostr ".") then inr (1%N, 7%N) else inl Linux.ENOENT;
     Linux.env_PWD := None;
     Linux.getcwd := inr (gostr "(unreachable)/srv") |}.

(** ** Witnesses *)

Import Linux.

Lemma Handler_getwd_ok_witness :
  Getwd srv_app = (gostr "/srv/app", None) /\
  Handler srv_app tt empty_request =
    Ret (proxy_response 200 (dir_prefix ++ base_ref (gostr "/srv/app")), None).
Proof.
  split; [vm_compute; reflexivity |].
  apply Handler_getwd_ok. vm_compute. reflexivity.
Defined.

Lemma Handler_getwd_error_witness :
  Getwd no_search = ([], Some (PathError (gostr "stat") (gostr ".") EACCES)) /\
  Handler no_search tt empty_request =
    Ret (proxy_response 500 (erro_prefix ++ Error (PathError (gostr "stat") (gostr ".") EACCES)),
         None).
Proof.
  split; [vm_compute; reflexivity |].
  eapply Handler_getwd_error. vm_compute. reflexivity.
Defined.

Lemma Handler_500_iff_getwd_error_witness :
  Handler srv_app_removed tt full_request =
    Ret (proxy_response 500 (erro_prefix ++ gostr "getwd: no such file or directory"), None) /\
  (StatusCode (proxy_response 500 (erro_prefix ++ gostr "getwd: no such file or directory"))
     = 500 <-> is_Some (Getwd srv_app_removed).2)%Z.
Proof.
  split; [vm_compute; reflexivity |].
  eapply (Handler_500_iff_getwd_error srv_app_removed tt full_request). vm_compute. reflexivity.
Defined.

Lemma Handler_last_element_witness :
  Getwd srv_app = (gostr "/srv" ++ "/"%byte :: gostr "app", None) /\
  Handler srv_app tt full_request = Ret (proxy_response 200 (dir_prefix ++ gostr "app"), None).
Proof.
  split; [vm_compute; reflexivity |].
  apply (Handler_last_element srv_app tt full_request (gostr "/srv") (gostr "app")).
  - vm_compute. reflexivity.
  - unfold sepfree. repeat constructor.
  - done.
Defined.

Lemma Handler_trailing_separator_witness :
  Getwd srv_app = (gostr "/srv/app", None) /\
  Getwd (linux_in (gostr "/srv/app/")) = (gostr "/srv/app" ++ ["/"%byte], None) /\
  Handler srv_app tt empty_request = Handler (linux_in (gostr "/srv/app/")) tt empty_request.
Proof.
  split; [vm_compute; reflexivity |]. split; [vm_compute; reflexivity |].
  apply (Handler_trailing_separator _ _ tt empty_request (gostr "/srv/app")).
  - done.
  - vm_compute. reflexivity.
  - vm_compute. reflexivity.
Defined.

Lemma Handler_body_shape_witness :
  Handler srv_app tt empty_request = Ret (proxy_response 200 (dir_prefix ++ gostr "app"), None) /\
  exists b, Body (proxy_response 200 (dir_prefix ++ gostr "app")) = dir_prefix ++ b /\
            b <> [] /\ (b = ["/"%byte] \/ sepfree b).
Proof.
  split; [vm_compute; reflexivity |].
  apply (Handler_body_shape srv_app tt empty_request); [vm_compute; reflexivity | reflexivity].
Defined.

Lemma Linux_Handler_stat_error_witness :
  stat no_search (gostr ".") = inl EACCES /\
  Handler no_search tt empty_request =
    Ret (proxy_response 500 (erro_prefix ++ gostr "stat .: " ++ errno_string EACCES), None).
Proof.
  split; [reflexivity |]. apply Linux_Handler_stat_error. reflexivity.
Defined.

Lemma Linux_Handler_pwd_witness :
  stat srv_app (gostr ".") = inr (1%N, 42%N) /\
  Handler srv_app tt empty_request =
    Ret (proxy_response 200 (dir_prefix ++ base_ref (gostr "/srv/app")), None).
Proof.
  split; [vm_compute; reflexivity |].
  apply (Linux_Handler_pwd srv_app tt empty_request (1%N, 42%N)); vm_compute; reflexivity.
Defined.

Lemma Linux_Handler_getcwd_error_witness :
  getcwd srv_app_removed = inl ENOENT /\
  Handler srv_app_removed tt empty_request =
    Ret (proxy_response 500 (erro_prefix ++ gostr "getwd: " ++ errno_string ENOENT), None).
Proof.
  split; [reflexivity |].
  apply (Linux_Handler_getcwd_error srv_app_removed tt empty_request (1%N, 42%N)).
  - vm_compute. reflexivity.
  - intros d [= <-] _. vm_compute. discriminate.
  - reflexivity.
Defined.

Lemma Linux_Handler_getcwd_ok_witness :
  getcwd unreachable = inr (gostr "(unreachable)/srv") /\
  Handler unreachable tt empty_request =
    Ret (if bool_decide (head (gostr "(unreachable)/srv") = Some "/"%byte)
         then (proxy_response 200 (dir_prefix ++ base_ref (gostr "(unreachable)/srv")), None)
         else (proxy_response 500 (erro_prefix ++ gostr "getwd: no such file or directory"),
               None)).
Proof.
  split; [reflexivity |].
  apply (Linux_Handler_getcwd_ok unreachable tt empty_request (1%N, 7%N)).
  - vm_compute. reflexivity.
  - intros d [=].
  - reflexivity.
Defined.

Lemma Handler_no_headers_witness :
  Handler srv_app tt empty_request = Ret (proxy_response 200 (dir_prefix ++ gostr "app"), None) /\
  Headers (proxy_response 200 (dir_prefix ++ gostr "app")) = ∅ /\
  MultiValueHeaders (proxy_response 200 (dir_prefix ++ gostr "app")) = ∅ /\
  IsBase64Encoded (proxy_response 200 (dir_prefix ++ gostr "app")) = false.
Proof.
  split; [vm_compute; reflexivity |].
  eapply (Handler_no_headers srv_app tt empty_request). vm_compute. reflexivity.
Defined.

Lemma Handler_bodies_distinct_witness :
  Body (proxy_response 200 (dir_prefix ++ gostr "app")) <>
  Body (proxy_response 500 (erro_prefix ++ gostr "getwd: no such file or directory")).
Proof.
  apply (Handler_bodies_distinct srv_app srv_app_removed tt tt empty_request full_request
           _ _ None None); vm_compute; reflexivity.
Defined.

Lemma Handler_body_valid_utf8_witness :
  exists resp, Handler srv_app_removed tt empty_request = Ret (resp, None) /\
               valid_utf8 (Body resp) = true.
Proof.
  apply (Handler_body_valid_utf8 srv_app_removed tt empty_request).
  - vm_compute. reflexivity.
  - intros e He. vm_compute in He. injection He as <-. vm_compute. reflexivity.
Defined.

(** A directory whose name has two-byte characters. *)
Definition camera_dir : gostring := gostr "/home/joão/câmera".

Lemma Handler_body_len_witness :
  Getwd (linux_in camera_dir) = (camera_dir, None) /\
  exists resp, Handler (linux_in camera_dir) tt empty_request = Ret (resp, None) /\
    (len dir_prefix < len (Body resp) <= len dir_prefix + Z.max 1 (len camera_dir))%Z.
Proof.
  split; [vm_compute; reflexivity |].
  apply Handler_body_len. vm_compute. reflexivity.
Defined.

(** The process of [srv_app] with its [stat] written the other way round. *)
Definition srv_app_twin : Linux.Process :=
  {| Linux.stat := fun path =>
       if decide (path = gostr "/srv/app" \/ path = gostr ".") then inr (1%N, 42%N)
       else inl Linux.ENOENT;
     Linux.env_PWD := Some (gostr "/srv/app");
     Linux.getcwd := inr (gostr "/srv/app") |}.

(** [/srv/app] reached through [getcwd] rather than [$PWD]. *)
Definition srv_app_no_pwd : Linux.Process :=
  {| Linux.stat := fun path =>
       if decide (path = gostr ".") then inr (1%N, 42%N) else inl Linux.ENOENT;
     Linux.env_PWD := None;
     Linux.getcwd := inr (gostr "/srv/app") |}.

(** A process that may not search its directory, with [$PWD] set. *)
Definition no_search_dir : Linux.Process :=
  {| Linux.stat := fun _ => inl Linux.EACCES;
     Linux.env_PWD := Some (gostr "/srv/app");
     Linux.getcwd := inr (gostr "/srv/app") |}.

(** A test run: a Lambda process in [/srv/app] answers any request
    with status 200 and the body ["O diretório corrente é: app"]. *)
Example Handler_srv_app : Handler srv_app tt full_request =
  Ret (proxy_response 200 (gostr "O diretório corrente é: app"), None).
Proof. vm_compute. reflexivity. Qed.

End Handler.
