(* ===== verification/Fs.v ===== *)
(** * Fs: the Linux directory tree that [stat] and [getcwd] read

    [Os.Linux.Process] takes [stat], [$PWD] and [getcwd] as given.  This
    file computes them from a directory tree, so that the states the
    handler meets are those of a real file system and the removal of the
    working directory is an operation of the environment.

    [FS] keeps, as the kernel's dentries do, the entries of every linked
    directory ([dirs]: inode to name to inode) and the parent link and
    name of every linked directory but the root ([parent]).  [mkdir] and
    [rmdir] are the two operations; [wf] is the invariant they keep (the
    entries and the parent links agree, and the parent links lead to the
    root).  [lookup_path] is the path walk of [stat] ([.], [..], names),
    [kernel_getcwd] the walk up the parent links of [getcwd], which
    answers [ENOENT] for an unlinked directory and [ENAMETOOLONG] for a
    path that does not fit in [PATH_MAX] bytes.  A process [LinuxProc]
    is a tree, a working directory (an inode, kept alive by the process
    even when unlinked, so [stat(".")] always succeeds) and [$PWD].

    The lemmas show that [mkdir] and [rmdir] keep [wf], and that in a
    well-formed tree [kernel_getcwd] of a linked directory succeeds
    within its fuel with a path that walks back to it.  The theorems
    C22-C25 take [os.Getwd] and the handler to such trees: a linked
    working directory whose path fits is always found, its name is the
    200 body when [$PWD] is plain, its removal gives the 500 body of
    [getcwd]'s [ENOENT], and the [PATH_MAX] bound is exact: a path of
    4096 bytes or more gives the 500 body of [ENAMETOOLONG], one of 4095
    bytes or fewer the 200 body.  [Handler_tree_pwd_dot] shows the bodies [.] and [..]
    that a [$PWD] with such components gives.

    Only directories are modelled (files and symbolic links are not
    needed to reach a working directory); [..] from an unlinked
    directory fails with [ENOENT]. *)

From S2P Require Import Prelude Filepath Os Events Handler.
Import Filepath Os Os.Linux Events Handler.

Module Fs.

Definition Ino := N.

(** The root directory's inode, as on ext4. *)
Definition root : Ino := 2%N.

Record FS := {
  dirs : gmap Ino (gmap gostring Ino);
  parent : gmap Ino (Ino * gostring)
}.

#[export] Instance FS_eq_dec : EqDecision FS.
Proof.
  refine (fun t1 t2 => cast_if_and (decide (dirs t1 = dirs t2)) (decide (parent t1 = parent t2)));
    abstract (destruct t1, t2; simpl in *; congruence).
Defined.

(** A name a directory entry may have. *)
Definition good_name (n : gostring) : Prop :=
  n <> [] /\ n <> gostr "." /\ n <> gostr ".." /\ sepfree n.

#[export] Instance good_name_dec n : Decision (good_name n).
Proof. unfold good_name, sepfree. apply _. Defined.

(** ** Operations on the tree *)

(** [mkdir(p/name)], the new directory getting the inode [new]. *)
Definition mkdir (fs : FS) (p : Ino) (name : gostring) (new : Ino) : option FS :=
  match dirs fs !! p with
  | Some ents =>
      if bool_decide (good_name name /\ ents !! name = None /\ dirs fs !! new = None /\
                      parent fs !! new = None /\ new <> root)
      then Some {| dirs := <[new := ∅]> (<[p := <[name := new]> ents]> (dirs fs));
                   parent := <[new := (p, name)]> (parent fs) |}
      else None
  | None => None
  end.

(** [rmdir(p/name)]: only an empty directory is removed. *)
Definition rmdir (fs : FS) (p : Ino) (name : gostring) : option FS :=
  match dirs fs !! p with
  | Some ents =>
      match ents !! name with
      | Some d =>
          if bool_decide (dirs fs !! d = Some ∅)
          then Some {| dirs := delete d (<[p := delete name ents]> (dirs fs));
                       parent := delete d (parent fs) |}
          else None
      | None => None
      end
  | None => None
  end.

(** ** Path walk *)

(** One component of a path from the directory [d]. *)
Definition step_ino (fs : FS) (d : Ino) (name : gostring) : Errno + Ino :=
  if bool_decide (name = gostr ".") then inr d
  else match dirs fs !! d with
       | None => inl ENOENT
       | Some ents =>
           if bool_decide (name = gostr "..")
           then inr (match parent fs !! d with Some (p, _) => p | None => d end)
           else match ents !! name with Some c => inr c | None => inl ENOENT end
       end.

Fixpoint walk (fs : FS) (d : Ino) (names : list gostring) : Errno + Ino :=
  match names with
  | [] => inr d
  | n :: rest => match step_ino fs d n with inl e => inl e | inr d' => walk fs d' rest end
  end.

(** The non-empty components of a path. *)
Definition components (p : gostring) : list gostring :=
  filter (fun s : gostring => s <> []) (segments p).

(** The path walk of [stat]: absolute paths from the root, the others
    from the working directory; the empty path is [ENOENT]. *)
Definition lookup_path (fs : FS) (cwd : Ino) (p : gostring) : Errno + Ino :=
  if bool_decide (p = []) then inl ENOENT
  else walk fs (if bool_decide (head p = Some "/"%byte) then root else cwd) (components p).

(** ** [getcwd] *)

(** The names from the root down to [d], walking up at most [fuel]
    parent links. *)
Fixpoint path_up (fs : FS) (fuel : nat) (d : Ino) : option (list gostring) :=
  if bool_decide (d = root) then Some []
  else match fuel with
       | O => None
       | S f => match parent fs !! d with
                | Some (p, name) => (fun l => l ++ [name]) <$> path_up fs f p
                | None => None
                end
       end.

(** The absolute path of a list of names. *)
Definition join_path (names : list gostring) : gostring :=
  match names with
  | [] => gostr "/"
  | _ => mjoin (("/"%byte ::.) <$> names)
  end.

(** The absolute path of a directory, up its parent links, at most one
    per linked directory. *)
Definition path_of (fs : FS) (d : Ino) : option gostring :=
  join_path <$> path_up fs (size (dirs fs)) d.

(** [PATH_MAX]: the size of the kernel's buffer for the path, which is
    also the size of the buffer Go's [syscall.Getwd] passes. *)
Definition PathMax : nat := 4096.

(** The [getcwd] system call: [ENOENT] for an unlinked directory, and
    [ENAMETOOLONG] when the path and its terminating NUL byte do not fit
    in [PATH_MAX] bytes. *)
Definition kernel_getcwd (fs : FS) (cwd : Ino) : Errno + gostring :=
  if bool_decide (dirs fs !! cwd = None) then inl ENOENT
  else match path_of fs cwd with
       | Some s => if bool_decide (PathMax < length s + 1) then inl ENAMETOOLONG else inr s
       | None => inl ENOENT
       end.

(** ** A process over the tree *)

Record LinuxProc := { fs : FS; cwd : Ino; pwd : option gostring }.

(** The device of every inode: one file system. *)
Definition dev : N := 1%N.

(** What [os.Getwd] reads from a process over the tree. *)
Definition to_process (lp : LinuxProc) : Process :=
  {| stat := fun path => match lookup_path (fs lp) (cwd lp) path with
                         | inl e => inl e
                         | inr i => inr (dev, i)
                         end;
     env_PWD := pwd lp;
     getcwd := kernel_getcwd (fs lp) (cwd lp) |}.

(** ** The invariant of the tree *)

(** The root is linked and has no parent; every parent link is an entry
    of a good name of its parent, and every entry is a parent link; every
    linked directory but the root has a parent; and the parent links
    decrease a depth, so they lead to the root. *)
Record wf (fs : FS) : Prop := {
  wf_root : is_Some (dirs fs !! root);
  wf_root_parent : parent fs !! root = None;
  wf_parent : forall d p n, parent fs !! d = Some (p, n) ->
    is_Some (dirs fs !! d) /\ good_name n /\
    exists ents, dirs fs !! p = Some ents /\ ents !! n = Some d;
  wf_entry : forall p ents n c, dirs fs !! p = Some ents -> ents !! n = Some c ->
    parent fs !! c = Some (p, n);
  wf_linked : forall d, is_Some (dirs fs !! d) -> d <> root -> is_Some (parent fs !! d);
  wf_depth : exists depth : Ino -> nat,
    forall d p n, parent fs !! d = Some (p, n) -> depth d = S (depth p)
}.

(** The tree of a fresh file system: the root alone. *)
Definition fs_root : FS := {| dirs := {[ root := ∅ ]}; parent := ∅ |}.

Lemma wf_fs_root : wf fs_root.
Proof.
  unfold fs_root; split; cbn [dirs parent].
  - by rewrite lookup_singleton_eq.
  - done.
  - done.
  - intros p ents n c Hp Hn. apply lookup_singleton_Some in Hp as [_ <-].
    by rewrite lookup_empty in Hn.
  - intros d [x Hd] Hne. by apply lookup_singleton_Some in Hd as [<- _].
  - exists (fun _ => 0). done.
Qed.

Section Mkdir.
Context (fs : FS) (p : Ino) (name : gostring) (new : Ino) (ents : gmap gostring Ino).
Hypothesis (Hwf : wf fs) (Hp : dirs fs !! p = Some ents) (Hname : good_name name)
           (Hfree : ents !! name = None) (Hnew : dirs fs !! new = None)
           (Hnewp : parent fs !! new = None) (Hroot : new <> root).

Let fs' : FS := {| dirs := <[new := ∅]> (<[p := <[name := new]> ents]> (dirs fs));
                   parent := <[new := (p, name)]> (parent fs) |}.

Lemma mkdir_new_ne_p : new <> p.
Proof. intros ->. congruence. Qed.

(** A linked directory is not [new]. *)
Lemma linked_ne_new d : is_Some (dirs fs !! d) -> d <> new.
Proof. intros [x Hd] ->. congruence. Qed.

Lemma wf_mkdir_fs' : wf fs'.
Proof.
  pose proof mkdir_new_ne_p as Hnp. destruct Hwf as [W1 W2 W3 W4 W5 W6]. unfold fs'; split; cbn [dirs parent].
  - rewrite lookup_insert_ne by done. destruct (decide (p = root)) as [<- | Hpr].
    + by rewrite lookup_insert_eq.
    + by rewrite lookup_insert_ne.
  - by rewrite lookup_insert_ne.
  - intros d q m Hd. destruct (decide (d = new)) as [-> | Hdn].
    + rewrite lookup_insert_eq in Hd. injection Hd as <- <-.
      split; [by rewrite lookup_insert_eq |]. split; [done |].
      exists (<[name := new]> ents). rewrite lookup_insert_ne, lookup_insert_eq by done.
      by rewrite lookup_insert_eq.
    + rewrite lookup_insert_ne in Hd by done.
      destruct (W3 d q m Hd) as ([x Hx] & Hm & ents_q & Hq & Hqm).
      rewrite lookup_insert_ne by done. split.
      { destruct (decide (d = p)) as [-> | Hdp]; [by rewrite lookup_insert_eq |].
        rewrite lookup_insert_ne by done. by exists x. }
      split; [done |]. rewrite lookup_insert_ne by (by apply not_eq_sym, linked_ne_new).
      destruct (decide (q = p)) as [-> | Hqp].
      * rewrite lookup_insert_eq. eexists; split; [done |].
        rewrite Hp in Hq. injection Hq as <-.
        rewrite lookup_insert_ne; [done |]. intros ->. congruence.
      * rewrite lookup_insert_ne by done. eauto.
  - intros q E m c Hq Hm. destruct (decide (q = new)) as [-> | Hqn].
    { rewrite lookup_insert_eq in Hq. injection Hq as <-. by rewrite lookup_empty in Hm. }
    rewrite lookup_insert_ne in Hq by done.
    destruct (decide (q = p)) as [-> | Hqp].
    + rewrite lookup_insert_eq in Hq. injection Hq as <-.
      destruct (decide (m = name)) as [-> | Hmn].
      * rewrite lookup_insert_eq in Hm. injection Hm as <-. by rewrite lookup_insert_eq.
      * rewrite lookup_insert_ne in Hm by done. pose proof (W4 _ _ _ _ Hp Hm) as Hc.
        destruct (W3 _ _ _ Hc) as (Hlc & _).
        rewrite lookup_insert_ne by (by apply not_eq_sym, linked_ne_new). done.
    + rewrite lookup_insert_ne in Hq by done. pose proof (W4 _ _ _ _ Hq Hm) as Hc.
      destruct (W3 _ _ _ Hc) as (Hlc & _).
      rewrite lookup_insert_ne by (by apply not_eq_sym, linked_ne_new). done.
  - intros d Hd Hdr. destruct (decide (d = new)) as [-> | Hdn]; [by rewrite lookup_insert_eq |].
    rewrite lookup_insert_ne by done. apply W5; [| done].
    rewrite lookup_insert_ne in Hd by done.
    destruct (decide (d = p)) as [-> | Hdp]; [by exists ents |].
    by rewrite lookup_insert_ne in Hd.
  - destruct W6 as [depth Hdepth].
    exists (fun x => if decide (x = new) then S (depth p) else depth x).
    intros d q m Hd. destruct (decide (d = new)) as [-> | Hdn].
    + rewrite lookup_insert_eq in Hd. injection Hd as <- <-. by rewrite decide_False.
    + rewrite lookup_insert_ne in Hd by done.
      destruct (W3 _ _ _ Hd) as (_ & _ & ents_q & Hq & _).
      rewrite decide_False by (by apply linked_ne_new; exists ents_q).
      by apply Hdepth in Hd.
Qed.

End Mkdir.

(** [mkdir] keeps the invariant. *)
Lemma wf_mkdir fs p name new fs' : wf fs -> mkdir fs p name new = Some fs' -> wf fs'.
Proof.
  intros Hwf. unfold mkdir. destruct (dirs fs !! p) as [ents|] eqn:Hp; [| done].
  case_bool_decide as H; [| done]. destruct H as (Hn & Hf & Hnew & Hnewp & Hr).
  intros [= <-]. by apply (wf_mkdir_fs' fs p name new ents).
Qed.

Section Rmdir.
Context (fs : FS) (p : Ino) (name : gostring) (d : Ino) (ents : gmap gostring Ino).
Hypothesis (Hwf : wf fs) (Hp : dirs fs !! p = Some ents) (Hd : ents !! name = Some d)
           (Hempty : dirs fs !! d = Some ∅).

Let fs' : FS := {| dirs := delete d (<[p := delete name ents]> (dirs fs));
                   parent := delete d (parent fs) |}.

Lemma rmdir_parent : parent fs !! d = Some (p, name).
Proof. by apply (wf_entry _ Hwf p ents). Qed.

Lemma rmdir_ne_root : d <> root.
Proof.
  intros Hr. pose proof rmdir_parent as H. rewrite Hr, (wf_root_parent _ Hwf) in H. done.
Qed.

(** An entry of a directory is not [d], unless it is [p]'s entry [name]. *)
Lemma rmdir_other_entry q E m c :
  dirs fs !! q = Some E -> E !! m = Some c -> (q, m) <> (p, name) -> c <> d.
Proof.
  intros Hq Hm Hne Hc. apply Hne. pose proof (wf_entry _ Hwf _ _ _ _ Hq Hm).
  pose proof rmdir_parent. subst c. congruence.
Qed.

Lemma rmdir_ne_p : p <> d.
Proof.
  intros Hpd. pose proof Hp as H. rewrite Hpd, Hempty in H. injection H as <-.
  by rewrite lookup_empty in Hd.
Qed.

Lemma wf_rmdir_fs' : wf fs'.
Proof.
  pose proof rmdir_ne_root. pose proof rmdir_ne_p.
  destruct Hwf as [W1 W2 W3 W4 W5 W6]. unfold fs'; split; cbn [dirs parent].
  - rewrite lookup_delete_ne by done. destruct (decide (p = root)) as [-> | Hpr].
    + by rewrite lookup_insert_eq.
    + by rewrite lookup_insert_ne.
  - by rewrite lookup_delete_ne.
  - intros x q m Hx. apply lookup_delete_Some in Hx as [Hdx Hx].
    destruct (W3 x q m Hx) as ([y Hy] & Hm & E & Hq & Hqm). split.
    { rewrite lookup_delete_ne by done. destruct (decide (p = x)) as [-> | Hpx].
      - by rewrite lookup_insert_eq.
      - rewrite lookup_insert_ne by done. by exists y. }
    split; [done |]. rewrite lookup_delete_ne.
    2:{ intros ->. rewrite Hempty in Hq. injection Hq as <-. by rewrite lookup_empty in Hqm. }
    destruct (decide (p = q)) as [-> | Hpq].
    + rewrite lookup_insert_eq. eexists; split; [done |].
      rewrite Hp in Hq. injection Hq as <-. rewrite lookup_delete_ne; [done |].
      intros ->. congruence.
    + rewrite lookup_insert_ne by done. eauto.
  - intros q E m c Hq Hm. apply lookup_delete_Some in Hq as [Hdq Hq].
    destruct (decide (p = q)) as [<- | Hpq].
    + rewrite lookup_insert_eq in Hq. injection Hq as <-.
      apply lookup_delete_Some in Hm as [Hmn Hm].
      rewrite lookup_delete_ne by (apply not_eq_sym, (rmdir_other_entry p ents m); congruence).
      eauto.
    + rewrite lookup_insert_ne in Hq by done.
      rewrite lookup_delete_ne by (apply not_eq_sym, (rmdir_other_entry q E m); congruence).
      eauto.
  - intros x Hx Hxr. apply lookup_delete_is_Some in Hx as [Hdx Hx].
    rewrite lookup_delete_ne by done. apply W5; [| done].
    destruct (decide (p = x)) as [-> | Hpx]; [by exists ents |].
    by rewrite lookup_insert_ne in Hx.
  - destruct W6 as [depth Hdepth]. exists depth.
    intros x q m Hx. apply lookup_delete_Some in Hx as [_ Hx]. eauto.
Qed.

End Rmdir.

(** [rmdir] keeps the invariant. *)
Lemma wf_rmdir fs p name fs' : wf fs -> rmdir fs p name = Some fs' -> wf fs'.
Proof.
  intros Hwf. unfold rmdir. destruct (dirs fs !! p) as [ents|] eqn:Hp; [| done].
  destruct (ents !! name) as [d|] eqn:Hd; [| done].
  case_bool_decide as He; [| done]. intros [= <-].
  by apply (wf_rmdir_fs' fs p name d ents).
Qed.

(** ** Paths of names *)

(** A directory is linked when it has entries in the tree. *)
Definition linked (fs : FS) (d : Ino) : Prop := is_Some (dirs fs !! d).

(** The name of a directory in its parent, ["/"] for the root. *)
Definition dir_name (fs : FS) (d : Ino) : gostring :=
  match parent fs !! d with Some (_, n) => n | None => gostr "/" end.

Lemma walk_app fs d l1 l2 :
  walk fs d (l1 ++ l2) = match walk fs d l1 with inl e => inl e | inr d' => walk fs d' l2 end.
Proof.
  revert d; induction l1 as [|n l1 IH]; intros d; simpl; [done |].
  destruct (step_ino fs d n); [done | apply IH].
Qed.

(** A good name is looked up in the entries of a linked directory. *)
Lemma step_ino_good fs d ents n :
  good_name n -> dirs fs !! d = Some ents ->
  step_ino fs d n = match ents !! n with Some c => inr c | None => inl ENOENT end.
Proof.
  intros (_ & Hdot & Hdotdot & _) Hd. unfold step_ino.
  rewrite bool_decide_false, Hd, bool_decide_false by done. done.
Qed.

Lemma step_ino_unlinked fs d n :
  good_name n -> dirs fs !! d = None -> step_ino fs d n = inl ENOENT.
Proof. intros (_ & Hdot & _) Hd. unfold step_ino. by rewrite bool_decide_false, Hd. Qed.

(** [path_up] needs no more fuel than the names it returns. *)
Lemma path_up_root fs k : path_up fs k root = Some [].
Proof. by destruct k. Qed.

(** One step up a parent link. *)
Lemma path_up_S fs k d :
  d <> root ->
  path_up fs (S k) d = match parent fs !! d with
                       | Some (p, name) => (fun l => l ++ [name]) <$> path_up fs k p
                       | None => None
                       end.
Proof. intros Hd. simpl. by rewrite bool_decide_false. Qed.

(** Inversion of a successful [path_up]. *)
Lemma path_up_inv fs k d l :
  path_up fs k d = Some l ->
  (d = root /\ l = []) \/
  exists k' p name lp, k = S k' /\ d <> root /\ parent fs !! d = Some (p, name) /\
                       path_up fs k' p = Some lp /\ l = lp ++ [name].
Proof.
  destruct (decide (d = root)) as [-> | Hd].
  { rewrite path_up_root. intros [= <-]. by left. }
  destruct k as [|k]; [simpl; by rewrite bool_decide_false |].
  rewrite path_up_S by done. intros Hup. right.
  destruct (parent fs !! d) as [[p n]|]; [| done].
  destruct (path_up fs k p) as [lp|] eqn:Hp; [| done]. injection Hup as <-. eauto 10.
Qed.

(** [path_up] needs no more fuel than the names it returns. *)
Lemma path_up_fuel fs k d l : path_up fs k d = Some l -> path_up fs (length l) d = Some l.
Proof.
  revert d l; induction k as [|k IH]; intros d l Hup;
    destruct (path_up_inv _ _ _ _ Hup) as [[-> ->] | (k' & p & n & lp & [=] & Hd & Hp & Hlp & ->)];
    try by rewrite path_up_root.
  subst k'. rewrite length_app, Nat.add_comm. simpl plus.
  rewrite path_up_S, Hp by done. by rewrite (IH _ _ Hlp).
Qed.

Lemma path_up_mono fs k k' d l : path_up fs k d = Some l -> k <= k' -> path_up fs k' d = Some l.
Proof.
  revert d l k'; induction k as [|k IH]; intros d l k' Hup Hk;
    destruct (path_up_inv _ _ _ _ Hup) as [[-> ->] | (k'' & p & n & lp & [=] & Hd & Hp & Hlp & ->)];
    try by rewrite path_up_root.
  subst k''. destruct k' as [|k']; [lia |].
  rewrite path_up_S, Hp by done. by rewrite (IH _ _ k' Hlp) by lia.
Qed.

(** The segments of a separator-free prefix. *)
Lemma segments_sepfree_app n r s ss :
  sepfree n -> segments r = s :: ss -> segments (n ++ r) = (n ++ s) :: ss.
Proof.
  intros Hn Hr. induction Hn as [|c n Hc _ IH]; [done |].
  simpl. by rewrite Hc, IH.
Qed.

Lemma segments_join ns :
  Forall sepfree ns -> segments (mjoin (("/"%byte ::.) <$> ns)) = [] :: ns.
Proof.
  induction 1 as [|n ns Hn _ IH]; [done |]. simpl.
  by rewrite (segments_sepfree_app n _ [] ns), app_nil_r.
Qed.

Lemma filter_good ns : Forall good_name ns -> filter (fun s : gostring => s <> []) ns = ns.
Proof. induction 1 as [|n ns [Hn _] _ IH]; [done |]. by rewrite filter_cons_True, IH. Qed.

Lemma components_join_path ns : Forall good_name ns -> components (join_path ns) = ns.
Proof.
  intros Hns. destruct ns as [|n ns']; [done |]. unfold components, join_path.
  rewrite segments_join by (eapply Forall_impl; [done | by intros x (_ & _ & _ & ?)]).
  rewrite filter_cons_False by naive_solver. by apply filter_good.
Qed.

Lemma join_path_head ns : head (join_path ns) = Some "/"%byte.
Proof. by destruct ns. Qed.

(** An absolute path is walked from the root. *)
Lemma lookup_path_abs fs c q :
  head q = Some "/"%byte -> lookup_path fs c q = walk fs root (components q).
Proof.
  intros Hq. unfold lookup_path. rewrite bool_decide_false by (by intros ->).
  by rewrite bool_decide_true.
Qed.

Lemma base_ref_components q :
  q <> [] -> base_ref q = match last (components q) with Some s => s | None => gostr "/" end.
Proof. intros Hq. unfold base_ref. by rewrite bool_decide_false. Qed.

(** ** [getcwd] and the path walk on a well-formed tree *)

Section WellFormed.
Context (fs : FS) (Hwf : wf fs).

(** The names [path_up] returns are good, and walking them down from the
    root leads back to the directory. *)
Lemma path_up_walk k d l :
  path_up fs k d = Some l -> walk fs root l = inr d /\ Forall good_name l.
Proof.
  revert d l; induction k as [|k IH]; intros d l Hup;
    destruct (path_up_inv _ _ _ _ Hup) as [[-> ->] | (k' & p & n & lp & [=] & Hd & Hp & Hlp & ->)];
    try by split.
  subst k'. destruct (IH _ _ Hlp) as [Hw Hg].
  destruct (wf_parent _ Hwf _ _ _ Hp) as (_ & Hn & ents & Hents & Hnd).
  rewrite walk_app, Hw. simpl. rewrite (step_ino_good _ _ ents), Hnd by done.
  split; [done | apply Forall_app; auto].
Qed.

(** Walking good names from a directory ends in the directory itself or
    in one whose parent link carries the last name. *)
Lemma walk_good_parent d ns i :
  Forall good_name ns -> walk fs d ns = inr i ->
  (ns = [] /\ i = d) \/ exists p n, last ns = Some n /\ parent fs !! i = Some (p, n).
Proof.
  intros Hns. revert d; induction Hns as [|n ns Hn Hns IH]; intros d; cbn [walk].
  { intros [= <-]. by left. }
  intros Hw. right. destruct (dirs fs !! d) as [ents|] eqn:Hd;
    [| by rewrite step_ino_unlinked in Hw].
  rewrite (step_ino_good _ _ ents) in Hw by done.
  destruct (ents !! n) as [c|] eqn:Hc; [| done].
  rewrite last_cons. destruct (IH _ Hw) as [[-> ->] | (p & m & -> & Hpm)]; [| eauto].
  exists d, n. split; [done |]. by apply (wf_entry _ Hwf d ents).
Qed.

(** The last name of a walk from the root is the name of its end. *)
Lemma walk_root_dir_name ns i :
  Forall good_name ns -> walk fs root ns = inr i ->
  match last ns with Some s => s | None => gostr "/" end = dir_name fs i.
Proof.
  intros Hns Hw. unfold dir_name.
  destruct (walk_good_parent _ _ _ Hns Hw) as [[-> ->] | (p & n & -> & ->)]; [| done].
  by rewrite (wf_root_parent _ Hwf).
Qed.

(** The path walk from a linked directory ends in a linked directory. *)
Lemma step_ino_linked d n i :
  linked fs d -> step_ino fs d n = inr i -> linked fs i.
Proof.
  intros [ents Hd]. unfold step_ino. case_bool_decide; [intros [= <-]; by exists ents |].
  rewrite Hd. case_bool_decide.
  - destruct (parent fs !! d) as [[p m]|] eqn:Hp; intros [= <-]; [| by exists ents].
    destruct (wf_parent _ Hwf _ _ _ Hp) as (_ & _ & ents_p & Hents_p & _). by exists ents_p.
  - destruct (ents !! n) as [c|] eqn:Hc; intros [= <-].
    by apply (wf_parent _ Hwf c d n), (wf_entry _ Hwf d ents).
Qed.

Lemma walk_linked d ns i : linked fs d -> walk fs d ns = inr i -> linked fs i.
Proof.
  revert d; induction ns as [|n ns IH]; intros d Hd; cbn [walk]; [by intros [= <-] |].
  destruct (step_ino fs d n) as [e|c] eqn:Hs; [done |].
  apply IH. by apply (step_ino_linked d n).
Qed.

Section Depth.
Context (depth : Ino -> nat)
        (Hdepth : forall d p n, parent fs !! d = Some (p, n) -> depth d = S (depth p)).

(** Fuel [depth d] is enough to reach the root. *)
Lemma path_up_depth n d : depth d = n -> linked fs d -> is_Some (path_up fs n d).
Proof.
  revert d; induction n as [|n IH]; intros d Hn Hd;
    (destruct (decide (d = root)) as [-> | Hr]; [by rewrite path_up_root |]);
    destruct (wf_linked _ Hwf d Hd Hr) as [[p m] Hp]; pose proof (Hdepth _ _ _ Hp); [lia |].
  rewrite path_up_S, Hp by done.
  destruct (wf_parent _ Hwf _ _ _ Hp) as (_ & _ & ents & Hents & _).
  destruct (IH p) as [lp ->]; [lia | by exists ents | by eexists].
Qed.

(** The directories [path_up] passes are distinct and linked. *)
Lemma path_up_nodes k d l :
  linked fs d -> path_up fs k d = Some l ->
  exists nodes, NoDup nodes /\ length nodes = S (length l) /\
                Forall (linked fs) nodes /\ Forall (fun x => depth x <= depth d) nodes.
Proof.
  revert d l; induction k as [|k IH]; intros d l Hd Hup;
    destruct (path_up_inv _ _ _ _ Hup) as [[-> ->] | (k' & p & n & lp & [=] & Hr & Hp & Hlp & ->)];
    try (exists [root]; split_and!;
         [apply NoDup_singleton | done | by apply Forall_singleton | by apply Forall_singleton]).
  subst k'. destruct (wf_parent _ Hwf _ _ _ Hp) as (_ & _ & ents & Hents & _).
  destruct (IH p lp) as (nodes & Hnd & Hlen & Hl & Hdep); [by exists ents | done |].
  pose proof (Hdepth _ _ _ Hp) as Hdp.
  exists (d :: nodes). split_and!.
  - constructor; [| done]. intros Hin. rewrite Forall_forall in Hdep.
    specialize (Hdep d Hin). lia.
  - rewrite length_app. simpl. lia.
  - by constructor.
  - constructor; [done |]. eapply Forall_impl; [done |]. simpl. lia.
Qed.

End Depth.

(** There are no more distinct directories than linked ones. *)
Lemma nodes_size nodes :
  NoDup nodes -> Forall (linked fs) nodes -> length nodes <= size (dirs fs).
Proof.
  intros Hnd Hl. rewrite <- length_map_to_list, <- (length_fmap fst).
  apply submseteq_length, NoDup_submseteq; [done |].
  intros x Hx. rewrite Forall_forall in Hl. destruct (Hl x Hx) as [v Hv].
  apply list_elem_of_fmap. exists (x, v). split; [done |]. by apply elem_of_map_to_list.
Qed.

(** The fuel of [kernel_getcwd], one step per linked directory, is
    enough for every linked directory. *)
Lemma path_up_size d :
  linked fs d -> exists l, path_up fs (size (dirs fs)) d = Some l.
Proof.
  intros Hd. destruct (wf_depth _ Hwf) as [depth Hdepth].
  destruct (path_up_depth depth Hdepth (depth d) d eq_refl Hd) as [l Hl].
  destruct (path_up_nodes depth Hdepth _ _ _ Hd Hl) as (nodes & Hnd & Hlen & Hlk & _).
  pose proof (nodes_size nodes Hnd Hlk). exists l.
  apply (path_up_mono _ (length l)); [by apply path_up_fuel with (depth d) | lia].
Qed.

(** [getcwd] of a linked directory answers the absolute path of good
    names that walks from the root to it, when it fits in [PATH_MAX]. *)
Lemma kernel_getcwd_linked d :
  linked fs d ->
  exists names, path_of fs d = Some (join_path names) /\
    kernel_getcwd fs d = (if bool_decide (PathMax < length (join_path names) + 1)
                          then inl ENAMETOOLONG else inr (join_path names)) /\
    walk fs root names = inr d /\ Forall good_name names.
Proof.
  intros Hd. destruct (path_up_size d Hd) as [names Hn]. exists names.
  unfold kernel_getcwd, path_of. destruct Hd as [x Hx]. rewrite bool_decide_false by congruence.
  rewrite Hn. destruct (path_up_walk _ _ _ Hn). by split_and!.
Qed.

End WellFormed.

(** ** [os.Getwd] and the handler over the tree *)

Lemma to_process_dot lp : stat (to_process lp) (gostr ".") = inr (dev, cwd lp).
Proof. reflexivity. Qed.

(** [$PWD] is used when it is absolute and walks to the working directory. *)
Lemma Getwd_tree_pwd lp d :
  pwd lp = Some d -> head d = Some "/"%byte -> lookup_path (fs lp) (cwd lp) d = inr (cwd lp) ->
  unix_Getwd (to_process lp) = (d, None).
Proof.
  intros Hp Hh Hl. apply (unix_Getwd_pwd _ (dev, cwd lp)); [done | done | done |].
  cbn [stat to_process]. by rewrite Hl.
Qed.

(** Otherwise the answer is the one of [getcwd]. *)
Lemma Getwd_tree_getcwd lp :
  (forall d, pwd lp = Some d -> head d = Some "/"%byte ->
             lookup_path (fs lp) (cwd lp) d <> inr (cwd lp)) ->
  unix_Getwd (to_process lp) =
    match kernel_getcwd (fs lp) (cwd lp) with
    | inl e => ([], Some (SyscallError (gostr "getwd") e))
    | inr s => if bool_decide (head s = Some "/"%byte) then (s, None)
               else ([], Some (SyscallError (gostr "getwd") ENOENT))
    end.
Proof.
  intros Hpwd. rewrite (unix_Getwd_getcwd _ (dev, cwd lp)); [reflexivity | done |].
  intros d Hd Hh. cbn [stat to_process].
  destruct (lookup_path (fs lp) (cwd lp) d) as [e|i] eqn:Hl; [done |].
  intros [= ->]. by apply (Hpwd d).
Qed.

Section Process.
Context (lp : LinuxProc) (Hwf : wf (fs lp)).

(** The answer of [os.Getwd] for a linked working directory whose path
    fits in [PATH_MAX]. *)
Lemma Getwd_tree_linked :
  linked (fs lp) (cwd lp) ->
  (forall q, path_of (fs lp) (cwd lp) = Some q -> length q < PathMax) ->
  exists q, unix_Getwd (to_process lp) = (q, None) /\ head q = Some "/"%byte /\
            lookup_path (fs lp) (cwd lp) q = inr (cwd lp) /\
            (pwd lp = Some q \/ Forall good_name (components q)).
Proof.
  intros Hc Hlen.
  assert ((exists d, pwd lp = Some d /\ head d = Some "/"%byte /\
                    lookup_path (fs lp) (cwd lp) d = inr (cwd lp)) \/
          forall d, pwd lp = Some d -> head d = Some "/"%byte ->
                    lookup_path (fs lp) (cwd lp) d <> inr (cwd lp)) as [(d & Hp & Hh & Hl) | Hno].
  { destruct (pwd lp) as [d|]; [| by right].
    destruct (decide (head d = Some "/"%byte /\ lookup_path (fs lp) (cwd lp) d = inr (cwd lp)))
      as [[Hh Hl] | Hn]; [left; by exists d | right; intros ? [= <-]; tauto]. }
  { exists d. split_and!; [by apply Getwd_tree_pwd | done | done | by left]. }
  rewrite Getwd_tree_getcwd by done.
  destruct (kernel_getcwd_linked _ Hwf _ Hc) as (names & Hpath & -> & Hw & Hg).
  specialize (Hlen _ Hpath). rewrite bool_decide_false by lia.
  rewrite bool_decide_true by apply join_path_head. exists (join_path names).
  rewrite lookup_path_abs, components_join_path by (done || apply join_path_head).
  split_and!; [done | apply join_path_head | done | by right].
Qed.

End Process.

(** [rmdir] unlinks the directory it removes. *)
Lemma rmdir_unlinks fs p name ents c fs' :
  dirs fs !! p = Some ents -> ents !! name = Some c -> rmdir fs p name = Some fs' ->
  dirs fs' !! c = None.
Proof.
  intros Hp Hc. unfold rmdir. rewrite Hp, Hc. case_bool_decide; [| done].
  intros [= <-]. apply lookup_delete_eq.
Qed.

(** An unlinked working directory: [$PWD], walked from the root, only
    reaches linked directories, and [getcwd] fails with [ENOENT]. *)
Lemma Getwd_tree_unlinked lp :
  wf (fs lp) -> dirs (fs lp) !! cwd lp = None ->
  unix_Getwd (to_process lp) = ([], Some (SyscallError (gostr "getwd") ENOENT)).
Proof.
  intros Hwf Hgone. rewrite Getwd_tree_getcwd.
  - unfold kernel_getcwd. by rewrite bool_decide_true.
  - intros d _ Hh. rewrite lookup_path_abs by done. intros Hw.
    apply walk_linked in Hw as [x Hx]; [congruence | done | apply (wf_root _ Hwf)].
Qed.

(** ** The handler over the tree *)

(** C22: soundness of [os.Getwd] on a Linux tree.  In a well-formed tree
    whose working directory is linked, [os.Getwd] succeeds, and its
    answer is an absolute path that [stat] walks back to the working
    directory: [$PWD] when it names it, else the path [getcwd] builds
    (the kernel's fuel, one step per linked directory, is enough),
    provided that path fits in [PATH_MAX] bytes. *)
Theorem Linux_Getwd_tree_sound (lp : LinuxProc) :
  wf (fs lp) -> linked (fs lp) (cwd lp) ->
  (forall q, path_of (fs lp) (cwd lp) = Some q -> length q < PathMax) ->
  exists q, Getwd (to_process lp) = (q, None) /\ head q = Some "/"%byte /\
            lookup_path (fs lp) (cwd lp) q = inr (cwd lp).
Proof.
  intros Hwf Hc Hlen. destruct (Getwd_tree_linked lp Hwf Hc Hlen) as (q & Hq & Hh & Hl & _).
  by exists q.
Qed.

(** C23: the 200 response on a Linux tree.  In a well-formed tree whose
    working directory is linked and has a path shorter than [PATH_MAX],
    when [$PWD] is unset or its components are plain names (no [.], no
    [..]), the handler answers 200 with the name of the working
    directory in its parent ([/] for the root). *)
Theorem Handler_tree_dir_name {Ctx} (lp : LinuxProc) (ctx : Ctx) request :
  wf (fs lp) -> linked (fs lp) (cwd lp) ->
  (forall q, path_of (fs lp) (cwd lp) = Some q -> length q < PathMax) ->
  (forall d, pwd lp = Some d -> Forall good_name (components d)) ->
  Handler (to_process lp) ctx request =
    Ret (proxy_response 200 (dir_prefix ++ dir_name (fs lp) (cwd lp)), None).
Proof.
  intros Hwf Hc Hlen Hpwd.
  destruct (Getwd_tree_linked lp Hwf Hc Hlen) as (q & Hq & Hh & Hl & Hcase).
  rewrite Handler_spec_eq. change (Getwd (to_process lp)) with (unix_Getwd (to_process lp)).
  rewrite Hq. unfold handler_spec. cbn [fst snd].
  rewrite base_ref_components by (by intros ->). rewrite lookup_path_abs in Hl by done.
  rewrite (walk_root_dir_name _ Hwf (components q) (cwd lp)); [done | | done].
  destruct Hcase as [Hp | Hg]; [by apply Hpwd | done].
Qed.

(** C24: removing the working directory.  When [rmdir] removes the
    working directory of a process from a well-formed tree, [$PWD] (set or
    not) no longer names it and [getcwd] fails, so the handler answers 500
    with ["getwd: no such file or directory"]. *)
Theorem Handler_tree_rmdir_cwd {Ctx} t p name ents c t' w (ctx : Ctx) request :
  wf t -> dirs t !! p = Some ents -> ents !! name = Some c -> rmdir t p name = Some t' ->
  Handler (to_process {| fs := t'; cwd := c; pwd := w |}) ctx request =
    Ret (proxy_response 500 (erro_prefix ++ gostr "getwd: no such file or directory"), None).
Proof.
  intros Hwf Hp Hc Hrm.
  rewrite Handler_spec_eq. change (Getwd (to_process ?lp)) with (unix_Getwd (to_process lp)).
  rewrite Getwd_tree_unlinked; [done | by apply (wf_rmdir _ _ _ _ Hwf Hrm) |].
  by apply (rmdir_unlinks _ _ _ _ _ _ Hp Hc Hrm).
Qed.

(** C25: the [PATH_MAX] bound, exactly.  In a well-formed tree, when
    [$PWD] does not name the linked working directory, whose path is
    [q], the handler answers 500 with ["getwd: file name too long"] when
    [q] has [PATH_MAX] (4096) bytes or more, so that the path and its NUL
    byte do not fit in the kernel's buffer, and 200 with the base name of
    [q] when it has 4095 bytes or fewer; Go's [os.Getwd] has no other way
    to the path. *)
Theorem Handler_tree_path_max {Ctx} (lp : LinuxProc) (ctx : Ctx) request q :
  wf (fs lp) -> linked (fs lp) (cwd lp) ->
  (forall d, pwd lp = Some d -> head d = Some "/"%byte ->
             lookup_path (fs lp) (cwd lp) d <> inr (cwd lp)) ->
  path_of (fs lp) (cwd lp) = Some q ->
  Handler (to_process lp) ctx request =
    Ret (if bool_decide (PathMax <= length q)
         then proxy_response 500 (erro_prefix ++ gostr "getwd: file name too long")
         else proxy_response 200 (dir_prefix ++ base_ref q), None).
Proof.
  intros Hwf Hc Hpwd Hq.
  rewrite Handler_spec_eq. change (Getwd (to_process lp)) with (unix_Getwd (to_process lp)).
  rewrite Getwd_tree_getcwd by done.
  destruct (kernel_getcwd_linked _ Hwf _ Hc) as (names & Hpath & -> & _).
  rewrite Hq in Hpath. injection Hpath as Hqn. pose proof (join_path_head names) as Hh.
  rewrite <- Hqn in Hh |- *. unfold handler_spec.
  destruct (decide (PathMax <= length q)) as [Hl | Hl].
  - by rewrite (bool_decide_true (PathMax <= length q)), (bool_decide_true (PathMax < length q + 1))
      by lia.
  - rewrite (bool_decide_false (PathMax <= length q)), (bool_decide_false (PathMax < length q + 1))
      by lia.
    by rewrite bool_decide_true by exact Hh.
Qed.

(** ** Concrete trees *)

(** [/srv/app], made by two [mkdir]s in a fresh tree. *)
Definition srv_app_tree : option FS :=
  mkdir fs_root root (gostr "srv") 10%N ≫= fun t => mkdir t 10%N (gostr "app") 11%N.

Definition srv_app_fs : FS := default fs_root srv_app_tree.

(** A tree built by [mkdir]s from [fs_root], or [fs_root] itself when
    one of them fails, is well formed. *)
Lemma wf_default_mkdir t p name new :
  wf t -> wf (default fs_root (mkdir t p name new)).
Proof.
  intros Hwf. destruct (mkdir t p name new) as [t'|] eqn:E; [| apply wf_fs_root].
  by apply (wf_mkdir t p name new).
Qed.

Lemma srv_app_fs_wf : wf srv_app_fs.
Proof.
  unfold srv_app_fs, srv_app_tree.
  destruct (mkdir fs_root root (gostr "srv") 10%N) as [t|] eqn:E; [| apply wf_fs_root].
  apply wf_default_mkdir, (wf_mkdir fs_root root (gostr "srv") 10%N); [apply wf_fs_root | done].
Qed.

(** A process whose working directory is [/srv/app] (inode 11). *)
Definition in_srv_app (w : option gostring) : LinuxProc :=
  {| fs := srv_app_fs; cwd := 11%N; pwd := w |}.

(** The tree after [rmdir /srv/app]. *)
Definition srv_app_removed_fs : FS := default fs_root (rmdir srv_app_fs 10%N (gostr "app")).

(** A decidable proposition on concrete data, by evaluation of its
    decision procedure. *)
Ltac decide_by_eval := apply (bool_decide_unpack _); vm_compute; reflexivity.

(** The hypothesis that the path of a concrete directory fits in
    [PATH_MAX], by evaluation. *)
Ltac path_fits :=
  let q := fresh "q" in let Hq := fresh "Hq" in
  intros q Hq; vm_compute in Hq; injection Hq as <-; apply Nat.ltb_lt; vm_compute; reflexivity.

Lemma Linux_Getwd_tree_sound_witness :
  wf srv_app_fs /\ linked srv_app_fs 11%N /\ path_of srv_app_fs 11%N = Some (gostr "/srv/app") /\
  exists q, Getwd (to_process (in_srv_app (Some (gostr "/srv/app/.")))) = (q, None) /\
            head q = Some "/"%byte /\ lookup_path srv_app_fs 11%N q = inr 11%N.
Proof.
  split; [exact srv_app_fs_wf |]. split; [decide_by_eval |].
  split; [vm_compute; reflexivity |].
  apply (Linux_Getwd_tree_sound (in_srv_app (Some (gostr "/srv/app/."))));
    [exact srv_app_fs_wf | decide_by_eval | path_fits].
Defined.

Lemma Handler_tree_dir_name_witness :
  wf srv_app_fs /\ linked srv_app_fs 11%N /\
  path_of srv_app_fs 11%N = Some (gostr "/srv/app") /\ dir_name srv_app_fs 11%N = gostr "app" /\
  Handler (to_process (in_srv_app (Some (gostr "/srv/app")))) tt empty_request =
    Ret (proxy_response 200 (dir_prefix ++ dir_name srv_app_fs 11%N), None).
Proof.
  split; [exact srv_app_fs_wf |]. split; [decide_by_eval |].
  split; [vm_compute; reflexivity |]. split; [vm_compute; reflexivity |].
  apply (Handler_tree_dir_name (in_srv_app (Some (gostr "/srv/app"))));
    [exact srv_app_fs_wf | decide_by_eval | path_fits |].
  intros d [= <-]. apply (bool_decide_unpack _). vm_compute. reflexivity.
Defined.

Lemma Handler_tree_rmdir_cwd_witness :
  wf srv_app_fs /\
  dirs srv_app_fs !! 10%N = Some {[ gostr "app" := 11%N ]} /\
  rmdir srv_app_fs 10%N (gostr "app") = Some srv_app_removed_fs /\
  Handler (to_process {| fs := srv_app_removed_fs; cwd := 11%N; pwd := Some (gostr "/srv/app") |})
    tt empty_request =
    Ret (proxy_response 500 (erro_prefix ++ gostr "getwd: no such file or directory"), None).
Proof.
  split; [exact srv_app_fs_wf |]. split; [decide_by_eval |].
  split; [decide_by_eval |].
  apply (Handler_tree_rmdir_cwd srv_app_fs 10%N (gostr "app") {[ gostr "app" := 11%N ]} 11%N);
    [exact srv_app_fs_wf | decide_by_eval | decide_by_eval | decide_by_eval].
Defined.

(** [$PWD] is answered verbatim when it walks to the working directory,
    so the handler reports the last component of [$PWD], which need not
    be the directory's name: ["."] for [/srv/app/.] in [/srv/app], and
    [".."] for [/srv/app/..] in [/srv]. *)
Example Handler_tree_pwd_dot :
  Handler (to_process (in_srv_app (Some (gostr "/srv/app/.")))) tt empty_request =
    Ret (proxy_response 200 (dir_prefix ++ gostr "."), None) /\
  Handler (to_process {| fs := srv_app_fs; cwd := 10%N; pwd := Some (gostr "/srv/app/..") |})
    tt empty_request =
    Ret (proxy_response 200 (dir_prefix ++ gostr ".."), None) /\
  dir_name srv_app_fs 11%N = gostr "app" /\ dir_name srv_app_fs 10%N = gostr "srv".
Proof. split_and!; vm_compute; reflexivity. Qed.

(** A chain of [k] nested directories named [name] under [p], with the
    inodes [p + 1], ..., [p + k]. *)
Fixpoint mkdir_chain (t : FS) (p : Ino) (name : gostring) (k : nat) : option FS :=
  match k with
  | O => Some t
  | S k' => mkdir t p name (p + 1)%N ≫= fun t' => mkdir_chain t' (p + 1)%N name k'
  end.

Lemma wf_mkdir_chain t p name k t' : wf t -> mkdir_chain t p name k = Some t' -> wf t'.
Proof.
  revert t p; induction k as [|k IH]; intros t p Hwf; simpl; [by intros [= <-] |].
  destruct (mkdir t p name (p + 1)%N) as [t1|] eqn:E; simpl; [| done].
  apply IH. by apply (wf_mkdir t p name (p + 1)%N).
Qed.

(** Fifteen directories of 255 bytes (the longest name Linux allows),
    3840 bytes of path, and in the last one a directory named by [n]
    bytes [b]: its path has [3841 + n] bytes. *)
Definition deep_tree (n : nat) : option FS :=
  mkdir_chain fs_root root (repeat "a"%byte 255) 15 ≫=
    fun t => mkdir t 17%N (repeat "b"%byte n) 18%N.

Definition deep_fs (n : nat) : FS := default fs_root (deep_tree n).

Lemma deep_fs_wf n : wf (deep_fs n).
Proof.
  unfold deep_fs, deep_tree.
  remember (mkdir_chain fs_root root (repeat "a"%byte 255) 15) as c eqn:E.
  destruct c as [t|]; [| apply wf_fs_root].
  assert (wf t) by (eapply wf_mkdir_chain; [apply wf_fs_root | symmetry; exact E]).
  cbn [mbind option_bind].
  by apply wf_default_mkdir.
Qed.

(** The answer of the handler in the last directory of [deep_fs n]. *)
Definition deep_answer (n : nat) : Prop :=
  exists q, path_of (deep_fs n) 18%N = Some q /\
    Handler (to_process {| fs := deep_fs n; cwd := 18%N; pwd := None |}) tt empty_request =
      Ret (if bool_decide (PathMax <= length q)
           then proxy_response 500 (erro_prefix ++ gostr "getwd: file name too long")
           else proxy_response 200 (dir_prefix ++ base_ref q), None).

Lemma Handler_tree_path_max_witness :
  wf (deep_fs 254) /\ linked (deep_fs 254) 18%N /\ deep_answer 254 /\
  wf (deep_fs 255) /\ linked (deep_fs 255) 18%N /\ deep_answer 255.
Proof.
  assert (forall n, linked (deep_fs n) 18%N -> deep_answer n) as Hd.
  { intros n Hc. unfold deep_answer.
    destruct (path_of (deep_fs n) 18%N) as [q|] eqn:Hq.
    - exists q. split; [reflexivity |].
      apply (Handler_tree_path_max {| fs := deep_fs n; cwd := 18%N; pwd := None |}
               tt empty_request q); [apply deep_fs_wf | exact Hc | by intros d | exact Hq].
    - destruct (kernel_getcwd_linked _ (deep_fs_wf n) _ Hc) as (names & Hp & _). congruence. }
  assert (linked (deep_fs 254) 18%N) as H4 by decide_by_eval.
  assert (linked (deep_fs 255) 18%N) as H5 by decide_by_eval.
  split; [apply deep_fs_wf |]. split; [exact H4 |]. split; [exact (Hd 254 H4) |].
  split; [apply deep_fs_wf |]. split; [exact H5 | exact (Hd 255 H5)].
Defined.

(** The bound is exact: a path of 4095 bytes fits with its NUL byte and
    the handler answers 200; one of 4096 bytes does not. *)
Example Handler_tree_path_max_boundary :
  Handler (to_process {| fs := deep_fs 254; cwd := 18%N; pwd := None |}) tt empty_request =
    Ret (proxy_response 200 (dir_prefix ++ repeat "b"%byte 254), None) /\
  fmap length (path_of (deep_fs 254) 18%N) = Some 4095 /\
  fmap length (path_of (deep_fs 255) 18%N) = Some 4096.
Proof. split_and!; vm_compute; reflexivity. Qed.

End Fs.
