(* ===== verification/Marshal.v ===== *)
(** * Marshal: the JSON document the runtime posts for a response

    The Lambda runtime of [aws-lambda-go] serialises the handler's
    [events.APIGatewayProxyResponse] with [json.Marshal] (HTML escaping
    on); newer releases use a [json.Encoder] whose HTML escaping is off
    by default, so the escaping is a parameter.  [marshal_response] is
    Go's [structEncoder] for that struct, with its field tags
    [statusCode], [headers], [multiValueHeaders], [body] and
    [isBase64Encoded,omitempty]: [strconv.AppendInt] for the status code,
    [mapEncoder] (keys sorted bytewise) for the two maps, [appendString]
    for the strings, [sliceEncoder] for the multi-value lists.

    A Go map is nil or not; the model's [gmap] is not, and an empty map
    is written [null], as the nil map of a zero-valued field is: the
    handler only builds responses whose maps are nil.  A list value of
    [multiValueHeaders] is written as a non-nil slice. *)

From stdpp Require Import sorting.
From S2P Require Import Prelude Utf8 Json Events Os Handler.
Import Utf8 Json Events Os Handler.

Module Marshal.

(** [strconv.AppendInt(dst, n, 10)]: the decimal digits of [n >= 0],
    with one digit per step of the fuel [log2 n + 1]. *)
Fixpoint digits (fuel : nat) (n : Z) : gostring :=
  match fuel with
  | O => []
  | S f =>
      if bool_decide (n < 10)%Z then [byte_of_Z (0x30 + n)]
      else digits f (n / 10) ++ [byte_of_Z (0x30 + n mod 10)]
  end.

Definition formatInt (n : Z) : gostring :=
  if bool_decide (n < 0)%Z then "-"%byte :: digits (S (Z.to_nat (Z.log2 (- n)))) (- n)
  else digits (S (Z.to_nat (Z.log2 n))) n.

(** [strings.Compare]: bytewise lexicographic order. *)
Fixpoint compare_str (a b : gostring) : comparison :=
  match a, b with
  | [], [] => Eq
  | [], _ :: _ => Lt
  | _ :: _, [] => Gt
  | x :: a', y :: b' =>
      match Z.compare (byteZ x) (byteZ y) with Eq => compare_str a' b' | c => c end
  end.

Definition key_le {V} (kv1 kv2 : gostring * V) : Prop := compare_str kv1.1 kv2.1 <> Gt.

#[export] Instance key_le_dec {V} : RelDecision (@key_le V).
Proof. intros x y. unfold key_le. apply _. Defined.

(** The quoted name of a field and its colon, as [structEncoder] writes it. *)
Definition json_key (name : string) : gostring := [quote] ++ gostr name ++ [quote; ":"%byte].

(** The elements of an array or object, separated by commas:
    [for i, v := range xs { if i > 0 { e.WriteByte(',') }; enc(v) }]. *)
Fixpoint encode_elems {A} (enc : gostring -> A -> GoM gostring) (first : bool)
    (dst : gostring) (xs : list A) : GoM gostring :=
  match xs with
  | [] => Ret dst
  | x :: rest =>
      let dst := if first then dst else dst ++ [","%byte] in
      dst <- enc dst x ;;
      encode_elems enc false dst rest
  end.

(** [sliceEncoder] for [[]string]. *)
Definition encode_slice (escapeHTML : bool) (dst : gostring) (xs : list gostring) : GoM gostring :=
  dst <- encode_elems (fun dst s => appendString dst s escapeHTML) true (dst ++ ["["%byte]) xs ;;
  Ret (dst ++ ["]"%byte]).

(** [mapEncoder] for [map[string]V]: [null] for the nil map, otherwise the
    entries sorted by key. *)
Definition encode_map {V} `{!EqDecision V} (encV : gostring -> V -> GoM gostring)
    (escapeHTML : bool) (dst : gostring) (m : gmap gostring V) : GoM gostring :=
  if bool_decide (m = ∅) then Ret (dst ++ gostr "null")
  else
    dst <- encode_elems (fun dst (kv : gostring * V) =>
                           dst <- appendString dst kv.1 escapeHTML ;;
                           encV (dst ++ [":"%byte]) kv.2)
                        true (dst ++ ["{"%byte]) (merge_sort key_le (map_to_list m)) ;;
    Ret (dst ++ ["}"%byte]).

(** [json.Marshal] of an [events.APIGatewayProxyResponse]. *)
Definition marshal_response (escapeHTML : bool) (r : APIGatewayProxyResponse) : GoM gostring :=
  let dst := gostr "{" ++ json_key "statusCode" ++ formatInt (StatusCode r) in
  dst <- encode_map (fun dst v => appendString dst v escapeHTML) escapeHTML
           (dst ++ [","%byte] ++ json_key "headers") (Headers r) ;;
  dst <- encode_map (encode_slice escapeHTML) escapeHTML
           (dst ++ [","%byte] ++ json_key "multiValueHeaders") (MultiValueHeaders r) ;;
  dst <- appendString (dst ++ [","%byte] ++ json_key "body") (Body r) escapeHTML ;;
  let dst := if IsBase64Encoded r then dst ++ [","%byte] ++ json_key "isBase64Encoded" ++ gostr "true"
             else dst in
  Ret (dst ++ ["}"%byte]).

(** ** The document posted for a handler response *)

(** The JSON object of a response with nil maps, status [code] and the
    JSON string [q] as its body. *)
Definition response_doc (code : Z) (q : gostring) : gostring :=
  gostr "{" ++ json_key "statusCode" ++ formatInt code ++
  [","%byte] ++ json_key "headers" ++ gostr "null" ++
  [","%byte] ++ json_key "multiValueHeaders" ++ gostr "null" ++
  [","%byte] ++ json_key "body" ++ q ++ ["}"%byte].

(** [json.Marshal] of a response the handler builds. *)
Lemma marshal_proxy_response h c b :
  marshal_response h (proxy_response c b) = Ret (response_doc c ([quote] ++ enc_ref h b ++ [quote])).
Proof.
  unfold marshal_response, encode_map.
  cbn [Headers MultiValueHeaders Body StatusCode IsBase64Encoded proxy_response].
  rewrite !bool_decide_true by done. rewrite !go_bind_ret, appendString_enc_ref, go_bind_ret.
  unfold response_doc. by rewrite <- !app_assoc.
Qed.

(** The handler's response is [proxy_response] of its status and body. *)
Lemma handler_spec_proxy {E} `{GoErr E} (wd : gostring * option E) :
  exists c b, (handler_spec wd).1 = proxy_response c b.
Proof. unfold handler_spec. destruct wd.2; eauto. Qed.

Section Properties.
Context {P E : Type} `{!Os P E} `{!GoErr E}.

(** C21: round trip through the runtime. Whatever [os.Getwd] answers, the runtime posts for
    the handler's response the JSON object
    [{"statusCode":<code>,"headers":null,"multiValueHeaders":null,"body":<q>}]
    (no [isBase64Encoded] field), whose [q] is a JSON string (a quote,
    the bytes [appendString] writes for the body, a quote); when the body
    is valid UTF-8, [q] reads back as the body. *)
Theorem Handler_response_json {Ctx} (proc : P) (ctx : Ctx) request resp err escapeHTML :
  Handler proc ctx request = Ret (resp, err) ->
  exists q, marshal_response escapeHTML resp =
    Ret (gostr "{" ++ json_key "statusCode" ++ formatInt (StatusCode resp) ++
         [","%byte] ++ json_key "headers" ++ gostr "null" ++
         [","%byte] ++ json_key "multiValueHeaders" ++ gostr "null" ++
         [","%byte] ++ json_key "body" ++ q ++ ["}"%byte]) /\
    q = [quote] ++ enc_ref escapeHTML (Body resp) ++ [quote] /\
    (valid_utf8 (Body resp) = true -> unquote q = Some (Body resp)).
Proof.
  rewrite Handler_spec_eq. intros Hr%Ret_inj%(f_equal fst). cbn [fst] in Hr. subst resp.
  destruct (handler_spec_proxy (Getwd proc)) as (c & b & Hs).
  rewrite Hs. rewrite marshal_proxy_response. cbn [Body StatusCode proxy_response].
  exists ([quote] ++ enc_ref escapeHTML b ++ [quote]).
  split; [done | split; [done | apply unquote_enc_ref]].
Qed.

End Properties.

Import Linux.

Lemma Handler_response_json_witness :
  Handler srv_app tt empty_request =
    Ret (proxy_response 200 (gostr "O diretório corrente é: app"), None) /\
  exists q, marshal_response true (proxy_response 200 (gostr "O diretório corrente é: app")) =
    Ret (gostr "{" ++ json_key "statusCode" ++ formatInt 200 ++
         [","%byte] ++ json_key "headers" ++ gostr "null" ++
         [","%byte] ++ json_key "multiValueHeaders" ++ gostr "null" ++
         [","%byte] ++ json_key "body" ++ q ++ ["}"%byte]) /\
    q = [quote] ++ enc_ref true (gostr "O diretório corrente é: app") ++ [quote] /\
    (valid_utf8 (gostr "O diretório corrente é: app") = true ->
     unquote q = Some (gostr "O diretório corrente é: app")).
Proof.
  assert (Handler srv_app tt empty_request =
    Ret (proxy_response 200 (gostr "O diretório corrente é: app"), None)) as H
    by (vm_compute; reflexivity).
  split; [exact H |].
  exact (Handler_response_json srv_app tt empty_request
           (proxy_response 200 (gostr "O diretório corrente é: app")) None true H).
Defined.

(** The status codes of the handler as [strconv] writes them. *)
Example formatInt_status : formatInt 200 = gostr "200" /\ formatInt 500 = gostr "500".
Proof. split; reflexivity. Qed.

End Marshal.
