(* ===== verification/Runtime.v ===== *)
(** * Runtime: [lambda.Start] and [main]

    [main] (lines 35-38 of [src/main.go]) hands [Handler] to
    [lambda.Start], whose invoke loop ([startRuntimeAPILoop] and
    [handleInvoke] in [aws-lambda-go/lambda]) takes the next invocation
    from the Runtime API, calls the handler with a context carrying the
    request id and deadline, and posts back either the response
    ([invoke.success]) or an error ([invoke.failure]); a handler that
    panics is reported as a failure and the process exits.

    [Start] is that loop as a step relation on a [State]: the process
    state the handler reads, the invocations not yet handled, the reports
    posted so far, and whether the process has exited.  Between two
    invocations the environment may change the process state arbitrarily
    ([start_env]): a directory may be removed, [$PWD] may change.  The
    HTTP client of the Runtime API is not modelled, and an invocation
    here carries its decoded request: [Invoke.main_raw] decodes the
    payload bytes first; the JSON
    the runtime posts for a response is [Marshal.marshal_response];
    [System.system] is [main] with the environment restricted to the
    operations of a Linux directory tree. *)

From S2P Require Import Prelude Filepath Fmt Events Os Handler.
Import Events Os Handler.

Module Runtime.

(** An invocation handed out by the Runtime API. *)
Record Invocation := {
  RequestID : gostring;
  Deadline : Z;
  Event : APIGatewayProxyRequest
}.

(** The context the runtime gives the handler: request id and deadline. *)
Definition InvokeContext : Type := (gostring * Z)%type.

(** What the runtime posts back for one invocation. *)
Inductive Report :=
| Success (id : gostring) (resp : APIGatewayProxyResponse)
| Failure (id : gostring) (msg : gostring).

Definition report_id (r : Report) : gostring :=
  match r with Success id _ => id | Failure id _ => id end.

Section Loop.
Context {P E : Type} `{!Os P E} `{!GoErr E}.

Record State := {
  proc : P;
  pending : list Invocation;
  reports : list Report;
  exited : bool
}.

(** A handler as [lambda.Start] receives it. *)
Definition LambdaHandler : Type :=
  P -> InvokeContext -> APIGatewayProxyRequest -> GoM (@HandlerResult E).

(** [handleInvoke]: the report for the handler's outcome, and whether the
    process exits afterwards.  A model that ran out of fuel reports
    nothing, and the loop cannot take the step. *)
Definition handle_invoke (id : gostring) (out : GoM (@HandlerResult E))
  : option (Report * bool) :=
  match out with
  | Ret (resp, None) => Some (Success id resp, false)
  | Ret (_, Some err) => Some (Failure id (Error err), false)
  | Panic _ => Some (Failure id (gostr "panic"), true)
  | OutOfFuel => None
  end.

(** [lambda.Start(h)]: one step of the invoke loop, or a change of the
    process state by the environment. *)
Inductive Start (h : LambdaHandler) : State -> State -> Prop :=
| start_invoke p inv rest reps r ex :
    handle_invoke (RequestID inv) (h p (RequestID inv, Deadline inv) (Event inv)) = Some (r, ex) ->
    Start h {| proc := p; pending := inv :: rest; reports := reps; exited := false |}
            {| proc := p; pending := rest; reports := reps ++ [r]; exited := ex |}
| start_env p p' pend reps ex :
    Start h {| proc := p; pending := pend; reports := reps; exited := ex |}
            {| proc := p'; pending := pend; reports := reps; exited := ex |}.

(** [func main() { lambda.Start(Handler) }] *)
Definition main : State -> State -> Prop := Start (fun p ctx request => Handler p ctx request).

(** ** Lemmas *)

(** The report [main] posts for an invocation in process state [p]. *)
Definition main_report (p : P) (inv : Invocation) : Report :=
  Success (RequestID inv) (handler_spec (Getwd p)).1.

Lemma handler_spec_nil_error (wd : gostring * option E) : (handler_spec wd).2 = None.
Proof. unfold handler_spec. by destruct wd.2. Qed.

Lemma handle_invoke_Handler p inv :
  handle_invoke (RequestID inv) (Handler p (RequestID inv, Deadline inv) (Event inv)) =
  Some (main_report p inv, false).
Proof.
  rewrite Handler_spec_eq. unfold main_report. simpl.
  destruct (handler_spec (Getwd p)) as [resp err] eqn:Hs.
  pose proof (handler_spec_nil_error (Getwd p)) as Hn. rewrite Hs in Hn. simpl in Hn.
  by subst err.
Qed.

(** One step of [main]: the environment changed the process state, or the
    first pending invocation was answered with [main_report]. *)
Lemma main_step_inv s s' :
  main s s' ->
  (pending s' = pending s /\ reports s' = reports s /\ exited s' = exited s) \/
  (exists inv, pending s = inv :: pending s' /\ proc s' = proc s /\
               exited s = false /\ exited s' = false /\
               reports s' = reports s ++ [main_report (proc s) inv]).
Proof.
  destruct 1 as [p inv rest reps r ex Hh | p p' pend reps ex]; [right | by left].
  rewrite handle_invoke_Handler in Hh. injection Hh as <- <-. simpl. eauto 10.
Qed.

(** From a running state with a pending invocation, [main] can step. *)
Lemma main_invoke_step p inv rest reps :
  main {| proc := p; pending := inv :: rest; reports := reps; exited := false |}
       {| proc := p; pending := rest; reports := reps ++ [main_report p inv]; exited := false |}.
Proof. apply start_invoke. apply handle_invoke_Handler. Qed.

End Loop.

(** ** Properties of [main] *)

Section Properties.
Context {P E : Type} `{!Os P E} `{!GoErr E}.

(** A report [main] may post: a success with status 200 or 500. *)
Definition good_report (r : Report) : Prop :=
  exists id resp, r = Success id resp /\ (StatusCode resp = 200 \/ StatusCode resp = 500)%Z.

Lemma main_report_good (p : P) inv : good_report (main_report p inv).
Proof.
  unfold main_report, handler_spec. do 2 eexists. split; [done |].
  destruct (Getwd p).2; simpl; lia.
Qed.

(** C7: invariant.  Along every run of [main] (with any changes of the
    process state in between), the process never exits and every report
    it posts is a success with status 200 or 500: no invocation is ever
    reported as a failure. *)
Theorem main_reports_ok (s0 s : @State P) :
  star main s0 s -> Forall good_report (reports s0) -> exited s0 = false ->
  Forall good_report (reports s) /\ exited s = false.
Proof.
  induction 1 as [s | s1 s2 s3 Hstep _ IH]; [done |]. intros Hg He.
  destruct (main_step_inv _ _ Hstep) as [(_ & Hr & Hx) | (inv & _ & _ & _ & Hx & Hr)];
    apply IH; rewrite ?Hr, ?Hx; try done.
  apply Forall_app. split; [done |]. constructor; [apply main_report_good | constructor].
Qed.

(** C8: liveness.  From any state of a process that has not exited,
    [main] can answer every pending invocation, each with the response
    of the handler for the current process state. *)
Theorem main_answers_all (s : @State P) :
  exited s = false ->
  exists s', star main s s' /\ pending s' = [] /\
             reports s' = reports s ++ (main_report (proc s) <$> pending s).
Proof.
  destruct s as [p pend reps ex]. simpl. intros ->.
  revert reps. induction pend as [|inv rest IH]; intros reps.
  - exists {| proc := p; pending := []; reports := reps; exited := false |}.
    split; [apply star_refl |]. by rewrite app_nil_r.
  - destruct (IH (reps ++ [main_report p inv])) as (s' & Hs' & Hp & Hr).
    exists s'. split; [eapply star_step; [apply main_invoke_step | exact Hs'] |].
    split; [done |]. rewrite Hr, <- app_assoc. done.
Qed.

(** C9: idempotence.  Two invocations answered one after the other,
    with no change of the process state in between, get the same
    response. *)
Theorem main_idempotent (s0 s1 s2 : @State P) i1 i2 :
  main s0 s1 -> main s1 s2 -> pending s0 = i1 :: i2 :: pending s2 ->
  exists resp, reports s2 = reports s0 ++ [Success (RequestID i1) resp; Success (RequestID i2) resp].
Proof.
  intros H1 H2 Hp.
  destruct (main_step_inv _ _ H1) as [(Hp1 & _ & _) | (j1 & Hp1 & Hproc1 & _ & _ & Hr1)];
  destruct (main_step_inv _ _ H2) as [(Hp2 & _ & _) | (j2 & Hp2 & Hproc2 & _ & _ & Hr2)].
  - rewrite Hp2, Hp1 in Hp. apply (f_equal length) in Hp. simpl in Hp. lia.
  - rewrite <- Hp1, Hp2 in Hp. apply (f_equal length) in Hp. simpl in Hp. lia.
  - rewrite Hp1, Hp2 in Hp. apply (f_equal length) in Hp. simpl in Hp. lia.
  - rewrite Hp1, Hp2 in Hp. injection Hp as -> ->.
    exists (handler_spec (Getwd (proc s0))).1.
    rewrite Hr2, Hr1, Hproc1, <- app_assoc. done.
Qed.

End Properties.

(** ** Witnesses *)

Import Linux.

Definition inv1 : Invocation :=
  {| RequestID := gostr "req-1"; Deadline := 1000; Event := empty_request |}.
Definition inv2 : Invocation :=
  {| RequestID := gostr "req-2"; Deadline := 2000; Event := full_request |}.

Definition boot : @State Process :=
  {| proc := srv_app; pending := [inv1; inv2]; reports := []; exited := false |}.
Definition after1 : @State Process :=
  {| proc := srv_app; pending := [inv2]; reports := [main_report srv_app inv1];
     exited := false |}.
Definition after2 : @State Process :=
  {| proc := srv_app; pending := [];
     reports := [main_report srv_app inv1; main_report srv_app inv2]; exited := false |}.

Lemma boot_after1 : main boot after1.
Proof. apply (main_invoke_step srv_app inv1 [inv2] []). Qed.

Lemma after1_after2 : main after1 after2.
Proof. apply (main_invoke_step srv_app inv2 [] [main_report srv_app inv1]). Qed.

Lemma main_reports_ok_witness :
  star main boot after2 /\ Forall good_report (reports after2) /\ exited after2 = false.
Proof.
  assert (star main boot after2) as Hs
    by (eapply star_step; [apply boot_after1 | apply star_one, after1_after2]).
  split; [exact Hs |].
  apply (main_reports_ok boot after2 Hs); [constructor | reflexivity].
Defined.

Lemma main_answers_all_witness :
  exited boot = false /\
  exists s', star main boot s' /\ pending s' = [] /\
             reports s' = reports boot ++ (main_report (proc boot) <$> pending boot).
Proof. split; [reflexivity | apply main_answers_all; reflexivity]. Defined.

Lemma main_idempotent_witness :
  main boot after1 /\ main after1 after2 /\
  exists resp, reports after2 =
    reports boot ++ [Success (RequestID inv1) resp; Success (RequestID inv2) resp].
Proof.
  split; [apply boot_after1 |]. split; [apply after1_after2 |].
  apply (main_idempotent boot after1 after2 inv1 inv2 boot_after1 after1_after2). reflexivity.
Defined.

End Runtime.
