(* ===== verification/System.v ===== *)
(** * System: the deployed function over a Linux directory tree

    [Runtime.main] lets the environment change the process state in any
    way between two invocations.  Here the process state is a
    [Fs.LinuxProc] (a tree, the working directory, [$PWD]), [os.Getwd]
    reads it through [Fs.to_process], and the environment is the other
    processes of the machine: they create and remove directories
    ([fs_op]), but never the working directory's inode while the Lambda
    process holds it, and the process itself never changes directory
    (the handler does not call [os.Chdir]).  [system] is [main]
    restricted to such changes: every theorem of [Runtime] applies to
    it, and the tree's invariant [Fs.wf] is kept along every run. *)

From S2P Require Import Prelude Filepath Os Events Handler Fs Runtime.
Import Os Os.Linux Events Handler Fs Runtime.

Module System.

(** [os.Getwd] of a process over a tree. *)
#[export] Instance tree_os : Os LinuxProc OsError := fun lp => unix_Getwd (to_process lp).

(** What the other processes do to the tree between two invocations:
    [mkdir] (the kernel does not reuse the inode of a directory that is
    still some process's working directory) and [rmdir]. *)
Inductive fs_op : LinuxProc -> LinuxProc -> Prop :=
| op_mkdir lp p name new t :
    new <> cwd lp -> mkdir (fs lp) p name new = Some t ->
    fs_op lp {| fs := t; cwd := cwd lp; pwd := pwd lp |}
| op_rmdir lp p name t :
    rmdir (fs lp) p name = Some t ->
    fs_op lp {| fs := t; cwd := cwd lp; pwd := pwd lp |}.

(** The deployed function: the invoke loop of [main] on a process over
    a tree that changes only by [fs_op]. *)
Definition system (s s' : @State LinuxProc) : Prop :=
  main s s' /\ (proc s' = proc s \/ fs_op (proc s) (proc s')).

(** The 500 response for a working directory that is gone. *)
Definition removed_response : APIGatewayProxyResponse :=
  proxy_response 500 (erro_prefix ++ gostr "getwd: no such file or directory").

(** ** Lemmas *)

Lemma fs_op_wf lp lp' :
  fs_op lp lp' -> wf (fs lp) ->
  wf (fs lp') /\ cwd lp' = cwd lp /\ pwd lp' = pwd lp.
Proof.
  destruct 1 as [lp p name new t _ Hm | lp p name t Hr]; intros Hwf; cbn [fs cwd pwd];
    (split; [| done]); [by apply (wf_mkdir (fs lp) p name new t) | by apply (wf_rmdir (fs lp) p name t)].
Qed.

(** A directory that is not linked stays so: [mkdir] links a fresh
    inode under a linked directory, [rmdir] only unlinks. *)
Lemma fs_op_unlinked lp lp' :
  fs_op lp lp' -> dirs (fs lp) !! cwd lp = None -> dirs (fs lp') !! cwd lp' = None.
Proof.
  destruct 1 as [lp p name new t Hnew Hm | lp p name t Hr]; cbn [fs cwd]; intros Hgone.
  - unfold mkdir in Hm. destruct (dirs (fs lp) !! p) as [ents|] eqn:Hp; [| done].
    case_bool_decide; [| done]. injection Hm as <-. cbn [dirs].
    rewrite lookup_insert_ne by done. rewrite lookup_insert_ne; [done |]. congruence.
  - unfold rmdir in Hr. destruct (dirs (fs lp) !! p) as [ents|] eqn:Hp; [| done].
    destruct (ents !! name) as [d|]; [| done]. case_bool_decide; [| done].
    injection Hr as <-. cbn [dirs]. apply lookup_delete_None. right.
    rewrite lookup_insert_ne; [done |]. congruence.
Qed.

(** A step of [system] keeps the tree well formed and the working
    directory and [$PWD] unchanged. *)
Lemma system_step_wf s s' :
  system s s' -> wf (fs (proc s)) ->
  wf (fs (proc s')) /\ cwd (proc s') = cwd (proc s) /\ pwd (proc s') = pwd (proc s).
Proof. intros [_ [-> | Hop]] Hwf; [done | by apply fs_op_wf]. Qed.

(** The report [main] posts when the working directory is gone. *)
Lemma main_report_unlinked lp inv :
  wf (fs lp) -> dirs (fs lp) !! cwd lp = None ->
  main_report lp inv = Success (RequestID inv) removed_response.
Proof.
  intros Hwf Hgone. unfold main_report. change (Getwd lp) with (unix_Getwd (to_process lp)).
  by rewrite Getwd_tree_unlinked.
Qed.

(** A step of [system] keeps the working directory unlinked once it is. *)
Lemma system_step_unlinked s s' :
  system s s' -> dirs (fs (proc s)) !! cwd (proc s) = None ->
  dirs (fs (proc s')) !! cwd (proc s') = None.
Proof. intros [_ [-> | Hop]] Hgone; [done | by apply (fs_op_unlinked _ _ Hop)]. Qed.

(** ** Properties of the deployed function *)

(** The invariant of the environment.  Along every run of the deployed function from a
    well-formed tree, whatever the other processes create or remove, the
    tree stays well formed and the working directory and [$PWD] of the
    Lambda process do not change. *)
Lemma system_wf (s0 s : @State LinuxProc) :
  star system s0 s -> wf (fs (proc s0)) ->
  wf (fs (proc s)) /\ cwd (proc s) = cwd (proc s0) /\ pwd (proc s) = pwd (proc s0).
Proof.
  intros Hrun Hwf.
  apply (star_invariant system (fun s => wf (fs (proc s)) /\ cwd (proc s) = cwd (proc s0) /\
                                          pwd (proc s) = pwd (proc s0)) s0 s); [| done | done].
  intros s1 s2 Hstep (Hwf1 & Hc1 & Hp1).
  destruct (system_step_wf _ _ Hstep Hwf1) as (Hwf2 & Hc2 & Hp2). split_and!; congruence.
Qed.

(** C26: safety.  Once the working directory of the Lambda process has
    been removed from a well-formed tree, every invocation answered
    afterwards gets the 500 response ["getwd: no such file or
    directory"]: no later [mkdir] brings the directory back, and no
    [$PWD] reaches it. *)
Theorem system_removed_stays_removed (s0 s : @State LinuxProc) :
  star system s0 s -> wf (fs (proc s0)) -> dirs (fs (proc s0)) !! cwd (proc s0) = None ->
  exists later, reports s = reports s0 ++ later /\
                Forall (fun r => exists id, r = Success id removed_response) later.
Proof.
  intros Hrun Hwf Hgone.
  pose (I := fun s : @State LinuxProc =>
    wf (fs (proc s)) /\ dirs (fs (proc s)) !! cwd (proc s) = None /\
    exists later, reports s = reports s0 ++ later /\
                  Forall (fun r => exists id, r = Success id removed_response) later).
  enough (I s) as (_ & _ & H) by exact H.
  apply (star_invariant system I s0 s); [| done |].
  2:{ split_and!; [done | done | exists []; split; [by rewrite app_nil_r | constructor]]. }
  intros s1 s2 Hstep (Hwf1 & Hgone1 & later & Hr1 & Hl).
  destruct (system_step_wf _ _ Hstep Hwf1) as (Hwf2 & _).
  split_and!; [done | by apply (system_step_unlinked s1) |].
  destruct (main_step_inv _ _ (proj1 Hstep)) as [(_ & Hr & _) | (inv & _ & Hp & _ & _ & Hr)].
  - exists later. by rewrite Hr.
  - exists (later ++ [Success (RequestID inv) removed_response]).
    rewrite Hr, Hr1, main_report_unlinked, <- app_assoc by done.
    split; [done | apply Forall_app; split; [done | repeat constructor; eauto]].
Qed.

(** ** A run *)

(** The Lambda process in [/srv/app], before and after another process
    removed [/srv/app]. *)
Definition lp_app : LinuxProc := in_srv_app (Some (gostr "/srv/app")).
Definition lp_gone : LinuxProc :=
  {| fs := srv_app_removed_fs; cwd := 11%N; pwd := Some (gostr "/srv/app") |}.

Definition run0 : @State LinuxProc :=
  {| proc := lp_app; pending := [inv1; inv2]; reports := []; exited := false |}.
Definition run1 : @State LinuxProc :=
  {| proc := lp_app; pending := [inv2]; reports := [main_report lp_app inv1]; exited := false |}.
Definition run2 : @State LinuxProc :=
  {| proc := lp_gone; pending := [inv2]; reports := [main_report lp_app inv1]; exited := false |}.
Definition run3 : @State LinuxProc :=
  {| proc := lp_gone; pending := [];
     reports := [main_report lp_app inv1; main_report lp_gone inv2]; exited := false |}.

Lemma run01 : system run0 run1.
Proof. split; [apply (main_invoke_step lp_app inv1 [inv2] []) | by left]. Qed.

Lemma run12 : system run1 run2.
Proof.
  split; [apply start_env | right].
  apply (op_rmdir lp_app 10%N (gostr "app")). decide_by_eval.
Qed.

Lemma run23 : system run2 run3.
Proof.
  split; [apply (main_invoke_step lp_gone inv2 [] [main_report lp_app inv1]) | by left].
Qed.

Lemma lp_gone_wf : wf (fs lp_gone).
Proof.
  apply (wf_rmdir srv_app_fs 10%N (gostr "app")); [apply srv_app_fs_wf | decide_by_eval].
Qed.

Lemma system_removed_stays_removed_witness :
  star system run2 run3 /\ wf (fs (proc run2)) /\ dirs (fs (proc run2)) !! cwd (proc run2) = None /\
  exists later, reports run3 = reports run2 ++ later /\
                Forall (fun r => exists id, r = Success id removed_response) later.
Proof.
  assert (dirs (fs (proc run2)) !! cwd (proc run2) = None) as Hgone by decide_by_eval.
  split; [apply star_one, run23 |]. split; [exact lp_gone_wf |]. split; [exact Hgone |].
  exact (system_removed_stays_removed run2 run3 (star_one _ _ _ run23) lp_gone_wf Hgone).
Defined.

End System.
