(* ===== verification/Invoke.v ===== *)
(** * Invoke: the payload of an invocation, from bytes to the handler and back

    The Runtime API hands the Lambda runtime each invocation's payload as
    bytes.  Before it calls [Handler], [aws-lambda-go]'s [reflectHandler]
    decodes them into an [events.APIGatewayProxyRequest]: older releases
    with [json.Unmarshal] ([Reader] [UseUnmarshal]), which first runs the
    scanner over the whole payload ([Scanner.checkValid]), newer ones
    with [json.NewDecoder(...).Decode] ([UseDecoder]), which reads the
    first value only ([Scanner.readValue]) and ignores what follows.  A
    payload the decoder rejects is reported to the Runtime API as an
    invocation error whose message is [err.Error()]; the handler does not
    run and the process goes on to the next invocation.

    [StartRaw] is the invoke loop of [Runtime.Start] over such payloads,
    and [main_raw] is [main] of [src/main.go] over it.  The typed part of
    the decoding, from a syntactically valid JSON text to the fields of
    the request, is the parameter [unmarshal_value]: the handler never
    reads the request, and what matters here is which payloads reach it.
    The theorems show where Go's nesting limit lies for both readers,
    that the two readers disagree on bytes after the first value, and
    that the document [json.Marshal] writes for the handler's response
    passes the same scanner, so a Go client reading it back accepts it. *)

From S2P Require Import Prelude Utf8 Json Scanner Events Os Handler Marshal Runtime.
Import Utf8 Json Scanner Events Os Handler Marshal Runtime.

Module Invoke.

(** Which of Go's decoders the runtime reads the payload with. *)
Inductive Reader := UseUnmarshal | UseDecoder.

(** An invocation as the Runtime API hands it out: its payload is bytes. *)
Record RawInvocation := {
  RawID : gostring;
  RawDeadline : Z;
  Payload : gostring
}.

Section Raw.
Context {P E : Type} `{!Os P E} `{!GoErr E}.

(** The typed decoding of a JSON text into the request, or the message
    of its error (an [*json.UnmarshalTypeError], say). *)
Variable unmarshal_value : gostring -> gostring + APIGatewayProxyRequest.
Variable rd : Reader.

(** The decoding in [reflectHandler]: [json.Unmarshal(payload, event)],
    or [json.NewDecoder(bytes.NewReader(payload)).Decode(event)], which
    decodes the [n] bytes [readValue] found. *)
Definition read_event (payload : gostring) : gostring + APIGatewayProxyRequest :=
  match rd with
  | UseUnmarshal =>
      match checkValid payload with
      | Some e => inl (msg e)
      | None => unmarshal_value payload
      end
  | UseDecoder =>
      match readValue payload with
      | inl e => inl (DecodeError_Error e)
      | inr n => unmarshal_value (take n payload)
      end
  end.

(** The invoke loop's state, its invocations still as bytes. *)
Record RawState := {
  rproc : P;
  rpending : list RawInvocation;
  rreports : list Report;
  rexited : bool
}.

(** One invocation: a decoding error is returned as the handler's error
    ([return nil, err]) and posted with [invoke.failure]; otherwise the
    handler runs on the decoded request, as in [Runtime.handle_invoke]. *)
Definition invoke_raw (h : @LambdaHandler P E) (p : P) (inv : RawInvocation) : option (Report * bool) :=
  match read_event (Payload inv) with
  | inl m => Some (Failure (RawID inv) m, false)
  | inr ev => handle_invoke (RawID inv) (h p (RawID inv, RawDeadline inv) ev)
  end.

(** [lambda.Start(h)] over payloads. *)
Inductive StartRaw (h : @LambdaHandler P E) : RawState -> RawState -> Prop :=
| raw_invoke p inv rest reps r ex :
    invoke_raw h p inv = Some (r, ex) ->
    StartRaw h {| rproc := p; rpending := inv :: rest; rreports := reps; rexited := false |}
               {| rproc := p; rpending := rest; rreports := reps ++ [r]; rexited := ex |}
| raw_env p p' pend reps ex :
    StartRaw h {| rproc := p; rpending := pend; rreports := reps; rexited := ex |}
               {| rproc := p'; rpending := pend; rreports := reps; rexited := ex |}.

(** [func main() { lambda.Start(Handler) }], the payloads read by [rd]. *)
Definition main_raw : RawState -> RawState -> Prop :=
  StartRaw (fun p ctx request => Handler p ctx request).

(** ** Lemmas *)

(** The report for a decoded payload, or for its decoding error. *)
Definition raw_decoded (id : gostring) (p : P) (r : gostring + APIGatewayProxyRequest) : Report :=
  match r with
  | inl m => Failure id m
  | inr _ => Success id (handler_spec (Getwd p)).1
  end.

(** The report [main_raw] posts for [inv] in process state [p]. *)
Definition raw_report (p : P) (inv : RawInvocation) : Report :=
  raw_decoded (RawID inv) p (read_event (Payload inv)).

(** [n + 1] empty arrays, one inside the other. *)
Definition nested (n : nat) : gostring := repeat "["%byte (S n) ++ repeat "]"%byte (S n).

(** Both readers accept [n + 1] nested arrays up to [maxNestingDepth]
    and reject one level more with the same error. *)
Lemma read_event_nested n :
  read_event (nested n) =
    if bool_decide (Z.of_nat (S n) <= maxNestingDepth)%Z then unmarshal_value (nested n)
    else inl (msg depth_error).
Proof.
  unfold read_event, nested. destruct rd.
  - rewrite checkValid_nested. by case_bool_decide.
  - rewrite readValue_nested. case_bool_decide; [| done].
    rewrite take_ge; [done |]. rewrite length_app, !repeat_length. lia.
Qed.

Lemma run_step_endTop s c :
  step s = stateEndTop -> isSpace c = false ->
  run_step s c = ((scan_error s c "after top-level value").1, scanEnd).
Proof. intros Hs Hc. unfold run_step. rewrite Hs. unfold fstateEndTop. by rewrite Hc. Qed.

(** A byte other than a space after a complete value: [json.Unmarshal]
    rejects it, [Decoder.Decode] stops before it. *)
Lemma read_event_trailing c r :
  isSpace c = false ->
  read_event (gostr "{}" ++ c :: r) =
    match rd with
    | UseUnmarshal => inl (gostr "invalid character " ++ quoteChar c ++ gostr " after top-level value")
    | UseDecoder => unmarshal_value (gostr "{}")
    end.
Proof.
  intros Hc. unfold read_event. destruct rd; [| reflexivity].
  unfold checkValid. rewrite feed_app. change (feed reset (gostr "{}")) with (inr (A := option SyntaxError) (closed 2)).
  cbv beta iota. rewrite (feed_cons_ok _ c r _ scanEnd) by (by apply run_step_endTop || done).
  destruct r as [| d r]; reflexivity.
Qed.

Lemma invoke_raw_Handler p inv :
  invoke_raw (fun p ctx request => Handler p ctx request) p inv = Some (raw_report p inv, false).
Proof.
  unfold invoke_raw, raw_report. destruct (read_event (Payload inv)) as [m | ev]; [done |].
  apply (handle_invoke_Handler p {| RequestID := RawID inv; Deadline := RawDeadline inv; Event := ev |}).
Qed.

(** One step of [main_raw]: the environment changed the process state, or
    the first pending invocation was answered with [raw_report]. *)
Lemma main_raw_step_inv s s' :
  main_raw s s' ->
  (rpending s' = rpending s /\ rreports s' = rreports s /\ rexited s' = rexited s) \/
  (exists inv, rpending s = inv :: rpending s' /\ rproc s' = rproc s /\
               rexited s = false /\ rexited s' = false /\
               rreports s' = rreports s ++ [raw_report (rproc s) inv]).
Proof.
  destruct 1 as [p inv rest reps r ex Hh | p p' pend reps ex]; [right | by left].
  rewrite invoke_raw_Handler in Hh. injection Hh as <- <-. simpl. eauto 10.
Qed.

(** The step of [main_raw] that answers [inv]: the only one that takes
    [inv] off the pending list. *)
Lemma main_raw_answer p inv rest reps s' :
  main_raw {| rproc := p; rpending := inv :: rest; rreports := reps; rexited := false |} s' ->
  rpending s' = rest ->
  s' = {| rproc := p; rpending := rest; rreports := reps ++ [raw_report p inv]; rexited := false |}.
Proof.
  intros Hs Hp. destruct (main_raw_step_inv _ _ Hs) as [(Hp' & _) | (inv' & Hi & Hq & _ & He & Hr)].
  - rewrite Hp in Hp'. simpl in Hp'. by apply (f_equal length) in Hp'; simpl in Hp'; lia.
  - simpl in *. injection Hi as <- _. destruct s'; simpl in *. by subst.
Qed.

Lemma main_raw_invoke_step p inv rest reps :
  main_raw {| rproc := p; rpending := inv :: rest; rreports := reps; rexited := false |}
           {| rproc := p; rpending := rest; rreports := reps ++ [raw_report p inv]; rexited := false |}.
Proof. apply raw_invoke. apply invoke_raw_Handler. Qed.

(** ** Properties of [main_raw] *)

(** C27: for a payload of [n + 1] nested empty arrays, both readers let
    it through to the typed decoding up to [maxNestingDepth] (10000)
    levels, and one level more is answered with the invocation error
    ["invalid character '[' exceeded max depth"]. *)
Theorem main_raw_nesting_limit p inv rest reps n s' :
  Payload inv = nested n ->
  main_raw {| rproc := p; rpending := inv :: rest; rreports := reps; rexited := false |} s' ->
  rpending s' = rest ->
  rreports s' = reps ++
    [if bool_decide (Z.of_nat (S n) <= maxNestingDepth)%Z
     then raw_decoded (RawID inv) p (unmarshal_value (nested n))
     else Failure (RawID inv) (gostr "invalid character '[' exceeded max depth")].
Proof.
  intros Hp Hs Hr. rewrite (main_raw_answer _ _ _ _ _ Hs Hr). cbn [rreports]. do 2 f_equal.
  unfold raw_report. rewrite Hp, read_event_nested. by case_bool_decide.
Qed.

(** C28: a payload whose first value is [{}] and that goes on with a
    byte [c] other than a space is answered differently by the two
    readers: [json.Unmarshal] makes it the invocation error ["invalid
    character 'c' after top-level value"], [Decoder.Decode] decodes
    [{}] and ignores the rest. *)
Theorem main_raw_trailing_data p inv rest reps c r s' :
  Payload inv = gostr "{}" ++ c :: r -> isSpace c = false ->
  main_raw {| rproc := p; rpending := inv :: rest; rreports := reps; rexited := false |} s' ->
  rpending s' = rest ->
  rreports s' = reps ++
    [match rd with
     | UseUnmarshal =>
         Failure (RawID inv) (gostr "invalid character " ++ quoteChar c ++ gostr " after top-level value")
     | UseDecoder => raw_decoded (RawID inv) p (unmarshal_value (gostr "{}"))
     end].
Proof.
  intros Hp Hc Hs Hr. rewrite (main_raw_answer _ _ _ _ _ Hs Hr). cbn [rreports]. do 2 f_equal.
  unfold raw_report. rewrite Hp, read_event_trailing by done. by destruct rd.
Qed.

End Raw.

(** ** The response document passes Go's scanner *)

(** The response document up to the opening quote of its body. *)
Definition doc_head (code : Z) : gostring :=
  gostr "{" ++ json_key "statusCode" ++ formatInt code ++
  [","%byte] ++ json_key "headers" ++ gostr "null" ++
  [","%byte] ++ json_key "multiValueHeaders" ++ gostr "null" ++
  [","%byte] ++ json_key "body" ++ [quote].

Lemma response_doc_split c x :
  response_doc c ([quote] ++ x ++ [quote]) = doc_head c ++ x ++ [quote; "}"%byte].
Proof. unfold response_doc, doc_head. rewrite <- !app_assoc. reflexivity. Qed.

(** The scanner inside the string value of an object's member. *)
Definition in_member_string (b : Z) : scanner :=
  {| step := stateInString; endTop := false; parseState := [parseObjectValue]; err := None; bytes := b |}.

(** The scanner reads the heads of the two documents the handler answers
    with without leaving its ordinary codes. *)
Lemma doc_head_run c : c = 200%Z \/ c = 500%Z -> exists b, run_ok reset (doc_head c) (in_member_string b).
Proof. intros [-> | ->]; eexists; apply run_okb_sound; vm_compute; reflexivity. Qed.

(** The closing quote of the member's string and the closing brace of the object. *)
Lemma close_member b :
  exists s', feed (in_member_string b) [quote; "}"%byte] = inr s' /\ eof s' = (s', scanEnd).
Proof. eexists; split; reflexivity. Qed.

Lemma read_close_member buf b n : read_loop buf (in_member_string b) [quote; "}"%byte] n = inr (S (S n)).
Proof. reflexivity. Qed.

(** A document made of such a head, the inside [x] of a string, its
    closing quote and the closing brace: [checkValid] accepts it and
    [readValue] reads all of it. *)
Lemma doc_valid head x b :
  run_ok reset head (in_member_string b) -> str_ok x ->
  checkValid (head ++ x ++ [quote; "}"%byte]) = None /\
  readValue (head ++ x ++ [quote; "}"%byte]) = inr (length (head ++ x ++ [quote; "}"%byte])).
Proof.
  intros Hh Hx. pose proof (run_ok_app _ _ _ _ _ Hh (run_str (in_member_string b) x Hx eq_refl)) as Hr.
  change (add_bytes (in_member_string b) (length x)) with (in_member_string (b + Z.of_nat (length x))) in Hr.
  rewrite app_assoc. split.
  - unfold checkValid. rewrite (feed_run _ _ _ _ Hr).
    destruct (close_member (b + Z.of_nat (length x))) as (s' & -> & ->). reflexivity.
  - unfold readValue. generalize ((head ++ x) ++ [quote; "}"%byte]) at 1 as buf. intros buf.
    rewrite (read_run _ _ _ _ _ _ Hr), read_close_member, !length_app. cbn [length]. f_equal. lia.
Qed.

(** C29: whatever [os.Getwd] answers, the document [json.Marshal]
    writes for the handler's response, HTML escaping on or off, is valid
    JSON for Go's own scanner: [checkValid] accepts it, and a
    [json.Decoder] reads all of it as one value. *)
Theorem Handler_response_valid_json {P E Ctx : Type} `{!Os P E} `{!GoErr E} h (p : P) (ctx : Ctx)
    request resp err :
  Handler p ctx request = Ret (resp, err) ->
  exists d, marshal_response h resp = Ret d /\ checkValid d = None /\ readValue d = inr (length d).
Proof.
  rewrite Handler_spec_eq. intros Hr%Ret_inj. apply (f_equal fst) in Hr. cbn [fst] in Hr. subst resp.
  assert (exists c b, (c = 200 \/ c = 500)%Z /\ (handler_spec (Getwd p)).1 = proxy_response c b)
    as (c & b & Hc & ->) by (unfold handler_spec; destruct (Getwd p).2; eauto).
  rewrite marshal_proxy_response, response_doc_split. eexists; split; [reflexivity |].
  destruct (doc_head_run c Hc) as [n Hn]. apply (doc_valid _ _ n Hn), enc_ref_str_ok.
Qed.

(** ** Witnesses *)

Import Linux.

(** A typed decoding that accepts every text, with the empty request. *)
Definition accept_all (_ : gostring) : gostring + APIGatewayProxyRequest := inr empty_request.

(** One array more than [maxNestingDepth] allows is [nested too_deep]. *)
Definition too_deep : nat := Z.to_nat maxNestingDepth.

Definition raw_inv (id payload : gostring) : RawInvocation :=
  {| RawID := id; RawDeadline := 1000; Payload := payload |}.

Definition raw_boot (inv : RawInvocation) : @RawState Process :=
  {| rproc := srv_app; rpending := [inv]; rreports := []; rexited := false |}.

Definition raw_after (inv : RawInvocation) (r : Report) : @RawState Process :=
  {| rproc := srv_app; rpending := []; rreports := [r]; rexited := false |}.

Lemma main_raw_nesting_limit_witness :
  Payload (raw_inv (gostr "req-2") (nested too_deep)) = nested too_deep /\
  main_raw accept_all UseDecoder (raw_boot (raw_inv (gostr "req-2") (nested too_deep)))
    (raw_after (raw_inv (gostr "req-2") (nested too_deep))
       (raw_report accept_all UseDecoder srv_app (raw_inv (gostr "req-2") (nested too_deep)))) /\
  rreports (raw_after (raw_inv (gostr "req-2") (nested too_deep))
              (raw_report accept_all UseDecoder srv_app (raw_inv (gostr "req-2") (nested too_deep)))) =
    [if bool_decide (Z.of_nat (S too_deep) <= maxNestingDepth)%Z
     then raw_decoded (gostr "req-2") srv_app (accept_all (nested too_deep))
     else Failure (gostr "req-2") (gostr "invalid character '[' exceeded max depth")].
Proof.
  assert (main_raw accept_all UseDecoder (raw_boot (raw_inv (gostr "req-2") (nested too_deep)))
    (raw_after (raw_inv (gostr "req-2") (nested too_deep))
       (raw_report accept_all UseDecoder srv_app (raw_inv (gostr "req-2") (nested too_deep))))) as Hs
    by exact (main_raw_invoke_step accept_all UseDecoder srv_app (raw_inv (gostr "req-2") (nested too_deep)) [] []).
  split; [reflexivity |]. split; [exact Hs |].
  exact (main_raw_nesting_limit accept_all UseDecoder srv_app (raw_inv (gostr "req-2") (nested too_deep))
           [] [] too_deep _ eq_refl Hs eq_refl).
Defined.

Lemma main_raw_trailing_data_witness :
  Payload (raw_inv (gostr "req-4") (gostr "{}x")) = gostr "{}" ++ "x"%byte :: [] /\
  isSpace "x"%byte = false /\
  main_raw accept_all UseUnmarshal (raw_boot (raw_inv (gostr "req-4") (gostr "{}x")))
    (raw_after (raw_inv (gostr "req-4") (gostr "{}x"))
       (raw_report accept_all UseUnmarshal srv_app (raw_inv (gostr "req-4") (gostr "{}x")))) /\
  rreports (raw_after (raw_inv (gostr "req-4") (gostr "{}x"))
              (raw_report accept_all UseUnmarshal srv_app (raw_inv (gostr "req-4") (gostr "{}x")))) =
    [Failure (gostr "req-4") (gostr "invalid character " ++ quoteChar "x"%byte ++ gostr " after top-level value")].
Proof.
  assert (main_raw accept_all UseUnmarshal (raw_boot (raw_inv (gostr "req-4") (gostr "{}x")))
    (raw_after (raw_inv (gostr "req-4") (gostr "{}x"))
       (raw_report accept_all UseUnmarshal srv_app (raw_inv (gostr "req-4") (gostr "{}x"))))) as Hs
    by exact (main_raw_invoke_step accept_all UseUnmarshal srv_app (raw_inv (gostr "req-4") (gostr "{}x")) [] []).
  split; [reflexivity |]. split; [reflexivity |]. split; [exact Hs |].
  exact (main_raw_trailing_data accept_all UseUnmarshal srv_app (raw_inv (gostr "req-4") (gostr "{}x"))
           [] [] "x"%byte [] _
           eq_refl eq_refl Hs eq_refl).
Defined.

Lemma Handler_response_valid_json_witness :
  Handler srv_app tt full_request = Ret (proxy_response 200 (gostr "O diretório corrente é: app"), None) /\
  exists d, marshal_response true (proxy_response 200 (gostr "O diretório corrente é: app")) = Ret d /\
    checkValid d = None /\ readValue d = inr (length d).
Proof.
  assert (Handler srv_app tt full_request =
    Ret (proxy_response 200 (gostr "O diretório corrente é: app"), None)) as H
    by (vm_compute; reflexivity).
  split; [exact H | exact (Handler_response_valid_json true srv_app tt full_request _ _ H)].
Defined.

End Invoke.
